(** * froggyOS: avatar kinematics, flocking, selection and the mode switch

    A shallow embedding of the simulation core of the swimming tank
    (frog.js, the selection routine of ui.js, checkCollisions of objects.js,
    updateEnvironment of scene.js, sidescroller.js and the frame callback of
    main.js), with the properties of the written specification stated and
    settled against it.

    Conventions of the embedding.
    - JavaScript numbers are read as real numbers.  The one place where the
      source produces NaN from finite operands (the quotient 0/0 of the
      selection score) is modelled explicitly, with [option].
    - The [tank] object is a record; every update function of the source is
      a function from [Tank] to [Tank].  Objects that the source shares by
      reference (world objects held as selection, autopilot target or
      sub-agent target) are referred to by their index in [allObjects].
    - Render-side state (meshes, animation mixers, materials, bubbles,
      particles, DOM panels, the console) is not part of [Tank]; a call that
      writes only there is the identity on [Tank].
    - [Date.now()], [Math.random()] and [clock.getDelta()] are inputs of a
      frame, gathered in [Env]. *)

From Stdlib Require Import Reals Lra Lia List Bool ZArith.
From stdpp Require Import base list.
Import ListNotations.
Local Open Scope R_scope.

(** ** Numbers *)

Definition ltb (a b : R) : bool := if Rlt_dec a b then true else false.
Definition gtb (a b : R) : bool := ltb b a.
Definition leb (a b : R) : bool := if Rle_dec a b then true else false.
Definition geb (a b : R) : bool := leb b a.
Definition eqb0 (a : R) : bool := if Req_dec_T a 0 then true else false.

(** [a || 1] on numbers: the right operand when [a] is zero. *)
Definition orOne (a : R) : R := if eqb0 a then 1 else a.

(** [Math.floor], as an index. *)
Definition floorIndex (a : R) : nat := Z.to_nat (Int_part a).

(** [Math.atan2(y, x)]. *)
Definition atan2 (y x : R) : R :=
  if ltb 0 x then atan (y / x)
  else if ltb x 0 then (if leb 0 y then atan (y / x) + PI else atan (y / x) - PI)
  else if ltb 0 y then PI / 2
  else if ltb y 0 then - (PI / 2)
  else 0.

(** ** three.js values: Vector3, Euler, Quaternion

    The methods below are three.js's own ([Vector3.normalize] divides by
    [length() || 1], [clampLength] rescales the normalized vector,
    [applyQuaternion] and [setFromEuler] are the library's formulas). *)

Record Vector3 := vec3 { vx : R; vy : R; vz : R }.
Record Euler := euler3 { ex : R; ey : R; ez : R }.
Record Quaternion := quat { qx : R; qy : R; qz : R; qw : R }.

Module V3.
Definition zero : Vector3 := vec3 0 0 0.
Definition add (a b : Vector3) : Vector3 :=
  vec3 (vx a + vx b) (vy a + vy b) (vz a + vz b).
Definition sub (a b : Vector3) : Vector3 :=
  vec3 (vx a - vx b) (vy a - vy b) (vz a - vz b).
Definition multiplyScalar (a : Vector3) (s : R) : Vector3 :=
  vec3 (vx a * s) (vy a * s) (vz a * s).
Definition divideScalar (a : Vector3) (s : R) : Vector3 :=
  multiplyScalar a (1 / s).
Definition dot (a b : Vector3) : R :=
  vx a * vx b + vy a * vy b + vz a * vz b.
Definition length (a : Vector3) : R :=
  sqrt (vx a * vx a + vy a * vy a + vz a * vz a).
Definition normalize (a : Vector3) : Vector3 :=
  divideScalar a (orOne (length a)).
Definition clampLength (a : Vector3) (lo hi : R) : Vector3 :=
  let l := length a in
  multiplyScalar (divideScalar a (orOne l)) (Rmax lo (Rmin hi l)).
Definition distanceTo (a b : Vector3) : R :=
  let dx := vx a - vx b in
  let dy := vy a - vy b in
  let dz := vz a - vz b in
  sqrt (dx * dx + dy * dy + dz * dz).
Definition lerp (a b : Vector3) (alpha : R) : Vector3 :=
  vec3 (vx a + (vx b - vx a) * alpha)
       (vy a + (vy b - vy a) * alpha)
       (vz a + (vz b - vz a) * alpha).
Definition applyQuaternion (v : Vector3) (q : Quaternion) : Vector3 :=
  let tx := 2 * (qy q * vz v - qz q * vy v) in
  let ty := 2 * (qz q * vx v - qx q * vz v) in
  let tz := 2 * (qx q * vy v - qy q * vx v) in
  vec3 (vx v + qw q * tx + qy q * tz - qz q * ty)
       (vy v + qw q * ty + qz q * tx - qx q * tz)
       (vz v + qw q * tz + qx q * ty - qy q * tx).
Definition set_x (a : Vector3) (r : R) : Vector3 := vec3 r (vy a) (vz a).
Definition set_y (a : Vector3) (r : R) : Vector3 := vec3 (vx a) r (vz a).
Definition set_z (a : Vector3) (r : R) : Vector3 := vec3 (vx a) (vy a) r.
End V3.

(** [Quaternion.setFromEuler] for the default order XYZ. *)
Definition setFromEuler (e : Euler) : Quaternion :=
  let c1 := cos (ex e / 2) in
  let c2 := cos (ey e / 2) in
  let c3 := cos (ez e / 2) in
  let s1 := sin (ex e / 2) in
  let s2 := sin (ey e / 2) in
  let s3 := sin (ez e / 2) in
  quat (s1 * c2 * c3 + c1 * s2 * s3)
       (c1 * s2 * c3 - s1 * c2 * s3)
       (c1 * c2 * s3 + s1 * s2 * c3)
       (c1 * c2 * c3 - s1 * s2 * s3).

(** ** The data model *)

(** A scene node as far as the core reads it: [frog.position],
    [frog.rotation] and the derived [frog.quaternion]. *)
Module Obj3D.
Record t := mk { position : Vector3; rotation : Euler }.
Definition quaternion (o : t) : Quaternion := setFromEuler (rotation o).
Definition set_position (p : Vector3) (o : t) : t :=
  {| position := p; rotation := rotation o |}.
Definition set_rotation_y (r : R) (o : t) : t :=
  {| position := position o;
     rotation := euler3 (ex (rotation o)) r (ez (rotation o)) |}.
End Obj3D.

(** [tank.movement]: the six intent flags. *)
Module Movement.
Record t := mk {
  forward : bool; backward : bool; left : bool; right : bool;
  up : bool; down : bool }.
Definition none : t := mk false false false false false false.
Definition hasHorizontalInput (m : t) : bool :=
  forward m || backward m || left m || right m.
Definition hasInput (m : t) : bool :=
  forward m || backward m || left m || right m || up m || down m.
End Movement.

(** [tank.config], the parts the core reads. *)
Module Config.
Record t := mk {
  speed : R; friction : R; verticalSpeed : R;          (* movement *)
  strokeSpeed : R; floatSpeed : R;                      (* swimming *)
  collisionDistance : R; selectionDistance : R;         (* world *)
  width : R; floorY : R; ceilingY : R                   (* tank *) }.
(** The values of the constructor of [SwimmingTank]. *)
Definition default : t :=
  mk 8 6 6 4 (1/2) 2 4 30 (-10) 15.
End Config.

Module Camera.
Record t := mk { position : Vector3; quaternion : Quaternion }.
Definition set_position (p : Vector3) (c : t) : t :=
  {| position := p; quaternion := quaternion c |}.
End Camera.

(** The three.js camera methods the core calls and this repository does not
    define: [camera.lookAt(target)], [point.project(camera)] and
    [camera.getWorldDirection()]. *)
Class CameraOps := {
  lookAt : Camera.t -> Vector3 -> Camera.t;
  project : Camera.t -> Vector3 -> Vector3;
  getWorldDirection : Camera.t -> Vector3 }.

Inductive ObjType := Folder | Pdf | Txt | Image.

(** An entry of [tank.allObjects]. *)
Module WorldObject.
Record t := mk { position : Vector3; rotationY : R; type : ObjType }.
End WorldObject.

(** [tank.autopilot]; [None] on the tank stands for [undefined]. *)
Module Autopilot.
Record t := mk {
  active : bool;
  lastInputTime : R;
  targetObject : option nat;
  idleTimeout : R;
  cameraRealignInterval : R;
  lastCameraRealign : R;
  speed : R }.
End Autopilot.

(** An entry of [tank.otherFrogs].  [position] is the mesh's own position
    object, so one field stands for both; [meshRotationY] is
    [mesh.rotation.y]; [target] is the index of the targeted world object. *)
Module FrogData.
Record t := mk {
  position : Vector3;
  velocity : Vector3;
  acceleration : Vector3;
  target : option nat;
  speed : R;
  maxForce : R;
  separationRadius : R;
  minSeparation : R;
  isMoving : bool;
  meshRotationY : R }.
End FrogData.

(** [tank.sideScrollerPlayer].  [jumpPressed], [droppingThrough] and
    [isOnGround] are absent from the object literal of
    [enterSideScrollerMode]; an absent flag reads as false. *)
Module Player.
Record t := mk {
  position : Vector3;
  velocity : Vector3;
  isGrounded : bool;
  jumpCount : nat;
  maxJumps : nat;
  jumpPressed : bool;
  droppingThrough : bool;
  isOnGround : bool;
  meshRotationY : R }.
End Player.

Module Platform.
Record t := mk {
  position : Vector3;
  isGround : bool;
  userWidth : option R;     (* userData.width *)
  geometryWidth : R         (* geometry.parameters.width *) }.
End Platform.

(** A file placed in the side-scroller world, with the two cached base
    values of [animateFiles]. *)
Module SSFile.
Record t := mk {
  position : Vector3; rotationY : R;
  baseY : option R; baseRotY : option R }.
End SSFile.

(** [tank.sideScrollerInput]. *)
Module SSInput.
Record t := mk { left : bool; right : bool; jump : bool; down : bool }.
Definition none : t := mk false false false false.
End SSInput.

(** The inputs of one frame: [clock.getDelta()], [Date.now()] and the draw
    of [Math.random()] that picks the autopilot target. *)
Module Env.
Record t := mk { delta : R; now : R; random : R }.
End Env.

(** What happens between two frames and in the next one: the input
    handlers may have rewritten the intent flags of both modes, then the
    frame runs with its [Env]. *)
Module Frame.
Record t := mk { movement : Movement.t; input : SSInput.t; env : Env.t }.
End Frame.

(** ** The tank *)

Record Tank := mkTank {
  frog : option Obj3D.t;
  frogPosition : Vector3;
  velocity : Vector3;
  direction : Vector3;
  movement : Movement.t;
  swimTime : R;
  dashCooldown : R;
  dashForce : R;
  camera : Camera.t;
  cameraOffset : Vector3;
  euler : Euler;
  mouseX : R;
  mouseY : R;
  allObjects : list WorldObject.t;
  selectedObject : option nat;
  autopilot : option Autopilot.t;
  multiFrogMode : bool;
  otherFrogs : list FrogData.t;
  config : Config.t;
  sideScrollerMode : bool;
  sideScrollerPlayer : option Player.t;
  sideScrollerCamera : option Vector3;
  sideScrollerPlatforms : list Platform.t;
  sideScrollerFiles : list SSFile.t;
  sideScrollerInput : SSInput.t;
  currentFolder : option nat
}.

Definition set_frog (a : option Obj3D.t) (t : Tank) : Tank :=
  {| frog := a; frogPosition := frogPosition t; velocity := velocity t;
     direction := direction t; movement := movement t; swimTime := swimTime
     t; dashCooldown := dashCooldown t; dashForce := dashForce t; camera :=
     camera t; cameraOffset := cameraOffset t; euler := euler t; mouseX :=
     mouseX t; mouseY := mouseY t; allObjects := allObjects t;
     selectedObject := selectedObject t; autopilot := autopilot t;
     multiFrogMode := multiFrogMode t; otherFrogs := otherFrogs t; config :=
     config t; sideScrollerMode := sideScrollerMode t; sideScrollerPlayer :=
     sideScrollerPlayer t; sideScrollerCamera := sideScrollerCamera t;
     sideScrollerPlatforms := sideScrollerPlatforms t; sideScrollerFiles :=
     sideScrollerFiles t; sideScrollerInput := sideScrollerInput t;
     currentFolder := currentFolder t |}.

Definition set_frogPosition (a : Vector3) (t : Tank) : Tank :=
  {| frog := frog t; frogPosition := a; velocity := velocity t; direction :=
     direction t; movement := movement t; swimTime := swimTime t;
     dashCooldown := dashCooldown t; dashForce := dashForce t; camera :=
     camera t; cameraOffset := cameraOffset t; euler := euler t; mouseX :=
     mouseX t; mouseY := mouseY t; allObjects := allObjects t;
     selectedObject := selectedObject t; autopilot := autopilot t;
     multiFrogMode := multiFrogMode t; otherFrogs := otherFrogs t; config :=
     config t; sideScrollerMode := sideScrollerMode t; sideScrollerPlayer :=
     sideScrollerPlayer t; sideScrollerCamera := sideScrollerCamera t;
     sideScrollerPlatforms := sideScrollerPlatforms t; sideScrollerFiles :=
     sideScrollerFiles t; sideScrollerInput := sideScrollerInput t;
     currentFolder := currentFolder t |}.

Definition set_velocity (a : Vector3) (t : Tank) : Tank :=
  {| frog := frog t; frogPosition := frogPosition t; velocity := a;
     direction := direction t; movement := movement t; swimTime := swimTime
     t; dashCooldown := dashCooldown t; dashForce := dashForce t; camera :=
     camera t; cameraOffset := cameraOffset t; euler := euler t; mouseX :=
     mouseX t; mouseY := mouseY t; allObjects := allObjects t;
     selectedObject := selectedObject t; autopilot := autopilot t;
     multiFrogMode := multiFrogMode t; otherFrogs := otherFrogs t; config :=
     config t; sideScrollerMode := sideScrollerMode t; sideScrollerPlayer :=
     sideScrollerPlayer t; sideScrollerCamera := sideScrollerCamera t;
     sideScrollerPlatforms := sideScrollerPlatforms t; sideScrollerFiles :=
     sideScrollerFiles t; sideScrollerInput := sideScrollerInput t;
     currentFolder := currentFolder t |}.

Definition set_direction (a : Vector3) (t : Tank) : Tank :=
  {| frog := frog t; frogPosition := frogPosition t; velocity := velocity t;
     direction := a; movement := movement t; swimTime := swimTime t;
     dashCooldown := dashCooldown t; dashForce := dashForce t; camera :=
     camera t; cameraOffset := cameraOffset t; euler := euler t; mouseX :=
     mouseX t; mouseY := mouseY t; allObjects := allObjects t;
     selectedObject := selectedObject t; autopilot := autopilot t;
     multiFrogMode := multiFrogMode t; otherFrogs := otherFrogs t; config :=
     config t; sideScrollerMode := sideScrollerMode t; sideScrollerPlayer :=
     sideScrollerPlayer t; sideScrollerCamera := sideScrollerCamera t;
     sideScrollerPlatforms := sideScrollerPlatforms t; sideScrollerFiles :=
     sideScrollerFiles t; sideScrollerInput := sideScrollerInput t;
     currentFolder := currentFolder t |}.

Definition set_movement (a : Movement.t) (t : Tank) : Tank :=
  {| frog := frog t; frogPosition := frogPosition t; velocity := velocity t;
     direction := direction t; movement := a; swimTime := swimTime t;
     dashCooldown := dashCooldown t; dashForce := dashForce t; camera :=
     camera t; cameraOffset := cameraOffset t; euler := euler t; mouseX :=
     mouseX t; mouseY := mouseY t; allObjects := allObjects t;
     selectedObject := selectedObject t; autopilot := autopilot t;
     multiFrogMode := multiFrogMode t; otherFrogs := otherFrogs t; config :=
     config t; sideScrollerMode := sideScrollerMode t; sideScrollerPlayer :=
     sideScrollerPlayer t; sideScrollerCamera := sideScrollerCamera t;
     sideScrollerPlatforms := sideScrollerPlatforms t; sideScrollerFiles :=
     sideScrollerFiles t; sideScrollerInput := sideScrollerInput t;
     currentFolder := currentFolder t |}.

Definition set_swimTime (a : R) (t : Tank) : Tank :=
  {| frog := frog t; frogPosition := frogPosition t; velocity := velocity t;
     direction := direction t; movement := movement t; swimTime := a;
     dashCooldown := dashCooldown t; dashForce := dashForce t; camera :=
     camera t; cameraOffset := cameraOffset t; euler := euler t; mouseX :=
     mouseX t; mouseY := mouseY t; allObjects := allObjects t;
     selectedObject := selectedObject t; autopilot := autopilot t;
     multiFrogMode := multiFrogMode t; otherFrogs := otherFrogs t; config :=
     config t; sideScrollerMode := sideScrollerMode t; sideScrollerPlayer :=
     sideScrollerPlayer t; sideScrollerCamera := sideScrollerCamera t;
     sideScrollerPlatforms := sideScrollerPlatforms t; sideScrollerFiles :=
     sideScrollerFiles t; sideScrollerInput := sideScrollerInput t;
     currentFolder := currentFolder t |}.

Definition set_dashCooldown (a : R) (t : Tank) : Tank :=
  {| frog := frog t; frogPosition := frogPosition t; velocity := velocity t;
     direction := direction t; movement := movement t; swimTime := swimTime
     t; dashCooldown := a; dashForce := dashForce t; camera := camera t;
     cameraOffset := cameraOffset t; euler := euler t; mouseX := mouseX t;
     mouseY := mouseY t; allObjects := allObjects t; selectedObject :=
     selectedObject t; autopilot := autopilot t; multiFrogMode :=
     multiFrogMode t; otherFrogs := otherFrogs t; config := config t;
     sideScrollerMode := sideScrollerMode t; sideScrollerPlayer :=
     sideScrollerPlayer t; sideScrollerCamera := sideScrollerCamera t;
     sideScrollerPlatforms := sideScrollerPlatforms t; sideScrollerFiles :=
     sideScrollerFiles t; sideScrollerInput := sideScrollerInput t;
     currentFolder := currentFolder t |}.

Definition set_camera (a : Camera.t) (t : Tank) : Tank :=
  {| frog := frog t; frogPosition := frogPosition t; velocity := velocity t;
     direction := direction t; movement := movement t; swimTime := swimTime
     t; dashCooldown := dashCooldown t; dashForce := dashForce t; camera :=
     a; cameraOffset := cameraOffset t; euler := euler t; mouseX := mouseX
     t; mouseY := mouseY t; allObjects := allObjects t; selectedObject :=
     selectedObject t; autopilot := autopilot t; multiFrogMode :=
     multiFrogMode t; otherFrogs := otherFrogs t; config := config t;
     sideScrollerMode := sideScrollerMode t; sideScrollerPlayer :=
     sideScrollerPlayer t; sideScrollerCamera := sideScrollerCamera t;
     sideScrollerPlatforms := sideScrollerPlatforms t; sideScrollerFiles :=
     sideScrollerFiles t; sideScrollerInput := sideScrollerInput t;
     currentFolder := currentFolder t |}.

Definition set_cameraOffset (a : Vector3) (t : Tank) : Tank :=
  {| frog := frog t; frogPosition := frogPosition t; velocity := velocity t;
     direction := direction t; movement := movement t; swimTime := swimTime
     t; dashCooldown := dashCooldown t; dashForce := dashForce t; camera :=
     camera t; cameraOffset := a; euler := euler t; mouseX := mouseX t;
     mouseY := mouseY t; allObjects := allObjects t; selectedObject :=
     selectedObject t; autopilot := autopilot t; multiFrogMode :=
     multiFrogMode t; otherFrogs := otherFrogs t; config := config t;
     sideScrollerMode := sideScrollerMode t; sideScrollerPlayer :=
     sideScrollerPlayer t; sideScrollerCamera := sideScrollerCamera t;
     sideScrollerPlatforms := sideScrollerPlatforms t; sideScrollerFiles :=
     sideScrollerFiles t; sideScrollerInput := sideScrollerInput t;
     currentFolder := currentFolder t |}.

Definition set_euler (a : Euler) (t : Tank) : Tank :=
  {| frog := frog t; frogPosition := frogPosition t; velocity := velocity t;
     direction := direction t; movement := movement t; swimTime := swimTime
     t; dashCooldown := dashCooldown t; dashForce := dashForce t; camera :=
     camera t; cameraOffset := cameraOffset t; euler := a; mouseX := mouseX
     t; mouseY := mouseY t; allObjects := allObjects t; selectedObject :=
     selectedObject t; autopilot := autopilot t; multiFrogMode :=
     multiFrogMode t; otherFrogs := otherFrogs t; config := config t;
     sideScrollerMode := sideScrollerMode t; sideScrollerPlayer :=
     sideScrollerPlayer t; sideScrollerCamera := sideScrollerCamera t;
     sideScrollerPlatforms := sideScrollerPlatforms t; sideScrollerFiles :=
     sideScrollerFiles t; sideScrollerInput := sideScrollerInput t;
     currentFolder := currentFolder t |}.

Definition set_mouseX (a : R) (t : Tank) : Tank :=
  {| frog := frog t; frogPosition := frogPosition t; velocity := velocity t;
     direction := direction t; movement := movement t; swimTime := swimTime
     t; dashCooldown := dashCooldown t; dashForce := dashForce t; camera :=
     camera t; cameraOffset := cameraOffset t; euler := euler t; mouseX :=
     a; mouseY := mouseY t; allObjects := allObjects t; selectedObject :=
     selectedObject t; autopilot := autopilot t; multiFrogMode :=
     multiFrogMode t; otherFrogs := otherFrogs t; config := config t;
     sideScrollerMode := sideScrollerMode t; sideScrollerPlayer :=
     sideScrollerPlayer t; sideScrollerCamera := sideScrollerCamera t;
     sideScrollerPlatforms := sideScrollerPlatforms t; sideScrollerFiles :=
     sideScrollerFiles t; sideScrollerInput := sideScrollerInput t;
     currentFolder := currentFolder t |}.

Definition set_mouseY (a : R) (t : Tank) : Tank :=
  {| frog := frog t; frogPosition := frogPosition t; velocity := velocity t;
     direction := direction t; movement := movement t; swimTime := swimTime
     t; dashCooldown := dashCooldown t; dashForce := dashForce t; camera :=
     camera t; cameraOffset := cameraOffset t; euler := euler t; mouseX :=
     mouseX t; mouseY := a; allObjects := allObjects t; selectedObject :=
     selectedObject t; autopilot := autopilot t; multiFrogMode :=
     multiFrogMode t; otherFrogs := otherFrogs t; config := config t;
     sideScrollerMode := sideScrollerMode t; sideScrollerPlayer :=
     sideScrollerPlayer t; sideScrollerCamera := sideScrollerCamera t;
     sideScrollerPlatforms := sideScrollerPlatforms t; sideScrollerFiles :=
     sideScrollerFiles t; sideScrollerInput := sideScrollerInput t;
     currentFolder := currentFolder t |}.

Definition set_allObjects (a : list WorldObject.t) (t : Tank) : Tank :=
  {| frog := frog t; frogPosition := frogPosition t; velocity := velocity t;
     direction := direction t; movement := movement t; swimTime := swimTime
     t; dashCooldown := dashCooldown t; dashForce := dashForce t; camera :=
     camera t; cameraOffset := cameraOffset t; euler := euler t; mouseX :=
     mouseX t; mouseY := mouseY t; allObjects := a; selectedObject :=
     selectedObject t; autopilot := autopilot t; multiFrogMode :=
     multiFrogMode t; otherFrogs := otherFrogs t; config := config t;
     sideScrollerMode := sideScrollerMode t; sideScrollerPlayer :=
     sideScrollerPlayer t; sideScrollerCamera := sideScrollerCamera t;
     sideScrollerPlatforms := sideScrollerPlatforms t; sideScrollerFiles :=
     sideScrollerFiles t; sideScrollerInput := sideScrollerInput t;
     currentFolder := currentFolder t |}.

Definition set_selectedObject (a : option nat) (t : Tank) : Tank :=
  {| frog := frog t; frogPosition := frogPosition t; velocity := velocity t;
     direction := direction t; movement := movement t; swimTime := swimTime
     t; dashCooldown := dashCooldown t; dashForce := dashForce t; camera :=
     camera t; cameraOffset := cameraOffset t; euler := euler t; mouseX :=
     mouseX t; mouseY := mouseY t; allObjects := allObjects t;
     selectedObject := a; autopilot := autopilot t; multiFrogMode :=
     multiFrogMode t; otherFrogs := otherFrogs t; config := config t;
     sideScrollerMode := sideScrollerMode t; sideScrollerPlayer :=
     sideScrollerPlayer t; sideScrollerCamera := sideScrollerCamera t;
     sideScrollerPlatforms := sideScrollerPlatforms t; sideScrollerFiles :=
     sideScrollerFiles t; sideScrollerInput := sideScrollerInput t;
     currentFolder := currentFolder t |}.

Definition set_autopilot (a : option Autopilot.t) (t : Tank) : Tank :=
  {| frog := frog t; frogPosition := frogPosition t; velocity := velocity t;
     direction := direction t; movement := movement t; swimTime := swimTime
     t; dashCooldown := dashCooldown t; dashForce := dashForce t; camera :=
     camera t; cameraOffset := cameraOffset t; euler := euler t; mouseX :=
     mouseX t; mouseY := mouseY t; allObjects := allObjects t;
     selectedObject := selectedObject t; autopilot := a; multiFrogMode :=
     multiFrogMode t; otherFrogs := otherFrogs t; config := config t;
     sideScrollerMode := sideScrollerMode t; sideScrollerPlayer :=
     sideScrollerPlayer t; sideScrollerCamera := sideScrollerCamera t;
     sideScrollerPlatforms := sideScrollerPlatforms t; sideScrollerFiles :=
     sideScrollerFiles t; sideScrollerInput := sideScrollerInput t;
     currentFolder := currentFolder t |}.

Definition set_multiFrogMode (a : bool) (t : Tank) : Tank :=
  {| frog := frog t; frogPosition := frogPosition t; velocity := velocity t;
     direction := direction t; movement := movement t; swimTime := swimTime
     t; dashCooldown := dashCooldown t; dashForce := dashForce t; camera :=
     camera t; cameraOffset := cameraOffset t; euler := euler t; mouseX :=
     mouseX t; mouseY := mouseY t; allObjects := allObjects t;
     selectedObject := selectedObject t; autopilot := autopilot t;
     multiFrogMode := a; otherFrogs := otherFrogs t; config := config t;
     sideScrollerMode := sideScrollerMode t; sideScrollerPlayer :=
     sideScrollerPlayer t; sideScrollerCamera := sideScrollerCamera t;
     sideScrollerPlatforms := sideScrollerPlatforms t; sideScrollerFiles :=
     sideScrollerFiles t; sideScrollerInput := sideScrollerInput t;
     currentFolder := currentFolder t |}.

Definition set_otherFrogs (a : list FrogData.t) (t : Tank) : Tank :=
  {| frog := frog t; frogPosition := frogPosition t; velocity := velocity t;
     direction := direction t; movement := movement t; swimTime := swimTime
     t; dashCooldown := dashCooldown t; dashForce := dashForce t; camera :=
     camera t; cameraOffset := cameraOffset t; euler := euler t; mouseX :=
     mouseX t; mouseY := mouseY t; allObjects := allObjects t;
     selectedObject := selectedObject t; autopilot := autopilot t;
     multiFrogMode := multiFrogMode t; otherFrogs := a; config := config t;
     sideScrollerMode := sideScrollerMode t; sideScrollerPlayer :=
     sideScrollerPlayer t; sideScrollerCamera := sideScrollerCamera t;
     sideScrollerPlatforms := sideScrollerPlatforms t; sideScrollerFiles :=
     sideScrollerFiles t; sideScrollerInput := sideScrollerInput t;
     currentFolder := currentFolder t |}.

Definition set_sideScrollerMode (a : bool) (t : Tank) : Tank :=
  {| frog := frog t; frogPosition := frogPosition t; velocity := velocity t;
     direction := direction t; movement := movement t; swimTime := swimTime
     t; dashCooldown := dashCooldown t; dashForce := dashForce t; camera :=
     camera t; cameraOffset := cameraOffset t; euler := euler t; mouseX :=
     mouseX t; mouseY := mouseY t; allObjects := allObjects t;
     selectedObject := selectedObject t; autopilot := autopilot t;
     multiFrogMode := multiFrogMode t; otherFrogs := otherFrogs t; config :=
     config t; sideScrollerMode := a; sideScrollerPlayer :=
     sideScrollerPlayer t; sideScrollerCamera := sideScrollerCamera t;
     sideScrollerPlatforms := sideScrollerPlatforms t; sideScrollerFiles :=
     sideScrollerFiles t; sideScrollerInput := sideScrollerInput t;
     currentFolder := currentFolder t |}.

Definition set_sideScrollerPlayer (a : option Player.t) (t : Tank) : Tank :=
  {| frog := frog t; frogPosition := frogPosition t; velocity := velocity t;
     direction := direction t; movement := movement t; swimTime := swimTime
     t; dashCooldown := dashCooldown t; dashForce := dashForce t; camera :=
     camera t; cameraOffset := cameraOffset t; euler := euler t; mouseX :=
     mouseX t; mouseY := mouseY t; allObjects := allObjects t;
     selectedObject := selectedObject t; autopilot := autopilot t;
     multiFrogMode := multiFrogMode t; otherFrogs := otherFrogs t; config :=
     config t; sideScrollerMode := sideScrollerMode t; sideScrollerPlayer :=
     a; sideScrollerCamera := sideScrollerCamera t; sideScrollerPlatforms :=
     sideScrollerPlatforms t; sideScrollerFiles := sideScrollerFiles t;
     sideScrollerInput := sideScrollerInput t; currentFolder :=
     currentFolder t |}.

Definition set_sideScrollerCamera (a : option Vector3) (t : Tank) : Tank :=
  {| frog := frog t; frogPosition := frogPosition t; velocity := velocity t;
     direction := direction t; movement := movement t; swimTime := swimTime
     t; dashCooldown := dashCooldown t; dashForce := dashForce t; camera :=
     camera t; cameraOffset := cameraOffset t; euler := euler t; mouseX :=
     mouseX t; mouseY := mouseY t; allObjects := allObjects t;
     selectedObject := selectedObject t; autopilot := autopilot t;
     multiFrogMode := multiFrogMode t; otherFrogs := otherFrogs t; config :=
     config t; sideScrollerMode := sideScrollerMode t; sideScrollerPlayer :=
     sideScrollerPlayer t; sideScrollerCamera := a; sideScrollerPlatforms :=
     sideScrollerPlatforms t; sideScrollerFiles := sideScrollerFiles t;
     sideScrollerInput := sideScrollerInput t; currentFolder :=
     currentFolder t |}.

Definition set_sideScrollerPlatforms (a : list Platform.t) (t : Tank) : Tank :=
  {| frog := frog t; frogPosition := frogPosition t; velocity := velocity t;
     direction := direction t; movement := movement t; swimTime := swimTime
     t; dashCooldown := dashCooldown t; dashForce := dashForce t; camera :=
     camera t; cameraOffset := cameraOffset t; euler := euler t; mouseX :=
     mouseX t; mouseY := mouseY t; allObjects := allObjects t;
     selectedObject := selectedObject t; autopilot := autopilot t;
     multiFrogMode := multiFrogMode t; otherFrogs := otherFrogs t; config :=
     config t; sideScrollerMode := sideScrollerMode t; sideScrollerPlayer :=
     sideScrollerPlayer t; sideScrollerCamera := sideScrollerCamera t;
     sideScrollerPlatforms := a; sideScrollerFiles := sideScrollerFiles t;
     sideScrollerInput := sideScrollerInput t; currentFolder :=
     currentFolder t |}.

Definition set_sideScrollerFiles (a : list SSFile.t) (t : Tank) : Tank :=
  {| frog := frog t; frogPosition := frogPosition t; velocity := velocity t;
     direction := direction t; movement := movement t; swimTime := swimTime
     t; dashCooldown := dashCooldown t; dashForce := dashForce t; camera :=
     camera t; cameraOffset := cameraOffset t; euler := euler t; mouseX :=
     mouseX t; mouseY := mouseY t; allObjects := allObjects t;
     selectedObject := selectedObject t; autopilot := autopilot t;
     multiFrogMode := multiFrogMode t; otherFrogs := otherFrogs t; config :=
     config t; sideScrollerMode := sideScrollerMode t; sideScrollerPlayer :=
     sideScrollerPlayer t; sideScrollerCamera := sideScrollerCamera t;
     sideScrollerPlatforms := sideScrollerPlatforms t; sideScrollerFiles :=
     a; sideScrollerInput := sideScrollerInput t; currentFolder :=
     currentFolder t |}.

Definition set_sideScrollerInput (a : SSInput.t) (t : Tank) : Tank :=
  {| frog := frog t; frogPosition := frogPosition t; velocity := velocity t;
     direction := direction t; movement := movement t; swimTime := swimTime
     t; dashCooldown := dashCooldown t; dashForce := dashForce t; camera :=
     camera t; cameraOffset := cameraOffset t; euler := euler t; mouseX :=
     mouseX t; mouseY := mouseY t; allObjects := allObjects t;
     selectedObject := selectedObject t; autopilot := autopilot t;
     multiFrogMode := multiFrogMode t; otherFrogs := otherFrogs t; config :=
     config t; sideScrollerMode := sideScrollerMode t; sideScrollerPlayer :=
     sideScrollerPlayer t; sideScrollerCamera := sideScrollerCamera t;
     sideScrollerPlatforms := sideScrollerPlatforms t; sideScrollerFiles :=
     sideScrollerFiles t; sideScrollerInput := a; currentFolder :=
     currentFolder t |}.

Definition set_currentFolder (a : option nat) (t : Tank) : Tank :=
  {| frog := frog t; frogPosition := frogPosition t; velocity := velocity t;
     direction := direction t; movement := movement t; swimTime := swimTime
     t; dashCooldown := dashCooldown t; dashForce := dashForce t; camera :=
     camera t; cameraOffset := cameraOffset t; euler := euler t; mouseX :=
     mouseX t; mouseY := mouseY t; allObjects := allObjects t;
     selectedObject := selectedObject t; autopilot := autopilot t;
     multiFrogMode := multiFrogMode t; otherFrogs := otherFrogs t; config :=
     config t; sideScrollerMode := sideScrollerMode t; sideScrollerPlayer :=
     sideScrollerPlayer t; sideScrollerCamera := sideScrollerCamera t;
     sideScrollerPlatforms := sideScrollerPlatforms t; sideScrollerFiles :=
     sideScrollerFiles t; sideScrollerInput := sideScrollerInput t;
     currentFolder := a |}.
(** ** frog.js: the avatar *)

(** The wrap of an angular difference that [updateMovement] and
    [updateAutopilot] write out in place:
    [if (Math.abs(diff) > Math.PI) diff = diff > 0 ? diff - 2π : diff + 2π]. *)
Definition wrapDiff (diff : R) : R :=
  if gtb (Rabs diff) PI
  then (if gtb diff 0 then diff - 2 * PI else diff + 2 * PI)
  else diff.

(** The raw intent vector built from the four horizontal flags, before it
    is normalized ([tank.direction] in [updateMovement], [dashDirection] in
    [performDash]). *)
Definition intentVector (m : Movement.t) : Vector3 :=
  let z1 := if Movement.forward m then 0 - 1 else 0 in
  let z2 := if Movement.backward m then z1 + 1 else z1 in
  let x1 := if Movement.left m then 0 - 1 else 0 in
  let x2 := if Movement.right m then x1 + 1 else x1 in
  vec3 x2 0 z2.

(** The three clamps at the end of the integration step. *)
Definition clampToTank (cfg : Config.t) (p : Vector3) : Vector3 :=
  vec3 (Rmax (- Config.width cfg) (Rmin (Config.width cfg) (vx p)))
       (Rmax (Config.floorY cfg) (Rmin (Config.ceilingY cfg) (vy p)))
       (Rmax (- Config.width cfg) (Rmin (Config.width cfg) (vz p))).

(** The velocity after friction, steering force and vertical intent. *)
Definition movementVelocity (t : Tank) (delta : R) : Vector3 :=
  let m := movement t in
  let cfg := config t in
  let v0 := velocity t in
  let v1 :=
    if Movement.hasHorizontalInput m then
      vec3 (vx v0 - vx v0 * Config.friction cfg * delta * 0.2)
           (vy v0)
           (vz v0 - vz v0 * Config.friction cfg * delta * 0.2)
    else
      let decelerationRate := Config.friction cfg * 0.6 in
      let x1 := vx v0 - vx v0 * decelerationRate * delta in
      let z1 := vz v0 - vz v0 * decelerationRate * delta in
      let underwaterResistance := 0.3 in
      vec3 (x1 - x1 * underwaterResistance * delta)
           (vy v0)
           (z1 - z1 * underwaterResistance * delta) in
  let v2 := V3.set_y v1 (vy v1 - vy v1 * (Config.friction cfg * 0.5) * delta) in
  let dir := V3.normalize (intentVector m) in
  let v3 :=
    if Movement.hasHorizontalInput m then
      let moveVector := V3.applyQuaternion dir (Camera.quaternion (camera t)) in
      V3.add v2 (V3.multiplyScalar moveVector (Config.speed cfg * delta))
    else v2 in
  let v4 := if Movement.up m
            then V3.set_y v3 (vy v3 + Config.verticalSpeed cfg * delta) else v3 in
  if Movement.down m
  then V3.set_y v4 (vy v4 - Config.verticalSpeed cfg * delta) else v4.

(** The yaw after the rotation block of [updateMovement]. *)
Definition movementYaw (t : Tank) (v : Vector3) (currentY delta : R) : R :=
  let dir := V3.normalize (intentVector (movement t)) in
  if Movement.hasHorizontalInput (movement t) then
    let inputDirection := V3.applyQuaternion dir (Camera.quaternion (camera t)) in
    if gtb (V3.length inputDirection) 0.1 then
      let targetRotationY := atan2 (vx inputDirection) (vz inputDirection) in
      let diff := wrapDiff (targetRotationY - currentY) in
      let rotationSpeed := 8.0 in
      currentY + diff * rotationSpeed * delta
    else currentY
  else if gtb (V3.length v) 0.3 then
    let velocityDirection := V3.normalize v in
    let targetRotationY := atan2 (vx velocityDirection) (vz velocityDirection) in
    let diff := wrapDiff (targetRotationY - currentY) in
    let rotationSpeed := 2.0 in
    currentY + diff * rotationSpeed * delta
  else currentY.

Definition updateMovement (t : Tank) (delta : R) : Tank :=
  match frog t with
  | None => t
  | Some fr =>
      let v := movementVelocity t delta in
      let dir := V3.normalize (intentVector (movement t)) in
      let cooldown :=
        if gtb (dashCooldown t) 0 then dashCooldown t - delta
        else dashCooldown t in
      let p := clampToTank (config t)
                 (V3.add (Obj3D.position fr) (V3.multiplyScalar v delta)) in
      let yaw := movementYaw t v (ey (Obj3D.rotation fr)) delta in
      set_frog (Some (Obj3D.set_rotation_y yaw (Obj3D.set_position p fr)))
        (set_frogPosition p
          (set_dashCooldown cooldown
            (set_direction dir (set_velocity v t))))
  end.

Definition realignCamera (t : Tank) : Tank :=
  match frog t with
  | None => t
  | Some fr =>
      let forward := V3.applyQuaternion (vec3 0 0 1) (Obj3D.quaternion fr) in
      let cameraDistance := 10 in
      let cameraHeight := 5 in
      set_mouseY 0 (set_mouseX 0 (set_euler (euler3 0 0 0)
        (set_cameraOffset
           (vec3 (- vx forward * cameraDistance)
                 cameraHeight
                 (- vz forward * cameraDistance)) t)))
  end.

(** Truthiness of a nullable reference. *)
Definition truthy {A : Type} (o : option A) : bool :=
  match o with Some _ => true | None => false end.

(** A held reference to a world object, resolved in the current list. *)
Definition objectAt (t : Tank) (ref : option nat) : option WorldObject.t :=
  match ref with
  | Some i => allObjects t !! i
  | None => None
  end.

(** The paired list a [forEach((item, index) => ...)] walks. *)
Definition indexed {A : Type} (l : list A) : list (nat * A) := imap pair l.

(** The indices of the world objects strictly between 8 and 50 units from
    the avatar: the [filter] of [updateAutopilot]. *)
Definition autopilotCandidates (t : Tank) (fr : Obj3D.t) : list nat :=
  map fst
    (filter (fun io : nat * WorldObject.t =>
               let dist := V3.distanceTo (Obj3D.position fr)
                             (WorldObject.position (snd io)) in
               Is_true (gtb dist 8 && ltb dist 50))
            (indexed (allObjects t))).

(** The state record the first unguarded tick creates. *)
Definition initialAutopilot (now : R) : Autopilot.t :=
  {| Autopilot.active := false;
     Autopilot.lastInputTime := now;
     Autopilot.targetObject := None;
     Autopilot.idleTimeout := 5000;
     Autopilot.cameraRealignInterval := 8000;
     Autopilot.lastCameraRealign := now;
     Autopilot.speed := 0.3 |}.

Definition updateAutopilot (t : Tank) (env : Env.t) : Tank :=
  let delta := Env.delta env in
  let now := Env.now env in
  match frog t with
  | None => t
  | Some fr =>
    if Nat.eqb (length (allObjects t)) 0 then t else
    let ap := match autopilot t with
              | Some a => a
              | None => initialAutopilot now
              end in
    let timeSinceInput := now - Autopilot.lastInputTime ap in
    if Movement.hasInput (movement t) then
      set_autopilot
        (Some {| Autopilot.active := false;
                 Autopilot.lastInputTime := now;
                 Autopilot.targetObject := None;
                 Autopilot.idleTimeout := Autopilot.idleTimeout ap;
                 Autopilot.cameraRealignInterval := Autopilot.cameraRealignInterval ap;
                 Autopilot.lastCameraRealign := Autopilot.lastCameraRealign ap;
                 Autopilot.speed := Autopilot.speed ap |}) t
    else if gtb timeSinceInput (Autopilot.idleTimeout ap) then
      (* pick a target if there is none or it has been reached *)
      let reached :=
        match objectAt t (Autopilot.targetObject ap) with
        | None => true
        | Some o => ltb (V3.distanceTo (Obj3D.position fr) (WorldObject.position o)) 5
        end in
      let candidates := autopilotCandidates t fr in
      let targetObject :=
        if reached && Nat.ltb 0 (length candidates)
        then candidates !! floorIndex (Env.random env * INR (length candidates))
        else Autopilot.targetObject ap in
      (* swim towards it *)
      let '(v, yaw) :=
        match objectAt t targetObject with
        | Some o =>
            let target := WorldObject.position o in
            let direction := V3.normalize (V3.sub target (Obj3D.position fr)) in
            (* multiplyScalar scales [direction] in place: the angle below
               is taken from the scaled vector *)
            let force := V3.multiplyScalar direction (Autopilot.speed ap * delta) in
            let v1 := V3.add (velocity t) force in
            let targetRotationY := atan2 (vx force) (vz force) in
            let diff := wrapDiff (targetRotationY - ey (Obj3D.rotation fr)) in
            let yDiff := vy target - vy (Obj3D.position fr) in
            (V3.set_y v1 (vy v1 + yDiff * 0.1 * delta),
             ey (Obj3D.rotation fr) + diff * 2.0 * delta)
        | None => (velocity t, ey (Obj3D.rotation fr))
        end in
      let realign :=
        gtb (now - Autopilot.lastCameraRealign ap) (Autopilot.cameraRealignInterval ap) in
      let t1 := set_frog (Some (Obj3D.set_rotation_y yaw fr)) (set_velocity v t) in
      let t2 := if realign then realignCamera t1 else t1 in
      set_swimTime (swimTime t + delta * 0.5)
        (set_autopilot
          (Some {| Autopilot.active := true;
                   Autopilot.lastInputTime := Autopilot.lastInputTime ap;
                   Autopilot.targetObject := targetObject;
                   Autopilot.idleTimeout := Autopilot.idleTimeout ap;
                   Autopilot.cameraRealignInterval := Autopilot.cameraRealignInterval ap;
                   Autopilot.lastCameraRealign :=
                     if realign then now else Autopilot.lastCameraRealign ap;
                   Autopilot.speed := Autopilot.speed ap |}) t2)
    else set_autopilot (Some ap) t
  end.

Definition updateFrogAnimation (t : Tank) (delta : R) : Tank :=
  match frog t with
  | None => t
  | Some fr =>
      let isMoving := Movement.hasInput (movement t) in
      let time := if isMoving then swimTime t + delta else swimTime t in
      let bob :=
        if isMoving then
          let bobSpeed := Config.strokeSpeed (config t) * 2 in
          let bobAmplitude := 0.05 in
          sin (time * bobSpeed) * bobAmplitude * delta
        else
          let floatSpeed := Config.floatSpeed (config t) in
          let floatAmplitude := 0.02 in
          sin (time * floatSpeed) * floatAmplitude * delta in
      let p := V3.set_y (Obj3D.position fr) (vy (Obj3D.position fr) + bob) in
      set_frogPosition p
        (set_frog (Some (Obj3D.set_position p fr)) (set_swimTime time t))
  end.

Definition dashDirection (t : Tank) (fr : Obj3D.t) : Vector3 :=
  if Movement.hasHorizontalInput (movement t)
  then V3.applyQuaternion (V3.normalize (intentVector (movement t)))
         (Camera.quaternion (camera t))
  else V3.applyQuaternion (vec3 0 0 1) (Obj3D.quaternion fr).

Definition performDash (t : Tank) : Tank :=
  match frog t with
  | None => t
  | Some fr =>
      if gtb (dashCooldown t) 0 then t else
      set_dashCooldown 0.5
        (set_velocity
           (V3.add (velocity t)
              (V3.multiplyScalar (dashDirection t fr) (dashForce t))) t)
  end.

(** ** frog.js: the sub-agents

    A sub-agent is addressed by its index [i] in [tank.otherFrogs]; the
    test [otherFrog === frogData] of the source is the test [j = i]. *)

Definition checkMinimumSeparation (t : Tank) (i : nat) (fd : FrogData.t) : bool :=
  ltb (V3.distanceTo (FrogData.position fd) (frogPosition t)) (FrogData.minSeparation fd)
  || existsb
       (fun jo : nat * FrogData.t =>
          negb (Nat.eqb (fst jo) i)
          && ltb (V3.distanceTo (FrogData.position fd) (FrogData.position (snd jo)))
                 (FrogData.minSeparation fd))
       (indexed (otherFrogs t)).

Definition wouldCauseOverlap (t : Tank) (i : nat) (fd : FrogData.t)
    (newPosition : Vector3) : bool :=
  let minDistance := FrogData.minSeparation fd in
  ltb (V3.distanceTo newPosition (frogPosition t)) minDistance
  || existsb
       (fun jo : nat * FrogData.t =>
          negb (Nat.eqb (fst jo) i)
          && ltb (V3.distanceTo newPosition (FrogData.position (snd jo))) minDistance)
       (indexed (otherFrogs t)).

Definition calculateSeek (fd : FrogData.t) (targetPosition : Vector3) : Vector3 :=
  let desired :=
    V3.multiplyScalar
      (V3.normalize (V3.sub targetPosition (FrogData.position fd)))
      (FrogData.speed fd) in
  V3.clampLength (V3.sub desired (FrogData.velocity fd)) 0 (FrogData.maxForce fd).

(** One neighbour of the separation sum: the running [steer] and [count]
    after looking at an entity at [other]. *)
Definition repel (fd : FrogData.t) (acc : Vector3 * nat) (other : Vector3)
    : Vector3 * nat :=
  let distance := V3.distanceTo (FrogData.position fd) other in
  if ltb distance (FrogData.separationRadius fd) && gtb distance 0.01 then
    let repulsionStrength := 1.0 - distance / FrogData.separationRadius fd in
    let diff :=
      V3.multiplyScalar (V3.normalize (V3.sub (FrogData.position fd) other))
        repulsionStrength in
    (V3.add (fst acc) diff, S (snd acc))
  else acc.

Definition calculateSeparation (t : Tank) (i : nat) (fd : FrogData.t) : Vector3 :=
  let acc0 := repel fd (V3.zero, 0%nat) (frogPosition t) in
  let acc :=
    fold_left
      (fun acc (jo : nat * FrogData.t) =>
         if Nat.eqb (fst jo) i then acc
         else repel fd acc (FrogData.position (snd jo)))
      (indexed (otherFrogs t)) acc0 in
  let steer := fst acc in
  let count := snd acc in
  if Nat.ltb 0 count then
    let steer1 := V3.divideScalar steer (INR count) in
    if gtb (V3.length steer1) 0 then
      V3.clampLength
        (V3.sub (V3.multiplyScalar (V3.normalize steer1) (FrogData.speed fd * 0.5))
                (FrogData.velocity fd))
        0 (FrogData.maxForce fd)
    else steer1
  else steer.

(** The acceleration [updateFrogMovement] accumulates from the steering
    forces, before it is scaled by [delta]. *)
Definition steeringAcceleration (t : Tank) (i : nat) (fd : FrogData.t)
    (targetPosition : Vector3) : Vector3 :=
  let tooClose := checkMinimumSeparation t i fd in
  if tooClose then
    let separationForce := V3.multiplyScalar (calculateSeparation t i fd) 1.5 in
    V3.add V3.zero separationForce
  else
    let seekForce := V3.multiplyScalar (calculateSeek fd targetPosition) 1.0 in
    let separationForce := V3.multiplyScalar (calculateSeparation t i fd) 0.8 in
    V3.add (V3.add V3.zero seekForce) separationForce.

(** [updateFrogMovement]: the new record of sub-agent [i].
    [acceleration.multiplyScalar(delta)] scales the field in place, so the
    stored acceleration is the scaled one. *)
Definition updateFrogMovement (t : Tank) (i : nat) (fd : FrogData.t)
    (delta : R) : FrogData.t :=
  match objectAt t (FrogData.target fd) with
  | None => fd
  | Some tgt =>
      let acceleration :=
        V3.multiplyScalar
          (steeringAcceleration t i fd (WorldObject.position tgt)) delta in
      let v1 := V3.add (FrogData.velocity fd) acceleration in
      let v2 := if gtb (V3.length v1) (FrogData.speed fd)
                then V3.multiplyScalar (V3.normalize v1) (FrogData.speed fd)
                else v1 in
      let displacement := V3.multiplyScalar v2 delta in
      let newPosition := V3.add (FrogData.position fd) displacement in
      let overlap := wouldCauseOverlap t i fd newPosition in
      let position := if overlap then FrogData.position fd else newPosition in
      let v3 := if overlap then V3.multiplyScalar v2 0.5 else v2 in
      let distanceToTarget := V3.distanceTo position (WorldObject.position tgt) in
      if ltb distanceToTarget 5.0 then
        {| FrogData.position := position;
           FrogData.velocity := vec3 0 0 0;
           FrogData.acceleration := acceleration;
           FrogData.target := None;
           FrogData.speed := FrogData.speed fd;
           FrogData.maxForce := FrogData.maxForce fd;
           FrogData.separationRadius := FrogData.separationRadius fd;
           FrogData.minSeparation := FrogData.minSeparation fd;
           FrogData.isMoving := false;
           FrogData.meshRotationY := FrogData.meshRotationY fd |}
      else
        {| FrogData.position := position;
           FrogData.velocity := v3;
           FrogData.acceleration := acceleration;
           FrogData.target := FrogData.target fd;
           FrogData.speed := FrogData.speed fd;
           FrogData.maxForce := FrogData.maxForce fd;
           FrogData.separationRadius := FrogData.separationRadius fd;
           FrogData.minSeparation := FrogData.minSeparation fd;
           FrogData.isMoving := FrogData.isMoving fd;
           FrogData.meshRotationY :=
             if gtb (V3.length v3) 0.1 then atan2 (vx v3) (vz v3)
             else FrogData.meshRotationY fd |}
  end.

(** The body of the [forEach] of [updateAdditionalFrogs] for index [i]. *)
Definition updateFrogAt (delta : R) (t : Tank) (i : nat) : Tank :=
  match otherFrogs t !! i with
  | None => t
  | Some fd =>
      if truthy (FrogData.target fd) && FrogData.isMoving fd
      then set_otherFrogs (<[i := updateFrogMovement t i fd delta]> (otherFrogs t)) t
      else t
  end.

Definition updateAdditionalFrogs (t : Tank) (delta : R) : Tank :=
  if negb (multiFrogMode t) then t
  else fold_left (updateFrogAt delta) (seq 0 (length (otherFrogs t))) t.

Definition makeFrogsSwimToFolder (t : Tank) (folder : nat) : Tank :=
  if negb (multiFrogMode t) then t
  else
    set_otherFrogs
      (map (fun fd : FrogData.t =>
              {| FrogData.position := FrogData.position fd;
                 FrogData.velocity := FrogData.velocity fd;
                 FrogData.acceleration := FrogData.acceleration fd;
                 FrogData.target := Some folder;
                 FrogData.speed := FrogData.speed fd;
                 FrogData.maxForce := FrogData.maxForce fd;
                 FrogData.separationRadius := FrogData.separationRadius fd;
                 FrogData.minSeparation := FrogData.minSeparation fd;
                 FrogData.isMoving := true;
                 FrogData.meshRotationY := FrogData.meshRotationY fd |})
           (otherFrogs t)) t.

(** ** objects.js and scene.js: collisions and the drifting world objects *)

Definition checkCollisions (t : Tank) : Tank :=
  match frog t with
  | None => t
  | Some fr =>
      let frogPosition := Obj3D.position fr in
      let collisionDistance := Config.collisionDistance (config t) in
      set_velocity
        (fold_left
           (fun (v : Vector3) (o : WorldObject.t) =>
              let distance := V3.distanceTo frogPosition (WorldObject.position o) in
              if ltb distance collisionDistance && gtb distance 0.1 then
                let pushStrength := (collisionDistance - distance) / collisionDistance in
                let maxPushForce := 0.05 in
                let pushForce := pushStrength * maxPushForce in
                let pushDirection :=
                  V3.multiplyScalar
                    (V3.normalize (V3.sub frogPosition (WorldObject.position o)))
                    pushForce in
                V3.multiplyScalar (V3.add v pushDirection) 0.99
              else v)
           (allObjects t) (velocity t)) t
  end.

(** The part of [updateEnvironment] that writes to the world objects. *)
Definition updateEnvironment (t : Tank) : Tank :=
  let tankWidth := Config.width (config t) in
  let tankFloorY := Config.floorY (config t) in
  let tankCeilingY := Config.ceilingY (config t) in
  set_allObjects
    (imap
       (fun (index : nat) (o : WorldObject.t) =>
          let p := WorldObject.position o in
          let y1 := vy p + sin (swimTime t + INR index) * 0.01 in
          {| WorldObject.position :=
               vec3 (Rmax (- tankWidth) (Rmin tankWidth (vx p)))
                    (Rmax (tankFloorY + 2) (Rmin (tankCeilingY - 2) y1))
                    (Rmax (- tankWidth) (Rmin tankWidth (vz p)));
             WorldObject.rotationY :=
               WorldObject.rotationY o + (0.001 + INR index * 0.0002);
             WorldObject.type := WorldObject.type o |})
       (allObjects t)) t.

(** ** sidescroller.js *)

Module CONFIG.
Definition gravity : R := -30.
Definition jumpForce : R := 12.
Definition moveSpeed : R := 8.
Definition groundY : R := -5.
Definition worldWidth : R := 100.
Definition platformHeight : R := 0.5.
Definition cameraDistance : R := 20.
Definition cameraHeight : R := 5.
Definition playerWidth : R := 1.
End CONFIG.

(** The player object literal of [enterSideScrollerMode]. *)
Definition initialPlayer : Player.t :=
  {| Player.position := vec3 0 CONFIG.groundY 0;
     Player.velocity := vec3 0 0 0;
     Player.isGrounded := true;
     Player.jumpCount := 0;
     Player.maxJumps := 2;
     Player.jumpPressed := false;
     Player.droppingThrough := false;
     Player.isOnGround := false;
     Player.meshRotationY := 0 |}.

(** The ground slab and the ten platforms of [createSideScrollerEnvironment]
    and [createPlatforms]; [width i] is the random width drawn for the
    [i]-th platform. *)
Definition platformPositions : list (R * R) :=
  [(-35, 1); (-25, 3); (-15, 0); (-5, 4); (8, 1);
   (18, 5); (28, 2); (38, 4); (48, 1); (-45, 3)].

Definition createPlatforms (width : nat -> R) : list Platform.t :=
  {| Platform.position := vec3 0 (CONFIG.groundY - 1) 0;
     Platform.isGround := true;
     Platform.userWidth := None;
     Platform.geometryWidth := CONFIG.worldWidth |}
  :: imap (fun (i : nat) (pos : R * R) =>
             {| Platform.position := vec3 (fst pos) (CONFIG.groundY + snd pos + 3) 0;
                Platform.isGround := false;
                Platform.userWidth := Some (width i);
                Platform.geometryWidth := width i |})
          platformPositions.

(** [enterSideScrollerMode]; the platform widths and the placed files come
    from the scene construction, which is not modelled. *)
Definition enterSideScrollerMode (t : Tank) (folder : nat)
    (width : nat -> R) (files : list SSFile.t) : Tank :=
  set_sideScrollerFiles files
    (set_sideScrollerPlatforms (createPlatforms width)
      (set_sideScrollerPlayer (Some initialPlayer)
        (set_sideScrollerCamera
           (Some (vec3 0 CONFIG.cameraHeight CONFIG.cameraDistance))
           (set_currentFolder (Some folder)
             (set_sideScrollerMode true t))))).

Definition exitSideScrollerMode (t : Tank) : Tank :=
  set_sideScrollerFiles []
    (set_sideScrollerPlatforms []
      (set_sideScrollerPlayer None
        (set_sideScrollerCamera None
          (set_currentFolder None
            (set_sideScrollerMode false t))))).

(** The blocks of [updateSideScroller], in source order, on the player. *)

Definition horizontalMove (input : SSInput.t) (p : Player.t) : Player.t :=
  let x1 := if SSInput.left input then - CONFIG.moveSpeed else 0 in
  let x2 := if SSInput.right input then CONFIG.moveSpeed else x1 in
  {| Player.position := Player.position p;
     Player.velocity := V3.set_x (Player.velocity p) x2;
     Player.isGrounded := Player.isGrounded p;
     Player.jumpCount := Player.jumpCount p;
     Player.maxJumps := Player.maxJumps p;
     Player.jumpPressed := Player.jumpPressed p;
     Player.droppingThrough := Player.droppingThrough p;
     Player.isOnGround := Player.isOnGround p;
     Player.meshRotationY := Player.meshRotationY p |}.

(** The condition of the jump block. *)
Definition jumpTriggered (input : SSInput.t) (p : Player.t) : bool :=
  SSInput.jump input && negb (Player.jumpPressed p) && negb (SSInput.down input)
  && Nat.ltb (Player.jumpCount p) (Player.maxJumps p).

Definition jumpBlock (input : SSInput.t) (p : Player.t) : Player.t :=
  if jumpTriggered input p then
    {| Player.position := Player.position p;
       Player.velocity := V3.set_y (Player.velocity p) CONFIG.jumpForce;
       Player.isGrounded := false;
       Player.jumpCount := S (Player.jumpCount p);
       Player.maxJumps := Player.maxJumps p;
       Player.jumpPressed := true;
       Player.droppingThrough := Player.droppingThrough p;
       Player.isOnGround := Player.isOnGround p;
       Player.meshRotationY := Player.meshRotationY p |}
  else p.

Definition releaseBlock (input : SSInput.t) (p : Player.t) : Player.t :=
  if negb (SSInput.jump input) then
    {| Player.position := Player.position p;
       Player.velocity := Player.velocity p;
       Player.isGrounded := Player.isGrounded p;
       Player.jumpCount := Player.jumpCount p;
       Player.maxJumps := Player.maxJumps p;
       Player.jumpPressed := false;
       Player.droppingThrough := Player.droppingThrough p;
       Player.isOnGround := Player.isOnGround p;
       Player.meshRotationY := Player.meshRotationY p |}
  else p.

Definition dropBlock (input : SSInput.t) (p : Player.t) : Player.t :=
  let p1 :=
    if SSInput.down input && Player.isGrounded p && negb (Player.isOnGround p) then
      {| Player.position :=
           V3.set_y (Player.position p) (vy (Player.position p) - 0.5);
         Player.velocity := Player.velocity p;
         Player.isGrounded := false;
         Player.jumpCount := Player.jumpCount p;
         Player.maxJumps := Player.maxJumps p;
         Player.jumpPressed := Player.jumpPressed p;
         Player.droppingThrough := true;
         Player.isOnGround := Player.isOnGround p;
         Player.meshRotationY := Player.meshRotationY p |}
    else p in
  if negb (SSInput.down input) then
    {| Player.position := Player.position p1;
       Player.velocity := Player.velocity p1;
       Player.isGrounded := Player.isGrounded p1;
       Player.jumpCount := Player.jumpCount p1;
       Player.maxJumps := Player.maxJumps p1;
       Player.jumpPressed := Player.jumpPressed p1;
       Player.droppingThrough := false;
       Player.isOnGround := Player.isOnGround p1;
       Player.meshRotationY := Player.meshRotationY p1 |}
  else p1.

Definition gravityBlock (delta : R) (p : Player.t) : Player.t :=
  let v := if negb (Player.isGrounded p)
           then V3.set_y (Player.velocity p)
                  (vy (Player.velocity p) + CONFIG.gravity * delta)
           else Player.velocity p in
  {| Player.position := V3.add (Player.position p) (V3.multiplyScalar v delta);
     Player.velocity := v;
     Player.isGrounded := Player.isGrounded p;
     Player.jumpCount := Player.jumpCount p;
     Player.maxJumps := Player.maxJumps p;
     Player.jumpPressed := Player.jumpPressed p;
     Player.droppingThrough := Player.droppingThrough p;
     Player.isOnGround := Player.isOnGround p;
     Player.meshRotationY := Player.meshRotationY p |}.

(** [platform.userData.width || platform.geometry.parameters.width] *)
Definition platWidth (pl : Platform.t) : R :=
  match Platform.userWidth pl with
  | Some w => if eqb0 w then Platform.geometryWidth pl else w
  | None => Platform.geometryWidth pl
  end.

(** Landing on one platform.  [playerBottom], [playerLeft] and
    [playerRight] are taken once, before the loop. *)
Definition landOn (playerBottom playerLeft playerRight : R)
    (p : Player.t) (pl : Platform.t) : Player.t :=
  if Platform.isGround pl then p else
  let platTop := vy (Platform.position pl) + CONFIG.platformHeight / 2 in
  let platLeft := vx (Platform.position pl) - platWidth pl / 2 in
  let platRight := vx (Platform.position pl) + platWidth pl / 2 in
  if leb (vy (Player.velocity p)) 0
     && gtb playerRight platLeft
     && ltb playerLeft platRight
     && leb playerBottom (platTop + 0.5)
     && geb playerBottom (platTop - 1.5)
  then
    {| Player.position := V3.set_y (Player.position p) platTop;
       Player.velocity := V3.set_y (Player.velocity p) 0;
       Player.isGrounded := true;
       Player.jumpCount := 0;
       Player.maxJumps := Player.maxJumps p;
       Player.jumpPressed := Player.jumpPressed p;
       Player.droppingThrough := Player.droppingThrough p;
       Player.isOnGround := Player.isOnGround p;
       Player.meshRotationY := Player.meshRotationY p |}
  else p.

(** [checkPlatformCollisions], in its three steps: clear the two ground
    flags, try every platform unless dropping through, then the failsafe
    ground. *)
Definition clearGrounded (p : Player.t) : Player.t :=
  {| Player.position := Player.position p;
     Player.velocity := Player.velocity p;
     Player.isGrounded := false;
     Player.jumpCount := Player.jumpCount p;
     Player.maxJumps := Player.maxJumps p;
     Player.jumpPressed := Player.jumpPressed p;
     Player.droppingThrough := Player.droppingThrough p;
     Player.isOnGround := false;
     Player.meshRotationY := Player.meshRotationY p |}.

Definition landOnPlatforms (platforms : list Platform.t) (p : Player.t)
    : Player.t :=
  let playerBottom := vy (Player.position p) in
  let playerLeft := vx (Player.position p) - CONFIG.playerWidth / 2 in
  let playerRight := vx (Player.position p) + CONFIG.playerWidth / 2 in
  if negb (Player.droppingThrough p)
  then fold_left (landOn playerBottom playerLeft playerRight) platforms p
  else p.

Definition groundCollision (p : Player.t) : Player.t :=
  if ltb (vy (Player.position p)) CONFIG.groundY then
    {| Player.position := V3.set_y (Player.position p) CONFIG.groundY;
       Player.velocity := V3.set_y (Player.velocity p) 0;
       Player.isGrounded := true;
       Player.jumpCount := 0;
       Player.maxJumps := Player.maxJumps p;
       Player.jumpPressed := Player.jumpPressed p;
       Player.droppingThrough := Player.droppingThrough p;
       Player.isOnGround := true;
       Player.meshRotationY := Player.meshRotationY p |}
  else p.

Definition checkPlatformCollisions (platforms : list Platform.t)
    (p : Player.t) : Player.t :=
  groundCollision (landOnPlatforms platforms (clearGrounded p)).

Definition faceBlock (p : Player.t) : Player.t :=
  {| Player.position := Player.position p;
     Player.velocity := Player.velocity p;
     Player.isGrounded := Player.isGrounded p;
     Player.jumpCount := Player.jumpCount p;
     Player.maxJumps := Player.maxJumps p;
     Player.jumpPressed := Player.jumpPressed p;
     Player.droppingThrough := Player.droppingThrough p;
     Player.isOnGround := Player.isOnGround p;
     Player.meshRotationY :=
       if gtb (vx (Player.velocity p)) 0.1 then PI / 2
       else if ltb (vx (Player.velocity p)) (-0.1) then - PI / 2
       else Player.meshRotationY p |}.

(** The player after one tick: the blocks in order. *)
Definition stepPlayer (platforms : list Platform.t) (input : SSInput.t)
    (delta : R) (p : Player.t) : Player.t :=
  faceBlock
    (checkPlatformCollisions platforms
      (gravityBlock delta
        (dropBlock input
          (releaseBlock input
            (jumpBlock input
              (horizontalMove input p)))))).

Definition updateSideScrollerCamera (p : Player.t) (cam : Vector3) : Vector3 :=
  let targetX := vx (Player.position p) in
  let x := vx cam + (targetX - vx cam) * 0.1 in
  let targetY := Rmax (vy (Player.position p) + 2) CONFIG.cameraHeight in
  vec3 x (vy cam + (targetY - vy cam) * 0.05) (vz cam).

Definition animateFiles (now : R) (files : list SSFile.t) : list SSFile.t :=
  let time := now * 0.002 in
  imap
    (fun (i : nat) (file : SSFile.t) =>
       let baseY :=
         match SSFile.baseY file with
         | Some b => if eqb0 b then vy (SSFile.position file) else b
         | None => vy (SSFile.position file)
         end in
       let baseRotY :=
         match SSFile.baseRotY file with
         | Some r => r
         | None => SSFile.rotationY file
         end in
       {| SSFile.position :=
            V3.set_y (SSFile.position file) (baseY + sin (time + INR i) * 0.15);
          SSFile.rotationY := baseRotY + sin (time * 0.8 + INR i * 0.5) * 0.3;
          SSFile.baseY := Some baseY;
          SSFile.baseRotY := Some baseRotY |})
    files.

(** [updateSideScroller].  Reading a field of a null player or camera
    throws; the frame then ends with the tank as it was at the throw.
    [animateClouds] and [highlightNearestFile] write to scene nodes and to
    the DOM only. *)
Definition updateSideScroller (t : Tank) (env : Env.t) : Tank :=
  if negb (sideScrollerMode t) then t else
  match sideScrollerPlayer t with
  | None => t
  | Some player =>
      let player' :=
        stepPlayer (sideScrollerPlatforms t) (sideScrollerInput t)
          (Env.delta env) player in
      let t1 := set_sideScrollerPlayer (Some player') t in
      match sideScrollerCamera t1 with
      | None => t1
      | Some cam =>
          set_sideScrollerFiles
            (animateFiles (Env.now env) (sideScrollerFiles t1))
            (set_sideScrollerCamera
               (Some (updateSideScrollerCamera player' cam)) t1)
      end
  end.

(** ** Camera follow, selection and the frame, over the camera methods *)

Section WithCamera.
Context {ops : CameraOps}.

Definition updateCameraPosition (t : Tank) : Tank :=
  match frog t with
  | None => t
  | Some fr =>
      let targetPosition := V3.add (Obj3D.position fr) (cameraOffset t) in
      let moved :=
        Camera.set_position
          (V3.lerp (Camera.position (camera t)) targetPosition 0.1) (camera t) in
      let lookTarget :=
        V3.set_y (Obj3D.position fr) (vy (Obj3D.position fr) + 4) in
      set_camera (lookAt moved lookTarget) t
  end.

(** The three early returns of the selection loop. *)
Definition passesGates (t : Tank) (fr : Obj3D.t) (o : WorldObject.t) : bool :=
  let frogPosition := Obj3D.position fr in
  let selectionDistance := Config.selectionDistance (config t) in
  let distance := V3.distanceTo frogPosition (WorldObject.position o) in
  let objectScreenPos := project (camera t) (WorldObject.position o) in
  let heightDifference := vy (WorldObject.position o) - vy frogPosition in
  negb (gtb distance selectionDistance)
  && negb (gtb (vz objectScreenPos) 1)
  && negb (ltb heightDifference (-2.0)).

Definition distanceScore (t : Tank) (fr : Obj3D.t) (o : WorldObject.t) : R :=
  let selectionDistance := Config.selectionDistance (config t) in
  let distance := V3.distanceTo (Obj3D.position fr) (WorldObject.position o) in
  (selectionDistance - distance) / selectionDistance.

(** [Math.max(0, dotProduct / distance)].  At distance 0 the vector from the
    avatar to the object is the zero vector, the quotient is 0/0, and the
    result is NaN: [None]. *)
Definition frontScore (t : Tank) (fr : Obj3D.t) (o : WorldObject.t) : option R :=
  let distance := V3.distanceTo (Obj3D.position fr) (WorldObject.position o) in
  let cameraDirection := getWorldDirection (camera t) in
  let frogToObject := V3.sub (WorldObject.position o) (Obj3D.position fr) in
  let dotProduct := V3.dot frogToObject cameraDirection in
  if eqb0 distance then None else Some (Rmax 0 (dotProduct / distance)).

Definition heightScore (fr : Obj3D.t) (o : WorldObject.t) : R :=
  let heightDifference := vy (WorldObject.position o) - vy (Obj3D.position fr) in
  if gtb heightDifference 0 then Rmin 1.0 (heightDifference / 5)
  else Rmax (-2.0) (heightDifference / 2).

(** [totalScore]; [None] is NaN. *)
Definition totalScore (t : Tank) (fr : Obj3D.t) (o : WorldObject.t) : option R :=
  match frontScore t fr o with
  | Some front =>
      Some (distanceScore t fr o * 0.2 + front * 0.3 + heightScore fr o * 0.5)
  | None => None
  end.

(** [totalScore > bestScore], where [bestScore = None] is the initial
    [-Infinity] and a NaN score compares false. *)
Definition beats (score : option R) (bestScore : option R) : bool :=
  match score, bestScore with
  | None, _ => false
  | Some _, None => true
  | Some s, Some b => gtb s b
  end.

(** One round of the selection loop on [(bestObject, bestScore)]. *)
Definition selectionStep (t : Tank) (fr : Obj3D.t)
    (best : option nat * option R) (io : nat * WorldObject.t)
    : option nat * option R :=
  if passesGates t fr (snd io) then
    if beats (totalScore t fr (snd io)) (snd best)
    then (Some (fst io), totalScore t fr (snd io))
    else best
  else best.

Definition bestObject (t : Tank) (fr : Obj3D.t) : option nat :=
  fst (fold_left (selectionStep t fr) (indexed (allObjects t)) (None, None)).

Definition updateObjectSelection (t : Tank) : Tank :=
  match frog t with
  | None => t
  | Some fr =>
      let best := bestObject t fr in
      if bool_decide (best = selectedObject t) then t
      else
        let t1 := set_selectedObject best t in
        match best with
        | Some folder => makeFrogsSwimToFolder t1 folder
        | None => t1
        end
  end.

(** *** main.js: the frame *)

(** The update calls of [animate]. *)
Inductive Update :=
| UpdateSideScroller
| UpdateMovement | UpdateAutopilot | UpdateFrogAnimation
| UpdateAdditionalFrogs | UpdateCameraPosition | UpdateBubbleTrail
| UpdateObjectSelection | UpdateEnvironment | UpdateObjectBubbleStreams
| CheckCollisions | CheckObjectVisibility.

(** The calls one frame makes, chosen by the one test of
    [this.sideScrollerMode] at its start. *)
Definition schedule (t : Tank) : list Update :=
  if sideScrollerMode t then [UpdateSideScroller]
  else [UpdateMovement; UpdateAutopilot; UpdateFrogAnimation;
        UpdateAdditionalFrogs; UpdateCameraPosition; UpdateBubbleTrail;
        UpdateObjectSelection; UpdateEnvironment; UpdateObjectBubbleStreams;
        CheckCollisions; CheckObjectVisibility].

(** What a call does to the tank.  [updateBubbleTrail],
    [updateObjectBubbleStreams] and [checkObjectVisibility] write to bubbles
    and to the file-info panel only. *)
Definition runUpdate (env : Env.t) (t : Tank) (u : Update) : Tank :=
  match u with
  | UpdateSideScroller => updateSideScroller t env
  | UpdateMovement => updateMovement t (Env.delta env)
  | UpdateAutopilot => updateAutopilot t env
  | UpdateFrogAnimation => updateFrogAnimation t (Env.delta env)
  | UpdateAdditionalFrogs => updateAdditionalFrogs t (Env.delta env)
  | UpdateCameraPosition => updateCameraPosition t
  | UpdateBubbleTrail => t
  | UpdateObjectSelection => updateObjectSelection t
  | UpdateEnvironment => updateEnvironment t
  | UpdateObjectBubbleStreams => t
  | CheckCollisions => checkCollisions t
  | CheckObjectVisibility => t
  end.

Definition animate (t : Tank) (env : Env.t) : Tank :=
  fold_left (runUpdate env) (schedule t) t.

(** A run of frames. *)
Definition frame (t : Tank) (f : Frame.t) : Tank :=
  animate (set_sideScrollerInput (Frame.input f)
             (set_movement (Frame.movement f) t)) (Frame.env f).

Definition run (t : Tank) (frames : list Frame.t) : Tank :=
  fold_left frame frames t.

End WithCamera.

(** ** Vocabulary of the statements *)

(** The time a run of frames takes: the sum of its deltas. *)
Definition elapsed (frames : list Frame.t) : R :=
  fold_right (fun f acc => Env.delta (Frame.env f) + acc) 0 frames.


(** The open-water simulation state: every field of the tank that belongs
    to the swimming mode (avatar, its motion, dash cooldown, camera rig,
    world objects, selection, autopilot, sub-agents). *)
Definition openWaterState (t : Tank) :=
  (frog t, frogPosition t, velocity t, direction t, swimTime t,
   dashCooldown t, camera t, cameraOffset t, (euler t, mouseX t, mouseY t),
   allObjects t, selectedObject t, autopilot t, multiFrogMode t,
   otherFrogs t).

(** The two per-frame update paths, read off the calls a frame makes. *)
Definition sideScrollerPathRuns (calls : list Update) : Prop :=
  In UpdateSideScroller calls.

Definition openWaterPathRuns (calls : list Update) : Prop :=
  exists u, In u calls /\ u <> UpdateSideScroller.

(** A tick of the side-scroller as the player sees it: the input flags in
    force and the frame's delta. *)
Definition Tick : Type := SSInput.t * R.

Definition tickStep (platforms : list Platform.t) (p : Player.t) (tk : Tick)
    : Player.t :=
  stepPlayer platforms (fst tk) (snd tk) p.

(** The player before tick [n] of a run that starts from [p]. *)
Definition playerBefore (platforms : list Platform.t) (p : Player.t)
    (ticks : list Tick) (n : nat) : Player.t :=
  fold_left (tickStep platforms) (take n ticks) p.





(** Two player records that differ at most in the [jumpPressed] latch. *)
Definition sameButLatch (p q : Player.t) : Prop :=
  Player.position p = Player.position q
  /\ Player.velocity p = Player.velocity q
  /\ Player.isGrounded p = Player.isGrounded q
  /\ Player.jumpCount p = Player.jumpCount q
  /\ Player.maxJumps p = Player.maxJumps q
  /\ Player.droppingThrough p = Player.droppingThrough q
  /\ Player.isOnGround p = Player.isOnGround q
  /\ Player.meshRotationY p = Player.meshRotationY q.

(** Sub-agent [i], standing at [p], is nearer than [m] to the avatar's
    recorded position or to another sub-agent. *)
Definition nearerThan (m : R) (t : Tank) (i : nat) (p : Vector3) : Prop :=
  V3.distanceTo p (frogPosition t) < m
  \/ exists j other, j <> i /\ otherFrogs t !! j = Some other
       /\ V3.distanceTo p (FrogData.position other) < m.

(** Every sub-agent is at least [m] away from the avatar's recorded
    position and from every other sub-agent. *)
Definition separated (m : R) (t : Tank) : Prop :=
  forall i fd, otherFrogs t !! i = Some fd ->
    ~ nearerThan m t i (FrogData.position fd).

(** Where each sub-agent is, with its [minSeparation]. *)
Definition places (t : Tank) : list (Vector3 * R) :=
  map (fun fd => (FrogData.position fd, FrogData.minSeparation fd))
      (otherFrogs t).

(** Any two sub-agents are at least [m] apart. *)
Definition pairwiseSeparated (m : R) (t : Tank) : Prop :=
  forall i j fi fj, i <> j ->
    otherFrogs t !! i = Some fi -> otherFrogs t !! j = Some fj ->
    m <= V3.distanceTo (FrogData.position fi) (FrogData.position fj).

(** [m] is no more than the [minSeparation] of any sub-agent. *)
Definition belowMinSeparation (m : R) (t : Tank) : Prop :=
  Forall (fun fd => m <= FrogData.minSeparation fd) (otherFrogs t).

(** The avatar's recorded position is the avatar's position. *)
Definition avatarSynced (t : Tank) : Prop :=
  forall fr, frog t = Some fr -> frogPosition t = Obj3D.position fr.

(** The first three calls of an open-water frame, which move the avatar:
    [updateMovement], [updateAutopilot], [updateFrogAnimation]. *)
Definition avatarPhase (t : Tank) (env : Env.t) : Tank :=
  updateFrogAnimation
    (updateAutopilot (updateMovement t (Env.delta env)) env) (Env.delta env).

(** The selection score in the words of the specification:
    [0.2 * distanceScore + 0.3 * frontScore + 0.5 * heightScore]. *)
Definition specTotal (selectionDistance distance dotProduct heightDiff : R) : R :=
  let distanceScore := (selectionDistance - distance) / selectionDistance in
  let frontScore := Rmax 0 (dotProduct / distance) in
  let heightScore :=
    if Rlt_dec 0 heightDiff then Rmin 1 (heightDiff / 5)
    else Rmax (-2) (heightDiff / 2) in
  0.2 * distanceScore + 0.3 * frontScore + 0.5 * heightScore.

Section SelectionVocabulary.
Context {ops : CameraOps}.

(** The three gates in the words of the specification. *)
Definition withinGates (t : Tank) (fr : Obj3D.t) (o : WorldObject.t) : Prop :=
  V3.distanceTo (Obj3D.position fr) (WorldObject.position o)
    <= Config.selectionDistance (config t)
  /\ vz (project (camera t) (WorldObject.position o)) <= 1
  /\ -2 <= vy (WorldObject.position o) - vy (Obj3D.position fr).

Definition specScore (t : Tank) (fr : Obj3D.t) (o : WorldObject.t) : R :=
  specTotal (Config.selectionDistance (config t))
    (V3.distanceTo (Obj3D.position fr) (WorldObject.position o))
    (V3.dot (V3.sub (WorldObject.position o) (Obj3D.position fr))
       (getWorldDirection (camera t)))
    (vy (WorldObject.position o) - vy (Obj3D.position fr)).

(** A candidate with a score: within the gates and not at the avatar's own
    position, where the front score is the quotient 0/0. *)
Definition scoredCandidate (t : Tank) (fr : Obj3D.t) (o : WorldObject.t) : Prop :=
  withinGates t fr o
  /\ V3.distanceTo (Obj3D.position fr) (WorldObject.position o) <> 0.

(** The state of the selection loop after a prefix [l] of the list: the
    first best scored candidate of the prefix, or nothing when the prefix
    has none. *)
Definition firstBest (t : Tank) (fr : Obj3D.t) (l : list WorldObject.t)
    (best : option nat * option R) : Prop :=
  match best with
  | (None, None) =>
      forall j o, l !! j = Some o -> ~ scoredCandidate t fr o
  | (Some i, Some s) =>
      (exists o, l !! i = Some o /\ scoredCandidate t fr o /\ s = specScore t fr o)
      /\ forall j o, l !! j = Some o -> scoredCandidate t fr o ->
           specScore t fr o <= s /\ ((j < i)%nat -> specScore t fr o < s)
  | _ => False
  end.

End SelectionVocabulary.

(** ** Scenes used to exercise the statements *)

(** A camera double: it keeps its pose on [lookAt], projects a point to
    itself and looks down the negative z axis. *)
Definition fixedCamera : CameraOps :=
  {| lookAt := fun c _ => c;
     project := fun _ p => p;
     getWorldDirection := fun _ => vec3 0 0 (-1) |}.

(** The tank as the constructor of [SwimmingTank] leaves it: no avatar yet,
    no world objects yet. *)
Definition newTank : Tank :=
  {| frog := None;
     frogPosition := vec3 0 0 0;
     velocity := vec3 0 0 0;
     direction := vec3 0 0 0;
     movement := Movement.none;
     swimTime := 0;
     dashCooldown := 0;
     dashForce := 15.0;
     camera := Camera.mk (vec3 0 3 6) (quat 0 0 0 1);
     cameraOffset := vec3 0 7 6;
     euler := euler3 0 0 0;
     mouseX := 0;
     mouseY := 0;
     allObjects := [];
     selectedObject := None;
     autopilot := None;
     multiFrogMode := false;
     otherFrogs := [];
     config := Config.default;
     sideScrollerMode := false;
     sideScrollerPlayer := None;
     sideScrollerCamera := None;
     sideScrollerPlatforms := [];
     sideScrollerFiles := [];
     sideScrollerInput := SSInput.none;
     currentFolder := None |}.

(** After the load callback of [loadFrogModel]: the avatar stands at
    [frogPosition] with [frogRotation = Euler(0, π, 0)]. *)
Definition loadedTank : Tank :=
  set_frog (Some (Obj3D.mk (vec3 0 0 0) (euler3 0 PI 0))) newTank.


(** A sub-agent as [createAdditionalFrogs] makes it (with the random part
    of its speed at 0), placed at [p]. *)
Definition subAgent (p : Vector3) (target : option nat) (moving : bool)
    : FrogData.t :=
  {| FrogData.position := p;
     FrogData.velocity := vec3 0 0 0;
     FrogData.acceleration := vec3 0 0 0;
     FrogData.target := target;
     FrogData.speed := 3.0;
     FrogData.maxForce := 2.0;
     FrogData.separationRadius := 4.0;
     FrogData.minSeparation := 1.5;
     FrogData.isMoving := moving;
     FrogData.meshRotationY := 0 |}.

(** Flocking on: the avatar at the origin, one folder, and the first
    sub-agent at its spawn point, sent to the folder. *)
Definition flockTank : Tank :=
  set_otherFrogs [subAgent (vec3 18 10 0) (Some 0%nat) true]
    (set_multiFrogMode true
      (set_allObjects [WorldObject.mk (vec3 (-20) 0 (-25)) 0 Folder] loadedTank)).

(** Flocking on before any world object has loaded: the first sub-agent
    idle at its spawn point, the avatar 1.5 units from it and drifting
    towards it at 6 units per second with no key held. *)
Definition driftTank : Tank :=
  set_otherFrogs [subAgent (vec3 18 10 0) None false]
    (set_multiFrogMode true
      (set_velocity (vec3 (-6) 0 0)
        (set_frogPosition (vec3 19.5 10 0)
          (set_frog (Some (Obj3D.mk (vec3 19.5 10 0) (euler3 0 PI 0)))
             newTank)))).

(** The avatar at rest under the ceiling of the tank, no key held, after
    one second of swimming time. *)
Definition ceilingTank : Tank :=
  set_swimTime 1
    (set_frogPosition (vec3 0 15 0)
      (set_frog (Some (Obj3D.mk (vec3 0 15 0) (euler3 0 PI 0))) newTank)).

(** The avatar exactly where a folder floats. *)
Definition overlapTank : Tank :=
  set_allObjects [WorldObject.mk (vec3 0 0 0) 0 Folder] loadedTank.

(** The avatar at the origin with two folders in reach: one level with it,
    two units ahead, and one two units above it. *)
Definition reachTank : Tank :=
  set_allObjects [WorldObject.mk (vec3 0 0 (-2)) 0 Folder;
                  WorldObject.mk (vec3 0 2 0) 0 Folder] loadedTank.

(** ** More vocabulary *)

(** The height a side-scroller file bobs around, as [animateFiles] reads
    it: [file.userData.baseY], or the file's own height when that is
    missing or zero. *)
Definition fileBaseY (f : SSFile.t) : R :=
  match SSFile.baseY f with
  | Some b => if eqb0 b then vy (SSFile.position f) else b
  | None => vy (SSFile.position f)
  end.

(** The rotation it wobbles around: [file.userData.baseRotY], or the
    file's own rotation when that is undefined. *)
Definition fileBaseRotY (f : SSFile.t) : R :=
  match SSFile.baseRotY f with
  | Some r => r
  | None => SSFile.rotationY f
  end.

(** ** frog.js: [resetCamera] *)

(** The offset goes behind the frog, at the horizontal distance and the
    height the camera has now. *)
Definition resetCamera (t : Tank) : Tank :=
  match frog t with
  | None => t
  | Some fr =>
      let currentOffset := V3.sub (Camera.position (camera t)) (Obj3D.position fr) in
      let currentDistance :=
        sqrt (vx currentOffset * vx currentOffset
              + vz currentOffset * vz currentOffset) in
      let currentHeight := vy currentOffset in
      let frogDirection :=
        V3.applyQuaternion (vec3 0 0 1) (Obj3D.quaternion fr) in
      set_cameraOffset
        (V3.set_y (V3.multiplyScalar frogDirection (- currentDistance))
           currentHeight) t
  end.

(** ** frog.js: the sub-agents are created *)

(** The name list of [setupEventListeners] has five entries, and
    [createAdditionalFrogs] starts five loads. *)
Definition spawnPosition (i : nat) : Vector3 :=
  let angle := (INR i / 5) * PI * 2 in
  let radius := 18 + INR i * 6 in
  let x := cos angle * radius in
  let y := 10 + INR i * 3 in
  let z := sin angle * radius in
  vec3 x y z.

(** The load callback of the [i]-th model: it pushes the new record,
    whatever the mode is by then.  [rotationDraw] and [speedDraw] are its
    two draws of [Math.random()]. *)
Definition frogLoaded (i : nat) (rotationDraw speedDraw : R) (t : Tank) : Tank :=
  let frogData :=
    {| FrogData.position := spawnPosition i;
       FrogData.velocity := vec3 0 0 0;
       FrogData.acceleration := vec3 0 0 0;
       FrogData.target := None;
       FrogData.speed := 3.0 + speedDraw * 2.0;
       FrogData.maxForce := 2.0;
       FrogData.separationRadius := 4.0;
       FrogData.minSeparation := 1.5;
       FrogData.isMoving := false;
       FrogData.meshRotationY := rotationDraw * PI * 2 |} in
  set_otherFrogs (otherFrogs t ++ [frogData]) t.

(** [createAdditionalFrogs]: the indices whose load it starts. *)
Definition createAdditionalFrogs (t : Tank) : list nat :=
  if negb (multiFrogMode t) then [] else seq 0 5.

(** [toggleMultiFrogMode]: the tank, and the loads started. *)
Definition toggleMultiFrogMode (t : Tank) : Tank * list nat :=
  let t1 := set_multiFrogMode (negb (multiFrogMode t)) t in
  if multiFrogMode t1 then (t1, createAdditionalFrogs t1)
  else (set_otherFrogs [] t1, []).

(** ** sidescroller.js: the platforms and the files on them *)

(** The width [createPlatforms] draws for a platform. *)
Definition drawnWidth (draw : R) : R := 6 + draw * 4.

(** [placeFilesOnPlatforms], after the models have loaded.  [offsetDraw i a]
    is the draw of [Math.random()] in attempt [a] (from 0) for file [i];
    [rotationDraw i] is the draw for its rotation, made when the model of
    its type has loaded ([loaded i]). *)
Definition usedNear (usedPositions : list (R * R)) (x y : R) : bool :=
  existsb (fun pos : R * R =>
             ltb (Rabs (fst pos - x)) 4 && ltb (Rabs (snd pos - y)) 2)
          usedPositions.

(** The do-while loop that looks for a free place: [attempts] have been
    made, [fuel] more may be. *)
Fixpoint findPlace (fuel attempts : nat) (draw : nat -> R)
    (usedPositions : list (R * R)) (platformX platformY baseOffset : R)
    : R * R :=
  let randomOffset := (draw attempts - 0.5) * 2 in
  let x := platformX + baseOffset + randomOffset in
  let y := platformY + CONFIG.platformHeight / 2 + 1.8 in
  match fuel with
  | O => (x, y)
  | S fuel' =>
      if Nat.ltb (S attempts) 10 && usedNear usedPositions x y
      then findPlace fuel' (S attempts) draw usedPositions platformX platformY
             baseOffset
      else (x, y)
  end.

(** [platform.userData.width || 10] *)
Definition placementWidth (pl : Platform.t) : R :=
  match Platform.userWidth pl with
  | Some w => if eqb0 w then 10 else w
  | None => 10
  end.

(** One round of the [forEach] over the contents, on the files placed so
    far and the used positions.  With no platform there is none to read
    [userData] from: the callback throws and nothing more is placed. *)
Definition placeFile (platforms : list Platform.t) (count : nat)
    (offsetDraw : nat -> nat -> R) (rotationDraw : nat -> R)
    (loaded : nat -> bool)
    (acc : list SSFile.t * list (R * R)) (index : nat)
    : list SSFile.t * list (R * R) :=
  match platforms !! (index mod length platforms)%nat with
  | None => acc
  | Some platform =>
      let platformWidth := placementWidth platform in
      let slot := (index / length platforms)%nat in
      let baseOffset := (INR (slot mod 3) - 1) * (platformWidth / 3) in
      let '(x, y) :=
        findPlace 9 0 (offsetDraw index) (snd acc)
          (vx (Platform.position platform)) (vy (Platform.position platform))
          baseOffset in
      let z := INR index * 0.15 - INR count * 0.15 / 2 in
      let file :=
        {| SSFile.position := vec3 x y z;
           SSFile.rotationY :=
             if loaded index then (rotationDraw index - 0.5) * 0.3 else 0;
           SSFile.baseY := None;
           SSFile.baseRotY := None |} in
      (fst acc ++ [file], snd acc ++ [(x, y)])
  end.

Definition placeFilesOnPlatforms (platforms : list Platform.t) (count : nat)
    (offsetDraw : nat -> nat -> R) (rotationDraw : nat -> R)
    (loaded : nat -> bool) (files : list SSFile.t) : list SSFile.t :=
  if Nat.eqb (length platforms) 0 then files
  else
    fst (fold_left (placeFile platforms count offsetDraw rotationDraw loaded)
           (seq 0 count) (files, [])).

(** ** sidescroller.js: the file next to the player *)

(** One round of the search of [getSelectedFile], the same in
    [highlightNearestFile], on [(closest, closestDist)]. *)
Definition nearerFile (playerPosition : Vector3) (acc : option nat * R)
    (ifile : nat * SSFile.t) : option nat * R :=
  let dist := V3.distanceTo playerPosition (SSFile.position (snd ifile)) in
  if ltb dist (snd acc) then (Some (fst ifile), dist) else acc.

(** [getSelectedFile]: the file as its index in [sideScrollerFiles].  With
    the player missing the search throws at the first file, and the key
    handler that called it ends without a file. *)
Definition getSelectedFile (t : Tank) : option nat :=
  if negb (sideScrollerMode t) then None
  else
    match sideScrollerPlayer t with
    | None => None
    | Some player =>
        let closestDist := 2 in
        fst (fold_left (nearerFile (Player.position player))
               (indexed (sideScrollerFiles t)) (None, closestDist))
    end.

(** ** ui.js: the file-info panel *)

(** What [positionFileInfoNearObject] does to the panel: nothing, make it
    transparent where it is, or show it at [left], [top] (in pixels). *)
Inductive Placement :=
| Untouched
| Transparent
| ShownAt (left top : R).

(** [positionFileInfoNearObject].  [screenPosition] is the projected
    position of the selected object, [None] when there is no selected
    object or no panel. *)
Definition positionFileInfoNearObject (screenPosition : option Vector3)
    (innerWidth innerHeight : R) : Placement :=
  match screenPosition with
  | None => Untouched
  | Some screenPosition =>
    if gtb (vz screenPosition) 1 then Transparent
    else
      let screenX := (vx screenPosition + 1) * innerWidth / 2 in
      let screenY := (- vy screenPosition + 1) * innerHeight / 2 in
      let panelWidth := 220 in
      let panelHeight := 120 in
      let screenCenterX := innerWidth / 2 in
      let distanceFromCenter := Rabs (screenX - screenCenterX) in
      let left0 :=
        if ltb screenX screenCenterX then screenX - panelWidth - 30
        else screenX + 30 in
      let left1 :=
        if ltb distanceFromCenter 100 then
          let leftSpace := screenX in
          let rightSpace := innerWidth - screenX in
          if gtb leftSpace rightSpace then screenX - panelWidth - 30
          else screenX + 30
        else left0 in
      let top0 := screenY - panelHeight / 2 in
      let left :=
        if ltb left1 20 then 20
        else if gtb (left1 + panelWidth) (innerWidth - 20)
             then innerWidth - panelWidth - 20
             else left1 in
      let top :=
        if ltb top0 20 then 20
        else if gtb (top0 + panelHeight) (innerHeight - 20)
             then innerHeight - panelHeight - 20
             else top0 in
      ShownAt left top
  end.

(** ** ui.js: the preview windows *)

(** A window: its id is ['preview-' + Date.now()], kept as the time. *)
Module PreviewWindow.
Record t := mk {
  id : R;
  left : R;
  top : R;
  zIndex : R;
  focused : bool }.
End PreviewWindow.

(** [tank.previewWindows] and [tank.previewZIndex]. *)
Record Previews := mkPreviews {
  previewWindows : list PreviewWindow.t;
  previewZIndex : R }.

(** What [openPreview] is given: the [userData] of the object. *)
Module FileData.
Record t := mk {
  hasName : bool;      (* fileData.name is neither missing nor empty *)
  isFolder : bool      (* fileData.type === 'folder' *) }.
End FileData.

Definition sameId (a b : R) : bool := if Req_dec_T a b then true else false.

(** [Array.prototype.findIndex] *)
Fixpoint findIndex {A : Type} (f : A -> bool) (l : list A) : option nat :=
  match l with
  | [] => None
  | x :: l' => if f x then Some 0%nat else option_map S (findIndex f l')
  end.

Definition closePreviewWindow (windowId : R) (pv : Previews) : Previews :=
  match findIndex (fun w => sameId (PreviewWindow.id w) windowId)
          (previewWindows pv) with
  | Some index =>
      {| previewWindows := delete index (previewWindows pv);
         previewZIndex := previewZIndex pv |}
  | None => pv
  end.

Definition closePreview (pv : Previews) : Previews :=
  match last (previewWindows pv) with
  | Some topWindow => closePreviewWindow (PreviewWindow.id topWindow) pv
  | None => pv
  end.

Definition focusPreviewWindow (windowId : R) (pv : Previews) : Previews :=
  match findIndex (fun w => sameId (PreviewWindow.id w) windowId)
          (previewWindows pv) with
  | Some index =>
      let z := previewZIndex pv + 1 in
      {| previewWindows :=
           alter (fun w =>
                    {| PreviewWindow.id := PreviewWindow.id w;
                       PreviewWindow.left := PreviewWindow.left w;
                       PreviewWindow.top := PreviewWindow.top w;
                       PreviewWindow.zIndex := z;
                       PreviewWindow.focused := true |})
                 index
                 (map (fun w =>
                         {| PreviewWindow.id := PreviewWindow.id w;
                            PreviewWindow.left := PreviewWindow.left w;
                            PreviewWindow.top := PreviewWindow.top w;
                            PreviewWindow.zIndex := PreviewWindow.zIndex w;
                            PreviewWindow.focused := false |})
                      (previewWindows pv));
         previewZIndex := z |}
  | None => pv
  end.

(** The loop [while (previewWindows.length >= 5) closePreviewWindow(first.id)];
    [fuel] bounds its rounds. *)
Fixpoint closeOldest (fuel : nat) (pv : Previews) : Previews :=
  match fuel with
  | O => pv
  | S fuel' =>
      if Nat.leb 5 (length (previewWindows pv)) then
        match previewWindows pv with
        | first :: _ =>
            closeOldest fuel' (closePreviewWindow (PreviewWindow.id first) pv)
        | [] => pv
        end
      else pv
  end.

(** [openPreview]: the windows after the call, and whether the call went
    to [enterSideScrollerMode] instead.  [object] is [None] for a null
    object; [container] says whether the element [preview-container]
    exists. *)
Definition openPreview (object : option FileData.t) (now : R)
    (container : bool) (pv : Previews) : Previews * bool :=
  match object with
  | None => (pv, false)
  | Some fileData =>
      if negb (FileData.hasName fileData) then (pv, false)
      else if FileData.isFolder fileData then (pv, true)
      else
        let pv1 := closeOldest (length (previewWindows pv)) pv in
        if negb container then (pv1, false)
        else
          let offset := INR (length (previewWindows pv1)) * 30 in
          let z := previewZIndex pv1 + 1 in
          let panel :=
            {| PreviewWindow.id := now;
               PreviewWindow.left := 20 + offset;
               PreviewWindow.top := 20 + offset;
               PreviewWindow.zIndex := z;
               PreviewWindow.focused := false |} in
          ({| previewWindows := previewWindows pv1 ++ [panel];
              previewZIndex := z |}, false)
  end.

(** No window is above the counter the next window takes its z-index
    from. *)
Definition zOrdered (pv : Previews) : Prop :=
  Forall (fun w => PreviewWindow.zIndex w <= previewZIndex pv)
         (previewWindows pv).

(** The windows as the constructor of [SwimmingTank] leaves them. *)
Definition noPreviews : Previews :=
  {| previewWindows := []; previewZIndex := 300 |}.

(** ** bubbles.js: the pool and the trail *)

(** A bubble mesh, as far as the code moves it. *)
Module Mesh.
Record t := mk {
  position : Vector3;
  rotation : Vector3;
  scale : R;
  visible : bool }.
(** [new THREE.Mesh(...)] *)
Definition fresh : t := mk (vec3 0 0 0) (vec3 0 0 0) 1 true.
End Mesh.

(** [bubble.userData], as both creators assign it before the bubble is
    used; [scale] is there for dash bubbles only. *)
Module BubbleData.
Record t := mk {
  life : R;
  maxLife : R;
  velocity : Vector3;
  rotationSpeed : Vector3;
  wobble : R;
  wobbleSpeed : R;
  scale : option R }.
End BubbleData.

Module Bubble.
Record t := mk { mesh : Mesh.t; data : BubbleData.t }.
End Bubble.

(** [tank.bubbles], [tank.bubblePool] and [tank.maxPoolSize].  The
    [userData] of a pooled bubble is replaced before it is read again, so
    the pool holds meshes. *)
Record Bubbles := mkBubbles {
  bubbles : list Bubble.t;
  bubblePool : list Mesh.t;
  maxPoolSize : nat }.

(** [Array.prototype.pop] *)
Definition pop {A : Type} (l : list A) : option (A * list A) :=
  match last l with
  | Some x => Some (x, removelast l)
  | None => None
  end.

Definition getBubbleFromPool (s : Bubbles) : Mesh.t * Bubbles :=
  match pop (bubblePool s) with
  | Some (bubble, rest) =>
      ({| Mesh.position := Mesh.position bubble;
          Mesh.rotation := Mesh.rotation bubble;
          Mesh.scale := 1;
          Mesh.visible := true |},
       {| bubbles := bubbles s; bubblePool := rest;
          maxPoolSize := maxPoolSize s |})
  | None => (Mesh.fresh, s)
  end.

Definition returnBubbleToPool (s : Bubbles) (bubble : Mesh.t) : Bubbles :=
  let hidden :=
    {| Mesh.position := Mesh.position bubble;
       Mesh.rotation := Mesh.rotation bubble;
       Mesh.scale := Mesh.scale bubble;
       Mesh.visible := false |} in
  if Nat.ltb (length (bubblePool s)) (maxPoolSize s)
  then {| bubbles := bubbles s; bubblePool := bubblePool s ++ [hidden];
          maxPoolSize := maxPoolSize s |}
  else s.

(** The draws of [Math.random()] for one bubble, in the order the code
    makes them (the three draws for the material, between [jitter] and
    [life], left out); [scale] is drawn for dash bubbles only. *)
Module BubbleDraws.
Record t := mk {
  back : R;
  jitter : Vector3;
  life : R;
  velocity : Vector3;
  rotationSpeed : Vector3;
  wobble : R;
  wobbleSpeed : R;
  scale : R }.
End BubbleDraws.

(** One round of the loop of [createBubbleTrail]. *)
Definition trailBubble (fr : Obj3D.t) (s : Bubbles) (d : BubbleDraws.t)
    : Bubbles :=
  let frogDirection := V3.applyQuaternion (vec3 0 0 1) (Obj3D.quaternion fr) in
  let p0 :=
    V3.add (Obj3D.position fr)
      (V3.multiplyScalar frogDirection (-1.5 - BubbleDraws.back d * 0.8)) in
  let bubblePosition :=
    vec3 (vx p0 + (vx (BubbleDraws.jitter d) - 0.5) * 1.2)
         (vy p0 + (vy (BubbleDraws.jitter d) - 0.5) * 0.8)
         (vz p0 + (vz (BubbleDraws.jitter d) - 0.5) * 1.2) in
  let '(bubble, s1) := getBubbleFromPool s in
  let life := 2.0 + BubbleDraws.life d * 1.0 in
  let placed :=
    {| Bubble.mesh :=
         {| Mesh.position := bubblePosition;
            Mesh.rotation := Mesh.rotation bubble;
            Mesh.scale := Mesh.scale bubble;
            Mesh.visible := Mesh.visible bubble |};
       Bubble.data :=
         {| BubbleData.life := life;
            BubbleData.maxLife := life;
            BubbleData.velocity :=
              vec3 ((vx (BubbleDraws.velocity d) - 0.5) * 0.15)
                   (0.4 + vy (BubbleDraws.velocity d) * 0.3)
                   ((vz (BubbleDraws.velocity d) - 0.5) * 0.15);
            BubbleData.rotationSpeed :=
              vec3 ((vx (BubbleDraws.rotationSpeed d) - 0.5) * 2.0)
                   ((vy (BubbleDraws.rotationSpeed d) - 0.5) * 2.0)
                   ((vz (BubbleDraws.rotationSpeed d) - 0.5) * 2.0);
            BubbleData.wobble := BubbleDraws.wobble d * PI * 2;
            BubbleData.wobbleSpeed := 2.0 + BubbleDraws.wobbleSpeed d * 3.0;
            BubbleData.scale := None |} |} in
  {| bubbles := bubbles s1 ++ [placed]; bubblePool := bubblePool s1;
     maxPoolSize := maxPoolSize s1 |}.

(** [createBubbleTrail]: [countDraw] picks two or three bubbles. *)
Definition createBubbleTrail (frog : option Obj3D.t) (countDraw : R)
    (draws : nat -> BubbleDraws.t) (s : Bubbles) : Bubbles :=
  match frog with
  | None => s
  | Some fr =>
      let bubbleCount := (2 + floorIndex (countDraw * 2))%nat in
      fold_left (fun s i => trailBubble fr s (draws i)) (seq 0 bubbleCount) s
  end.

(** One round of the loop of [createDashBubbles]. *)
Definition dashBubble (fr : Obj3D.t) (s : Bubbles) (d : BubbleDraws.t)
    : Bubbles :=
  let frogDirection := V3.applyQuaternion (vec3 0 0 1) (Obj3D.quaternion fr) in
  let p0 :=
    V3.add (Obj3D.position fr)
      (V3.multiplyScalar frogDirection (-1.0 - BubbleDraws.back d * 0.5)) in
  let bubblePosition :=
    vec3 (vx p0 + (vx (BubbleDraws.jitter d) - 0.5) * 2.0)
         (vy p0 + (vy (BubbleDraws.jitter d) - 0.5) * 1.5)
         (vz p0 + (vz (BubbleDraws.jitter d) - 0.5) * 2.0) in
  let '(bubble, s1) := getBubbleFromPool s in
  let life := 1.5 + BubbleDraws.life d * 0.5 in
  let placed :=
    {| Bubble.mesh :=
         {| Mesh.position := bubblePosition;
            Mesh.rotation := Mesh.rotation bubble;
            Mesh.scale := Mesh.scale bubble;
            Mesh.visible := Mesh.visible bubble |};
       Bubble.data :=
         {| BubbleData.life := life;
            BubbleData.maxLife := life;
            BubbleData.velocity :=
              vec3 ((vx (BubbleDraws.velocity d) - 0.5) * 0.4)
                   (0.6 + vy (BubbleDraws.velocity d) * 0.4)
                   ((vz (BubbleDraws.velocity d) - 0.5) * 0.4);
            BubbleData.rotationSpeed :=
              vec3 ((vx (BubbleDraws.rotationSpeed d) - 0.5) * 4.0)
                   ((vy (BubbleDraws.rotationSpeed d) - 0.5) * 4.0)
                   ((vz (BubbleDraws.rotationSpeed d) - 0.5) * 4.0);
            BubbleData.wobble := BubbleDraws.wobble d * PI * 2;
            BubbleData.wobbleSpeed := 4.0 + BubbleDraws.wobbleSpeed d * 4.0;
            BubbleData.scale := Some (1.0 + BubbleDraws.scale d * 0.3) |} |} in
  {| bubbles := bubbles s1 ++ [placed]; bubblePool := bubblePool s1;
     maxPoolSize := maxPoolSize s1 |}.

Definition createDashBubbles (frog : option Obj3D.t)
    (draws : nat -> BubbleDraws.t) (s : Bubbles) : Bubbles :=
  match frog with
  | None => s
  | Some fr => fold_left (fun s i => dashBubble fr s (draws i)) (seq 0 5) s
  end.

(** The body of the loop of [updateBubbleTrail] up to the test of the
    life: the bubble after it has moved, turned, wobbled, aged and been
    rescaled (the scale is the code's for a [maxLife] that is not zero, as
    both creators make it). *)
Definition ageBubble (delta : R) (b : Bubble.t) : Bubble.t :=
  let data := Bubble.data b in
  let m := Bubble.mesh b in
  let p1 := V3.add (Mesh.position m)
              (V3.multiplyScalar (BubbleData.velocity data) delta) in
  let rotation :=
    vec3 (vx (Mesh.rotation m) + vx (BubbleData.rotationSpeed data) * delta)
         (vy (Mesh.rotation m) + vy (BubbleData.rotationSpeed data) * delta)
         (vz (Mesh.rotation m) + vz (BubbleData.rotationSpeed data) * delta) in
  let wobble := BubbleData.wobble data + BubbleData.wobbleSpeed data * delta in
  let wobbleAmount := 0.02 in
  let p2 := vec3 (vx p1 + sin wobble * wobbleAmount * delta)
                 (vy p1)
                 (vz p1 + cos wobble * wobbleAmount * delta) in
  let life := BubbleData.life data - delta in
  let fadeRatio := life / BubbleData.maxLife data in
  let scale := 1.0 + (1.0 - fadeRatio) * 0.4 in
  {| Bubble.mesh :=
       {| Mesh.position := p2;
          Mesh.rotation := rotation;
          Mesh.scale :=
            match BubbleData.scale data with
            | Some k => if eqb0 k then scale else scale * k
            | None => scale
            end;
          Mesh.visible := Mesh.visible m |};
     Bubble.data :=
       {| BubbleData.life := life;
          BubbleData.maxLife := BubbleData.maxLife data;
          BubbleData.velocity := BubbleData.velocity data;
          BubbleData.rotationSpeed := BubbleData.rotationSpeed data;
          BubbleData.wobble := wobble;
          BubbleData.wobbleSpeed := BubbleData.wobbleSpeed data;
          BubbleData.scale := BubbleData.scale data |} |}.

(** The loop of [updateBubbleTrail], which walks [tank.bubbles] from its
    last entry to its first and splices out the bubbles whose life has
    run out: the bubbles that stay, and the pool. *)
Definition ageBubbles (delta : R) (s : Bubbles) : Bubbles :=
  fold_right
    (fun (b : Bubble.t) (acc : Bubbles) =>
       let aged := ageBubble delta b in
       if leb (BubbleData.life (Bubble.data aged)) 0
       then returnBubbleToPool acc (Bubble.mesh aged)
       else {| bubbles := aged :: bubbles acc; bubblePool := bubblePool acc;
               maxPoolSize := maxPoolSize acc |})
    {| bubbles := []; bubblePool := bubblePool s; maxPoolSize := maxPoolSize s |}
    (bubbles s).

(** [updateBubbleTrail]; [spawnDraw] is the draw compared with 0.4, made
    only while a horizontal key is held. *)
Definition updateBubbleTrail (t : Tank) (delta spawnDraw countDraw : R)
    (draws : nat -> BubbleDraws.t) (s : Bubbles) : Bubbles :=
  let s1 := ageBubbles delta s in
  if Movement.hasHorizontalInput (movement t) && ltb spawnDraw 0.4
  then createBubbleTrail (frog t) countDraw draws s1
  else s1.

(** ** controls.js: key releases *)

Inductive Key :=
| KeyW | KeyA | KeyS | KeyD
| ArrowUp | ArrowDown | ArrowLeft | ArrowRight
| Space | OtherKey.

(** [tank.onKeyUp] *)
Definition onKeyUp (code : Key) (t : Tank) : Tank :=
  if sideScrollerMode t then
    let i := sideScrollerInput t in
    match code with
    | KeyA | ArrowLeft =>
        set_sideScrollerInput
          (SSInput.mk false (SSInput.right i) (SSInput.jump i) (SSInput.down i)) t
    | KeyD | ArrowRight =>
        set_sideScrollerInput
          (SSInput.mk (SSInput.left i) false (SSInput.jump i) (SSInput.down i)) t
    | KeyW | ArrowUp | Space =>
        set_sideScrollerInput
          (SSInput.mk (SSInput.left i) (SSInput.right i) false (SSInput.down i)) t
    | KeyS | ArrowDown =>
        set_sideScrollerInput
          (SSInput.mk (SSInput.left i) (SSInput.right i) (SSInput.jump i) false) t
    | OtherKey => t
    end
  else
    let m := movement t in
    match code with
    | KeyW =>
        set_movement
          (Movement.mk false (Movement.backward m) (Movement.left m)
             (Movement.right m) (Movement.up m) (Movement.down m)) t
    | KeyA =>
        set_movement
          (Movement.mk (Movement.forward m) (Movement.backward m) false
             (Movement.right m) (Movement.up m) (Movement.down m)) t
    | KeyS =>
        set_movement
          (Movement.mk (Movement.forward m) false (Movement.left m)
             (Movement.right m) (Movement.up m) (Movement.down m)) t
    | KeyD =>
        set_movement
          (Movement.mk (Movement.forward m) (Movement.backward m)
             (Movement.left m) false (Movement.up m) (Movement.down m)) t
    | ArrowUp =>
        set_movement
          (Movement.mk (Movement.forward m) (Movement.backward m)
             (Movement.left m) (Movement.right m) false (Movement.down m)) t
    | ArrowDown =>
        set_movement
          (Movement.mk (Movement.forward m) (Movement.backward m)
             (Movement.left m) (Movement.right m) (Movement.up m) false) t
    | ArrowLeft | ArrowRight | Space | OtherKey => t
    end.

(** ** More scenes *)

(** Flocking on: one folder at (20, 0, 0) and a sub-agent two units from
    it, sent to it; the avatar has not loaded. *)
Definition arrivalTank : Tank :=
  set_otherFrogs [subAgent (vec3 18 0 0) (Some 0%nat) true]
    (set_multiFrogMode true
      (set_allObjects [WorldObject.mk (vec3 20 0 0) 0 Folder] newTank)).

(** The avatar and two folders in reach, six seconds after the autopilot
    record was created at time 0, no key held since. *)
Definition idleTank : Tank :=
  set_autopilot (Some (initialAutopilot 0)) reachTank.

(** The same tank with the forward key held. *)
Definition swimmingTank : Tank :=
  set_movement (Movement.mk true false false false false false) idleTank.

(** The avatar gliding with no key held. *)
Definition glidingTank : Tank :=
  set_velocity (vec3 3 1 (-2)) loadedTank.

(** Flocking on: a sub-agent sent to a folder, with the avatar's recorded
    position half a unit from it. *)
Definition crowdedTank : Tank :=
  set_frogPosition (vec3 18.5 10 0)
    (set_frog (Some (Obj3D.mk (vec3 18.5 10 0) (euler3 0 PI 0))) flockTank).

(** Inside a folder whose platforms are all 8 wide: the player where it
    enters, one file a unit to its right and one half a unit to its
    right. *)
Definition shelfTank : Tank :=
  enterSideScrollerMode loadedTank 0 (fun _ => 8)
    [SSFile.mk (vec3 1 CONFIG.groundY 0) 0 None None;
     SSFile.mk (vec3 0.5 CONFIG.groundY 0) 0 None None].

(** Two preview windows, opened at times 1 and 2. *)
Definition twoPreviews : Previews :=
  {| previewWindows :=
       [PreviewWindow.mk 1 20 20 301 false; PreviewWindow.mk 2 50 50 302 false];
     previewZIndex := 302 |}.

(** One trail bubble with half a second left and one with two seconds
    left, an empty pool of 100 places. *)
Definition someBubble (life : R) : Bubble.t :=
  {| Bubble.mesh := Mesh.fresh;
     Bubble.data :=
       {| BubbleData.life := life;
          BubbleData.maxLife := 2.5;
          BubbleData.velocity := vec3 0 0.5 0;
          BubbleData.rotationSpeed := vec3 0 0 0;
          BubbleData.wobble := 0;
          BubbleData.wobbleSpeed := 3;
          BubbleData.scale := None |} |}.

Definition twoBubbles : Bubbles :=
  {| bubbles := [someBubble 0.5; someBubble 2];
     bubblePool := [];
     maxPoolSize := 100 |}.

(** The draws of [Math.random()] all at one half. *)
Definition evenDraws : BubbleDraws.t :=
  {| BubbleDraws.back := 0.5;
     BubbleDraws.jitter := vec3 0.5 0.5 0.5;
     BubbleDraws.life := 0.5;
     BubbleDraws.velocity := vec3 0.5 0.5 0.5;
     BubbleDraws.rotationSpeed := vec3 0.5 0.5 0.5;
     BubbleDraws.wobble := 0.5;
     BubbleDraws.wobbleSpeed := 0.5;
     BubbleDraws.scale := 0.5 |}.

(** Flocking on: the avatar at the origin, one folder, and two sub-agents
    two units apart, both sent to the folder. *)
Definition pairTank : Tank :=
  set_otherFrogs [subAgent (vec3 18 10 0) (Some 0%nat) true;
                  subAgent (vec3 20 10 0) (Some 0%nat) true]
    flockTank.

(** The avatar idle for six seconds, with one folder 20 units away and
    one 2 units above it. *)
Definition cruiseTank : Tank :=
  set_autopilot (Some (initialAutopilot 0))
    (set_allObjects [WorldObject.mk (vec3 20 0 0) 0 Folder;
                     WorldObject.mk (vec3 0 2 0) 0 Folder] loadedTank).

(** ** Basic facts *)

Lemma ltb_lt (a b : R) : ltb a b = true <-> a < b.
Proof. unfold ltb. destruct (Rlt_dec a b); split; (lra || discriminate || auto). Qed.

Lemma ltb_ge (a b : R) : ltb a b = false <-> b <= a.
Proof. unfold ltb. destruct (Rlt_dec a b); split; (lra || discriminate || auto). Qed.

Lemma gtb_gt (a b : R) : gtb a b = true <-> b < a.
Proof. apply ltb_lt. Qed.

Lemma gtb_le (a b : R) : gtb a b = false <-> a <= b.
Proof. apply ltb_ge. Qed.

Lemma leb_le (a b : R) : leb a b = true <-> a <= b.
Proof. unfold leb. destruct (Rle_dec a b); split; (lra || discriminate || auto). Qed.

Lemma eqb0_true (a : R) : eqb0 a = true <-> a = 0.
Proof. unfold eqb0. destruct (Req_dec_T a 0); split; (lra || discriminate || auto). Qed.

Lemma eqb0_false (a : R) : eqb0 a = false <-> a <> 0.
Proof. unfold eqb0. destruct (Req_dec_T a 0); split; (congruence || auto). Qed.

Lemma vec3_eq (a b : Vector3) :
  vx a = vx b -> vy a = vy b -> vz a = vz b -> a = b.
Proof. destruct a, b; simpl; intros; subst; reflexivity. Qed.

Lemma distanceTo_sym (a b : Vector3) : V3.distanceTo a b = V3.distanceTo b a.
Proof. unfold V3.distanceTo. simpl. f_equal. ring. Qed.

Lemma distanceTo_nonneg (a b : Vector3) : 0 <= V3.distanceTo a b.
Proof. unfold V3.distanceTo. simpl. apply sqrt_pos. Qed.

(** The distance between two points on a line parallel to the x axis. *)
Lemma distanceTo_along_x (x1 x2 y z : R) :
  V3.distanceTo (vec3 x1 y z) (vec3 x2 y z) = Rabs (x1 - x2).
Proof.
  unfold V3.distanceTo. simpl.
  replace ((x1 - x2) * (x1 - x2) + (y - y) * (y - y) + (z - z) * (z - z))
    with (Rsqr (x1 - x2)) by (unfold Rsqr; ring).
  apply sqrt_Rsqr_abs.
Qed.

Lemma distanceTo_self (a : Vector3) : V3.distanceTo a a = 0.
Proof.
  destruct a as [x y z]. rewrite distanceTo_along_x.
  replace (x - x) with 0 by ring. apply Rabs_R0.
Qed.

Lemma set_get_tank (t : Tank) : set_otherFrogs (otherFrogs t) t = t.
Proof. destruct t; reflexivity. Qed.


(** A lower bound on a distance from a lower bound on its square. *)
Lemma distanceTo_ge (m : R) (a b : Vector3) :
  0 <= m ->
  m * m <= (vx a - vx b) * (vx a - vx b) + (vy a - vy b) * (vy a - vy b)
           + (vz a - vz b) * (vz a - vz b) ->
  m <= V3.distanceTo a b.
Proof.
  intros Hm Hsq. unfold V3.distanceTo. cbv zeta.
  rewrite <- (sqrt_square m Hm). apply sqrt_le_1_alt. assumption.
Qed.

Lemma lookup_map {A B : Type} (f : A -> B) (l : list A) (i : nat) :
  map f l !! i = option_map f (l !! i).
Proof.
  revert i. induction l as [|x l IH]; intros [|i]; cbn; auto.
Qed.

Ltac Rminmax :=
  unfold Rmax, Rmin; repeat (destruct (Rle_dec _ _)); try lra.

(** ** C8, C10: the guards on a missing avatar *)

(** C8.  With no avatar loaded ([tank.frog] null), each per-frame update of
    the open-water core -- movement integration, camera follow, autopilot,
    frog animation, object selection -- returns the tank it was given: no
    field is written and nothing is thrown. *)
Theorem missing_avatar_noop (ops : CameraOps) (t : Tank) (env : Env.t) :
  frog t = None ->
  updateMovement t (Env.delta env) = t
  /\ updateCameraPosition t = t
  /\ updateAutopilot t env = t
  /\ updateFrogAnimation t (Env.delta env) = t
  /\ updateObjectSelection t = t.
Proof.
  intros Hfrog.
  unfold updateMovement, updateCameraPosition, updateAutopilot,
    updateFrogAnimation, updateObjectSelection.
  rewrite Hfrog. repeat split.
Qed.

Lemma missing_avatar_noop_witness :
  let env := Env.mk 0.016 1000 0.5 in
  frog newTank = None
  /\ updateMovement newTank (Env.delta env) = newTank
  /\ @updateCameraPosition fixedCamera newTank = newTank
  /\ updateAutopilot newTank env = newTank
  /\ updateFrogAnimation newTank (Env.delta env) = newTank
  /\ @updateObjectSelection fixedCamera newTank = newTank.
Proof.
  intro env. split; [reflexivity|].
  apply (missing_avatar_noop fixedCamera newTank env). reflexivity.
Defined.

Lemma updateAutopilot_guard (t : Tank) (env : Env.t) :
  frog t = None \/ allObjects t = [] ->
  updateAutopilot t env = t.
Proof.
  intros [Hfrog | Hobjs]; unfold updateAutopilot.
  - rewrite Hfrog. reflexivity.
  - rewrite Hobjs. destruct (frog t); reflexivity.
Qed.

(** C10.  When the world-object list is empty or the avatar is not loaded,
    [updateAutopilot] returns the tank unchanged: the autopilot record is
    not created, nothing activates, and no timestamp, velocity or
    orientation is written, whatever the clock says. *)
Theorem autopilot_guard_noop (t : Tank) (env : Env.t) :
  frog t = None \/ allObjects t = [] ->
  updateAutopilot t env = t.
Proof.
  intros Hguard. destruct Hguard as [Hfrog | Hobjs].
  - apply updateAutopilot_guard. left. exact Hfrog.
  - apply updateAutopilot_guard. right. exact Hobjs.
Qed.

Lemma autopilot_guard_noop_witness :
  allObjects loadedTank = []
  /\ autopilot loadedTank = None
  /\ updateAutopilot loadedTank (Env.mk 0.016 9999999 0.5) = loadedTank.
Proof.
  split; [reflexivity|]. split; [reflexivity|].
  apply autopilot_guard_noop. right. reflexivity.
Defined.


(** ** Frame lemmas: what each update leaves alone *)

Ltac break_match :=
  match goal with
  | |- context [match ?x with _ => _ end] => destruct x eqn:?
  end.

Lemma updateFrogAt_frame (delta : R) (t : Tank) (i : nat) :
  exists l, updateFrogAt delta t i = set_otherFrogs l t.
Proof.
  unfold updateFrogAt. repeat break_match; eauto;
    exists (otherFrogs t); symmetry; apply set_get_tank.
Qed.

(** [updateAdditionalFrogs] writes to [tank.otherFrogs] only. *)
Lemma updateAdditionalFrogs_frame (t : Tank) (delta : R) :
  exists l, updateAdditionalFrogs t delta = set_otherFrogs l t.
Proof.
  unfold updateAdditionalFrogs. destruct (negb (multiFrogMode t)).
  { exists (otherFrogs t). symmetry. apply set_get_tank. }
  generalize (seq 0 (length (otherFrogs t))). intros l.
  assert (H : forall t0, (exists l0, t0 = set_otherFrogs l0 t) ->
            exists l1, fold_left (updateFrogAt delta) l t0 = set_otherFrogs l1 t).
  { induction l as [|i l IH]; intros t0 [l0 ->]; cbn [fold_left]; eauto.
    apply IH. destruct (updateFrogAt_frame delta (set_otherFrogs l0 t) i) as [l1 ->].
    exists l1. reflexivity. }
  apply H. exists (otherFrogs t). symmetry. apply set_get_tank.
Qed.

Lemma makeFrogsSwimToFolder_frame (t : Tank) (folder : nat) :
  exists l, makeFrogsSwimToFolder t folder = set_otherFrogs l t.
Proof.
  unfold makeFrogsSwimToFolder. destruct (negb (multiFrogMode t)); eauto.
  exists (otherFrogs t). symmetry. apply set_get_tank.
Qed.

Section Frames.
Context {ops : CameraOps}.

(** [updateObjectSelection] writes to the selection and to the sub-agents
    only. *)
Lemma updateObjectSelection_frame (t : Tank) :
  exists l s, updateObjectSelection t = set_otherFrogs l (set_selectedObject s t).
Proof.
  unfold updateObjectSelection.
  assert (Hid : t = set_otherFrogs (otherFrogs t) (set_selectedObject (selectedObject t) t))
    by (destruct t; reflexivity).
  destruct (frog t) as [fr|]; [|eauto].
  destruct (bool_decide _); [eauto|].
  destruct (bestObject t fr) as [folder|].
  - destruct (makeFrogsSwimToFolder_frame (set_selectedObject (Some folder) t) folder)
      as [l ->]. eauto.
  - exists (otherFrogs t), None. destruct t; reflexivity.
Qed.

Lemma dashCooldown_updateSideScroller (t : Tank) (env : Env.t) :
  dashCooldown (updateSideScroller t env) = dashCooldown t.
Proof. unfold updateSideScroller. repeat break_match; reflexivity. Qed.

Lemma dashCooldown_updateAutopilot (t : Tank) (env : Env.t) :
  dashCooldown (updateAutopilot t env) = dashCooldown t.
Proof.
  unfold updateAutopilot, realignCamera.
  repeat break_match; cbn; try reflexivity; congruence.
Qed.

Lemma dashCooldown_updateFrogAnimation (t : Tank) (delta : R) :
  dashCooldown (updateFrogAnimation t delta) = dashCooldown t.
Proof. unfold updateFrogAnimation. destruct (frog t); reflexivity. Qed.

Lemma dashCooldown_updateAdditionalFrogs (t : Tank) (delta : R) :
  dashCooldown (updateAdditionalFrogs t delta) = dashCooldown t.
Proof. destruct (updateAdditionalFrogs_frame t delta) as [l ->]. reflexivity. Qed.

Lemma dashCooldown_updateCameraPosition (t : Tank) :
  dashCooldown (updateCameraPosition t) = dashCooldown t.
Proof. unfold updateCameraPosition. destruct (frog t); reflexivity. Qed.

Lemma dashCooldown_updateObjectSelection (t : Tank) :
  dashCooldown (updateObjectSelection t) = dashCooldown t.
Proof. destruct (updateObjectSelection_frame t) as (l & s & ->). reflexivity. Qed.

Lemma dashCooldown_checkCollisions (t : Tank) :
  dashCooldown (checkCollisions t) = dashCooldown t.
Proof. unfold checkCollisions. destruct (frog t); reflexivity. Qed.

(** The only per-frame write to the cooldown: [updateMovement] takes
    [delta] off it while it is positive. *)
Lemma dashCooldown_updateMovement (t : Tank) (delta : R) :
  dashCooldown (updateMovement t delta)
  = match frog t with
    | Some _ => if gtb (dashCooldown t) 0 then dashCooldown t - delta
                else dashCooldown t
    | None => dashCooldown t
    end.
Proof. unfold updateMovement. destruct (frog t); reflexivity. Qed.

(** A frame takes at most its [delta] off the cooldown. *)
Lemma dashCooldown_animate (t : Tank) (env : Env.t) :
  0 <= Env.delta env ->
  dashCooldown t - Env.delta env <= dashCooldown (animate t env).
Proof.
  intros Hdelta. unfold animate, schedule.
  destruct (sideScrollerMode t); cbn [fold_left runUpdate].
  - rewrite dashCooldown_updateSideScroller. lra.
  - rewrite dashCooldown_checkCollisions. unfold updateEnvironment; cbn [dashCooldown set_allObjects].
    rewrite dashCooldown_updateObjectSelection, dashCooldown_updateCameraPosition,
      dashCooldown_updateAdditionalFrogs, dashCooldown_updateFrogAnimation,
      dashCooldown_updateAutopilot, dashCooldown_updateMovement.
    destruct (frog t); [|lra].
    destruct (gtb (dashCooldown t) 0); lra.
Qed.

Lemma dashCooldown_run (frames : list Frame.t) (t : Tank) :
  Forall (fun f => 0 <= Env.delta (Frame.env f)) frames ->
  dashCooldown t - elapsed frames <= dashCooldown (run t frames).
Proof.
  revert t. induction frames as [|f frames IH]; intros t Hdeltas;
    unfold run, elapsed; cbn [fold_left fold_right].
  - lra.
  - fold (elapsed frames). inversion Hdeltas as [|? ? Hf Hrest]; subst.
    specialize (IH (frame t f) Hrest). unfold run in IH.
    pose proof (dashCooldown_animate
      (set_sideScrollerInput (Frame.input f) (set_movement (Frame.movement f) t))
      (Frame.env f) Hf) as Hstep.
    cbn [dashCooldown set_sideScrollerInput set_movement] in Hstep.
    change (animate _ (Frame.env f)) with (frame t f) in Hstep. lra.
Qed.

(** C3.  A dash request made while [dashCooldown > 0] returns the tank
    unchanged, so velocity and cooldown keep their values.  A request made
    with the avatar present and [dashCooldown <= 0] adds the single impulse
    [dashDirection * dashForce] to the velocity and sets the cooldown to
    0.5; after any run of frames whose deltas are non-negative and sum to
    less than 0.5 s a second request returns the tank unchanged: two
    requests within 0.5 s, as the frame clock counts them, give one
    impulse. *)
Theorem dash_cooldown (t : Tank) :
  (0 < dashCooldown t -> performDash t = t)
  /\ (forall (fr : Obj3D.t) (frames : list Frame.t),
      frog t = Some fr ->
      dashCooldown t <= 0 ->
      Forall (fun f => 0 <= Env.delta (Frame.env f)) frames ->
      elapsed frames < 0.5 ->
      velocity (performDash t)
        = V3.add (velocity t)
            (V3.multiplyScalar (dashDirection t fr) (dashForce t))
      /\ dashCooldown (performDash t) = 0.5
      /\ performDash (run (performDash t) frames) = run (performDash t) frames).
Proof.
  split.
  - intros Hcd. unfold performDash. destruct (frog t); [|reflexivity].
    apply gtb_gt in Hcd. rewrite Hcd. reflexivity.
  - intros fr frames Hfrog Hready Hdeltas Hsum. apply gtb_le in Hready.
    assert (Hdash : performDash t
              = set_dashCooldown 0.5
                  (set_velocity
                     (V3.add (velocity t)
                        (V3.multiplyScalar (dashDirection t fr) (dashForce t))) t)).
    { unfold performDash. rewrite Hfrog, Hready. reflexivity. }
    rewrite Hdash. cbn [velocity dashCooldown set_dashCooldown set_velocity].
    repeat split.
    set (t1 := set_dashCooldown 0.5 _).
    pose proof (dashCooldown_run frames t1 Hdeltas) as Hleft.
    cbn [dashCooldown t1 set_dashCooldown] in Hleft.
    unfold performDash. destruct (frog (run t1 frames)); [|reflexivity].
    assert (Hpos : gtb (dashCooldown (run t1 frames)) 0 = true) by (apply gtb_gt; lra).
    rewrite Hpos. reflexivity.
Qed.

End Frames.

Lemma dash_cooldown_witness :
  let f := Frame.mk Movement.none SSInput.none (Env.mk 0.016 1000 0.5) in
  let dashed := performDash loadedTank in
  dashCooldown dashed = 0.5
  /\ performDash (@run fixedCamera dashed [f; f]) = @run fixedCamera dashed [f; f].
Proof.
  intros f dashed.
  destruct (@dash_cooldown fixedCamera loadedTank) as [_ H].
  destruct (H (Obj3D.mk (vec3 0 0 0) (euler3 0 PI 0)) [f; f]) as (_ & Hcd & Hsecond).
  - reflexivity.
  - cbn. lra.
  - repeat constructor; cbn; lra.
  - cbn. lra.
  - split; assumption.
Defined.


(** ** C6, C9: the two modes *)

Section Modes.
Context {ops : CameraOps}.

(** C6.  A frame makes the calls of exactly one path.  With
    [sideScrollerMode] set it calls [updateSideScroller] and nothing of the
    open-water chain; otherwise it calls the eleven open-water updates in
    their fixed order and not [updateSideScroller].  Never both, never
    neither. *)
Theorem mode_exclusivity (t : Tank) (env : Env.t) :
  (sideScrollerPathRuns (schedule t) /\ ~ openWaterPathRuns (schedule t)
   \/ openWaterPathRuns (schedule t) /\ ~ sideScrollerPathRuns (schedule t))
  /\ (if sideScrollerMode t
      then sideScrollerPathRuns (schedule t)
           /\ animate t env = updateSideScroller t env
      else openWaterPathRuns (schedule t)
           /\ animate t env
              = checkCollisions
                  (updateEnvironment
                    (updateObjectSelection
                      (updateCameraPosition
                        (updateAdditionalFrogs
                          (updateFrogAnimation
                            (updateAutopilot
                              (updateMovement t (Env.delta env)) env)
                            (Env.delta env))
                          (Env.delta env)))))).
Proof.
  unfold animate, sideScrollerPathRuns, openWaterPathRuns, schedule.
  destruct (sideScrollerMode t); cbn [fold_left runUpdate].
  - assert (Hss : In UpdateSideScroller [UpdateSideScroller]) by (left; reflexivity).
    assert (Hno : ~ exists u, In u [UpdateSideScroller] /\ u <> UpdateSideScroller).
    { intros (u & [<- | []] & Hne). apply Hne. reflexivity. }
    split; [left|]; split; auto.
  - set (calls := [UpdateMovement; _; _; _; _; _; _; _; _; _; _]).
    assert (How : exists u, In u calls /\ u <> UpdateSideScroller).
    { exists UpdateMovement. split; [left; reflexivity | discriminate]. }
    assert (Hno : ~ In UpdateSideScroller calls).
    { subst calls. cbn. intuition discriminate. }
    split; [right|]; split; auto.
Qed.

(** C9.  While [sideScrollerMode] is set a frame leaves the open-water
    simulation state as it was: avatar position, rotation and velocity,
    dash cooldown, selected object, every sub-agent, and the rest of
    [openWaterState]. *)
Theorem side_scroller_frame_keeps_open_water (t : Tank) (env : Env.t) :
  sideScrollerMode t = true ->
  openWaterState (animate t env) = openWaterState t.
Proof.
  intros Hmode. unfold animate, schedule. rewrite Hmode.
  cbn [fold_left runUpdate]. unfold updateSideScroller. rewrite Hmode.
  cbn [negb]. destruct (sideScrollerPlayer t) as [player|]; [|reflexivity].
  cbn [sideScrollerCamera set_sideScrollerPlayer].
  destruct (sideScrollerCamera t); reflexivity.
Qed.

End Modes.

Lemma side_scroller_frame_keeps_open_water_witness :
  let inside := enterSideScrollerMode loadedTank 0 (fun _ => 8) [] in
  let env := Env.mk 0.016 1000 0.5 in
  sideScrollerMode inside = true
  /\ openWaterState (@animate fixedCamera inside env) = openWaterState inside.
Proof.
  intros inside env. split; [reflexivity|].
  apply (@side_scroller_frame_keeps_open_water fixedCamera inside env).
  reflexivity.
Defined.


(** ** C5: the jump of the side-scroller *)

(** The latch after a tick: cleared by a tick without jump intent, set by a
    triggered jump, kept otherwise. *)
Lemma landOn_latch (b l r : R) (p : Player.t) (pl : Platform.t) :
  Player.jumpPressed (landOn b l r p pl) = Player.jumpPressed p
  /\ Player.maxJumps (landOn b l r p pl) = Player.maxJumps p
  /\ (Player.jumpCount (landOn b l r p pl) <= Player.jumpCount p)%nat.
Proof.
  unfold landOn. repeat break_match; cbn; repeat split; lia.
Qed.

Lemma fold_landOn_latch (b l r : R) (platforms : list Platform.t) (p : Player.t) :
  Player.jumpPressed (fold_left (landOn b l r) platforms p) = Player.jumpPressed p
  /\ Player.maxJumps (fold_left (landOn b l r) platforms p) = Player.maxJumps p
  /\ (Player.jumpCount (fold_left (landOn b l r) platforms p) <= Player.jumpCount p)%nat.
Proof.
  revert p. induction platforms as [|pl platforms IH]; intros p; cbn [fold_left].
  - repeat split; lia.
  - destruct (IH (landOn b l r p pl)) as (H1 & H2 & H3).
    destruct (landOn_latch b l r p pl) as (H4 & H5 & H6).
    repeat split; try congruence; lia.
Qed.

Lemma checkPlatformCollisions_latch (platforms : list Platform.t) (p : Player.t) :
  Player.jumpPressed (checkPlatformCollisions platforms p) = Player.jumpPressed p
  /\ Player.maxJumps (checkPlatformCollisions platforms p) = Player.maxJumps p
  /\ (Player.jumpCount (checkPlatformCollisions platforms p) <= Player.jumpCount p)%nat.
Proof.
  unfold checkPlatformCollisions.
  assert (Hland : forall q,
    Player.jumpPressed (landOnPlatforms platforms q) = Player.jumpPressed q
    /\ Player.maxJumps (landOnPlatforms platforms q) = Player.maxJumps q
    /\ (Player.jumpCount (landOnPlatforms platforms q) <= Player.jumpCount q)%nat).
  { intros q. unfold landOnPlatforms. destruct (negb (Player.droppingThrough q)).
    - apply fold_landOn_latch.
    - repeat split; lia. }
  destruct (Hland (clearGrounded p)) as (H1 & H2 & H3).
  cbn [clearGrounded Player.jumpPressed Player.maxJumps Player.jumpCount] in H1, H2, H3.
  unfold groundCollision.
  destruct (ltb _ CONFIG.groundY);
    cbn [Player.jumpPressed Player.maxJumps Player.jumpCount];
    repeat split; first [assumption | lia].
Qed.

Lemma horizontalMove_latch (input : SSInput.t) (p : Player.t) :
  Player.jumpPressed (horizontalMove input p) = Player.jumpPressed p
  /\ Player.maxJumps (horizontalMove input p) = Player.maxJumps p
  /\ Player.jumpCount (horizontalMove input p) = Player.jumpCount p
  /\ jumpTriggered input (horizontalMove input p) = jumpTriggered input p.
Proof. repeat split. Qed.

Lemma jumpBlock_latch (input : SSInput.t) (p : Player.t) :
  Player.jumpPressed (jumpBlock input p)
  = Player.jumpPressed p || jumpTriggered input p
  /\ Player.maxJumps (jumpBlock input p) = Player.maxJumps p
  /\ Player.jumpCount (jumpBlock input p)
     = (Player.jumpCount p + (if jumpTriggered input p then 1 else 0))%nat.
Proof.
  unfold jumpBlock. destruct (jumpTriggered input p);
    cbn [Player.jumpPressed Player.maxJumps Player.jumpCount].
  - rewrite orb_true_r. repeat split. lia.
  - rewrite orb_false_r. repeat split. lia.
Qed.

Lemma releaseBlock_latch (input : SSInput.t) (p : Player.t) :
  Player.jumpPressed (releaseBlock input p)
  = (if SSInput.jump input then Player.jumpPressed p else false)
  /\ Player.maxJumps (releaseBlock input p) = Player.maxJumps p
  /\ Player.jumpCount (releaseBlock input p) = Player.jumpCount p.
Proof. unfold releaseBlock. destruct (SSInput.jump input); repeat split. Qed.

Lemma dropBlock_latch (input : SSInput.t) (p : Player.t) :
  Player.jumpPressed (dropBlock input p) = Player.jumpPressed p
  /\ Player.maxJumps (dropBlock input p) = Player.maxJumps p
  /\ Player.jumpCount (dropBlock input p) = Player.jumpCount p.
Proof.
  unfold dropBlock.
  destruct (SSInput.down input && Player.isGrounded p && negb (Player.isOnGround p)),
    (negb (SSInput.down input)); repeat split.
Qed.

Lemma gravityBlock_latch (delta : R) (p : Player.t) :
  Player.jumpPressed (gravityBlock delta p) = Player.jumpPressed p
  /\ Player.maxJumps (gravityBlock delta p) = Player.maxJumps p
  /\ Player.jumpCount (gravityBlock delta p) = Player.jumpCount p.
Proof. repeat split. Qed.

Lemma stepPlayer_latch (platforms : list Platform.t) (input : SSInput.t)
    (delta : R) (p : Player.t) :
  Player.jumpPressed (stepPlayer platforms input delta p)
  = (if SSInput.jump input
     then Player.jumpPressed p || jumpTriggered input p
     else false)
  /\ Player.maxJumps (stepPlayer platforms input delta p) = Player.maxJumps p
  /\ (Player.jumpCount (stepPlayer platforms input delta p)
      <= Player.jumpCount p + (if jumpTriggered input p then 1 else 0))%nat.
Proof.
  unfold stepPlayer.
  destruct (horizontalMove_latch input p) as (A1 & A2 & A3 & A4).
  destruct (jumpBlock_latch input (horizontalMove input p)) as (B1 & B2 & B3).
  destruct (releaseBlock_latch input (jumpBlock input (horizontalMove input p)))
    as (C1 & C2 & C3).
  destruct (dropBlock_latch input
              (releaseBlock input (jumpBlock input (horizontalMove input p))))
    as (D1 & D2 & D3).
  set (q := dropBlock input _) in *.
  destruct (gravityBlock_latch delta q) as (E1 & E2 & E3).
  destruct (checkPlatformCollisions_latch platforms (gravityBlock delta q))
    as (F1 & F2 & F3).
  unfold faceBlock. cbn [Player.jumpPressed Player.maxJumps Player.jumpCount].
  rewrite A4 in B1, B3.
  repeat split.
  - rewrite F1, E1, D1, C1, B1, A1. reflexivity.
  - congruence.
  - lia.
Qed.




Lemma jumpTriggered_inv (input : SSInput.t) (p : Player.t) :
  jumpTriggered input p = true ->
  SSInput.jump input = true
  /\ Player.jumpPressed p = false
  /\ SSInput.down input = false
  /\ (Player.jumpCount p < Player.maxJumps p)%nat.
Proof.
  unfold jumpTriggered. intros H.
  apply andb_prop in H as [H Hcount]. apply andb_prop in H as [H Hdown].
  apply andb_prop in H as [Hjump Hlatch].
  apply negb_true_iff in Hlatch, Hdown. apply Nat.ltb_lt in Hcount. auto.
Qed.


Ltac same_latch_done :=
  unfold sameButLatch;
  cbn [Player.position Player.velocity Player.isGrounded Player.jumpCount
       Player.maxJumps Player.jumpPressed Player.droppingThrough
       Player.isOnGround Player.meshRotationY];
  repeat split.

Lemma sameButLatch_refl (p : Player.t) : sameButLatch p p.
Proof. same_latch_done. Qed.

















(** ** The avatar's part of a frame *)

Lemma distanceTo_lt (m : R) (a b : Vector3) :
  0 < m ->
  (vx a - vx b) * (vx a - vx b) + (vy a - vy b) * (vy a - vy b)
  + (vz a - vz b) * (vz a - vz b) < m * m ->
  V3.distanceTo a b < m.
Proof.
  intros Hm Hsq. unfold V3.distanceTo. cbv zeta.
  rewrite <- (sqrt_square m) by lra.
  apply sqrt_lt_1_alt. split; [|assumption].
  pose proof (Rle_0_sqr (vx a - vx b)) as Hx.
  pose proof (Rle_0_sqr (vy a - vy b)) as Hy.
  pose proof (Rle_0_sqr (vz a - vz b)) as Hz.
  unfold Rsqr in Hx, Hy, Hz. lra.
Qed.

Lemma updateMovement_avatar (t : Tank) (fr : Obj3D.t) (delta : R) :
  frog t = Some fr ->
  let p := clampToTank (config t)
             (V3.add (Obj3D.position fr)
                (V3.multiplyScalar (movementVelocity t delta) delta)) in
  (exists fr', frog (updateMovement t delta) = Some fr'
               /\ Obj3D.position fr' = p)
  /\ frogPosition (updateMovement t delta) = p
  /\ config (updateMovement t delta) = config t
  /\ movement (updateMovement t delta) = movement t
  /\ swimTime (updateMovement t delta) = swimTime t
  /\ allObjects (updateMovement t delta) = allObjects t
  /\ otherFrogs (updateMovement t delta) = otherFrogs t
  /\ multiFrogMode (updateMovement t delta) = multiFrogMode t.
Proof.
  intros Hfrog. unfold updateMovement. rewrite Hfrog. cbv zeta.
  split; [eexists; split; reflexivity|]. repeat split.
Qed.

(** [updateAutopilot] turns the avatar and pushes its velocity; it does not
    move it. *)
Lemma updateAutopilot_avatar (t : Tank) (fr : Obj3D.t) (env : Env.t) :
  frog t = Some fr ->
  (exists fr', frog (updateAutopilot t env) = Some fr'
               /\ Obj3D.position fr' = Obj3D.position fr)
  /\ frogPosition (updateAutopilot t env) = frogPosition t
  /\ config (updateAutopilot t env) = config t
  /\ movement (updateAutopilot t env) = movement t
  /\ otherFrogs (updateAutopilot t env) = otherFrogs t
  /\ multiFrogMode (updateAutopilot t env) = multiFrogMode t.
Proof.
  intros Hfrog. unfold updateAutopilot, realignCamera. rewrite Hfrog.
  repeat break_match; cbn; rewrite ?Hfrog;
    (split; [eexists; split; reflexivity | repeat split]); congruence.
Qed.

Lemma updateFrogAnimation_avatar (t : Tank) (fr : Obj3D.t) (delta : R) :
  frog t = Some fr ->
  let time := if Movement.hasInput (movement t)
              then swimTime t + delta else swimTime t in
  let bob := if Movement.hasInput (movement t)
             then sin (time * (Config.strokeSpeed (config t) * 2)) * 0.05 * delta
             else sin (time * Config.floatSpeed (config t)) * 0.02 * delta in
  let p := V3.set_y (Obj3D.position fr) (vy (Obj3D.position fr) + bob) in
  (exists fr', frog (updateFrogAnimation t delta) = Some fr'
               /\ Obj3D.position fr' = p)
  /\ frogPosition (updateFrogAnimation t delta) = p
  /\ config (updateFrogAnimation t delta) = config t
  /\ otherFrogs (updateFrogAnimation t delta) = otherFrogs t
  /\ multiFrogMode (updateFrogAnimation t delta) = multiFrogMode t.
Proof.
  intros Hfrog. unfold updateFrogAnimation. rewrite Hfrog. cbv zeta.
  split; [eexists; split; reflexivity|]. repeat split.
Qed.

(** Where the avatar is after its part of the frame: the clamped
    integration step, then the bob on the vertical axis. *)
Lemma avatarPhase_position (t : Tank) (fr : Obj3D.t) (env : Env.t) :
  frog t = Some fr ->
  let delta := Env.delta env in
  let p := clampToTank (config t)
             (V3.add (Obj3D.position fr)
                (V3.multiplyScalar (movementVelocity t delta) delta)) in
  let time0 := swimTime (updateAutopilot (updateMovement t delta) env) in
  let time := if Movement.hasInput (movement t) then time0 + delta else time0 in
  let bob := if Movement.hasInput (movement t)
             then sin (time * (Config.strokeSpeed (config t) * 2)) * 0.05 * delta
             else sin (time * Config.floatSpeed (config t)) * 0.02 * delta in
  exists fr', frog (avatarPhase t env) = Some fr'
    /\ frogPosition (avatarPhase t env) = Obj3D.position fr'
    /\ Obj3D.position fr' = V3.set_y p (vy p + bob)
    /\ config (avatarPhase t env) = config t
    /\ otherFrogs (avatarPhase t env) = otherFrogs t
    /\ multiFrogMode (avatarPhase t env) = multiFrogMode t.
Proof.
  intros Hfrog delta p time0 time bob.
  destruct (updateMovement_avatar t fr delta Hfrog)
    as ((fr1 & Hfr1 & Hp1) & _ & Hcfg1 & Hmov1 & _ & _ & Hof1 & Hmf1).
  destruct (updateAutopilot_avatar (updateMovement t delta) fr1 env Hfr1)
    as ((fr2 & Hfr2 & Hp2) & _ & Hcfg2 & Hmov2 & Hof2 & Hmf2).
  destruct (updateFrogAnimation_avatar _ fr2 delta Hfr2)
    as ((fr3 & Hfr3 & Hp3) & Hfp3 & Hcfg3 & Hof3 & Hmf3).
  unfold avatarPhase. fold delta. exists fr3.
  rewrite Hfr3, Hfp3, Hp3, Hcfg3, Hcfg2, Hcfg1, Hmov2, Hmov1, Hp2, Hp1,
    Hof3, Hof2, Hof1, Hmf3, Hmf2, Hmf1.
  repeat split.
Qed.

(** The same with the bob kept abstract: a sine, between -1 and 1, times
    the amplitude of the stroke or of the float. *)
Lemma avatarPhase_position_bob (t : Tank) (fr : Obj3D.t) (env : Env.t) :
  frog t = Some fr ->
  let delta := Env.delta env in
  let p := clampToTank (config t)
             (V3.add (Obj3D.position fr)
                (V3.multiplyScalar (movementVelocity t delta) delta)) in
  exists fr' s,
    -1 <= s <= 1
    /\ frog (avatarPhase t env) = Some fr'
    /\ frogPosition (avatarPhase t env) = Obj3D.position fr'
    /\ Obj3D.position fr'
       = V3.set_y p
           (vy p + s * (if Movement.hasInput (movement t) then 0.05 else 0.02)
                   * delta)
    /\ otherFrogs (avatarPhase t env) = otherFrogs t
    /\ multiFrogMode (avatarPhase t env) = multiFrogMode t.
Proof.
  intros Hfrog delta p.
  destruct (avatarPhase_position t fr env Hfrog)
    as (fr' & Hfr' & Hsync & Hp & _ & Hfrogs & Hmode).
  fold delta in Hp. fold p in Hp.
  destruct (Movement.hasInput (movement t));
    match type of Hp with
    | context [sin ?a] => exists fr', (sin a); pose proof (SIN_bound a)
    end; auto 10.
Qed.


(** ** C7, C1: the sub-agents *)

Lemma indexed_lookup {A : Type} (l : list A) (j : nat) (x : A) :
  In (j, x) (indexed l) <-> l !! j = Some x.
Proof.
  unfold indexed. rewrite <- list_elem_of_In, elem_of_lookup_imap. split.
  - intros (i & y & Heq & Hlook). inversion Heq; subst. assumption.
  - intros Hlook. exists j, x. split; [reflexivity | assumption].
Qed.

(** The two boolean scans of the source say [nearerThan]. *)
Lemma neighbourScan_spec (t : Tank) (i : nat) (p : Vector3) (m : R) :
  ltb (V3.distanceTo p (frogPosition t)) m
  || existsb
       (fun jo : nat * FrogData.t =>
          negb (Nat.eqb (fst jo) i)
          && ltb (V3.distanceTo p (FrogData.position (snd jo))) m)
       (indexed (otherFrogs t)) = true
  <-> nearerThan m t i p.
Proof.
  unfold nearerThan. rewrite orb_true_iff, ltb_lt, existsb_exists. split.
  - intros [Hav | ((j & other) & Hin & Hcond)]; [left; assumption | right].
    apply indexed_lookup in Hin. cbn [fst snd] in Hcond.
    apply andb_prop in Hcond as [Hne Hlt].
    apply negb_true_iff, Nat.eqb_neq in Hne. apply ltb_lt in Hlt.
    exists j, other. auto.
  - intros [Hav | (j & other & Hne & Hlook & Hlt)]; [left; assumption | right].
    exists (j, other). split; [apply indexed_lookup; assumption|].
    cbn [fst snd]. apply andb_true_intro. split.
    + apply negb_true_iff, Nat.eqb_neq. assumption.
    + apply ltb_lt. assumption.
Qed.

Lemma checkMinimumSeparation_spec (t : Tank) (i : nat) (fd : FrogData.t) :
  checkMinimumSeparation t i fd = true
  <-> nearerThan (FrogData.minSeparation fd) t i (FrogData.position fd).
Proof. apply neighbourScan_spec. Qed.

Lemma wouldCauseOverlap_spec (t : Tank) (i : nat) (fd : FrogData.t) (p : Vector3) :
  wouldCauseOverlap t i fd p = true
  <-> nearerThan (FrogData.minSeparation fd) t i p.
Proof. apply neighbourScan_spec. Qed.

Lemma add_zero_l (v : Vector3) : V3.add V3.zero v = v.
Proof. apply vec3_eq; cbn; lra. Qed.

(** The stored acceleration after a tick of sub-agent [i]. *)
Lemma updateFrogMovement_acceleration (t : Tank) (i : nat) (fd : FrogData.t)
    (tgt : WorldObject.t) (delta : R) :
  objectAt t (FrogData.target fd) = Some tgt ->
  FrogData.acceleration (updateFrogMovement t i fd delta)
  = V3.multiplyScalar
      (steeringAcceleration t i fd (WorldObject.position tgt)) delta.
Proof.
  intros Htgt. unfold updateFrogMovement. rewrite Htgt. cbv zeta.
  destruct (ltb _ 5.0); reflexivity.
Qed.

(** C7.  For a sub-agent [i] that has a target and is moving: when it is
    nearer than [minSeparation] to the avatar or to another sub-agent, the
    acceleration of the tick is 1.5 times the separation force and nothing
    else; otherwise it is 1.0 times the seek force,
    [clampLength(normalize(target - position) * speed - velocity, 0, maxForce)],
    plus 0.8 times the separation force.  The tick stores that acceleration,
    scaled by [delta], in the sub-agent's record. *)
Theorem steering_blend (t : Tank) (i : nat) (fd : FrogData.t)
    (tgt : WorldObject.t) (delta : R) :
  otherFrogs t !! i = Some fd ->
  objectAt t (FrogData.target fd) = Some tgt ->
  FrogData.isMoving fd = true ->
  let tooClose :=
    nearerThan (FrogData.minSeparation fd) t i (FrogData.position fd) in
  let seek :=
    V3.clampLength
      (V3.sub
         (V3.multiplyScalar
            (V3.normalize
               (V3.sub (WorldObject.position tgt) (FrogData.position fd)))
            (FrogData.speed fd))
         (FrogData.velocity fd))
      0 (FrogData.maxForce fd) in
  let separation := calculateSeparation t i fd in
  let acceleration := steeringAcceleration t i fd (WorldObject.position tgt) in
  (tooClose -> acceleration = V3.multiplyScalar separation 1.5)
  /\ (~ tooClose ->
      acceleration
      = V3.add (V3.multiplyScalar seek 1.0) (V3.multiplyScalar separation 0.8))
  /\ exists fd',
       otherFrogs (updateFrogAt delta t i) !! i = Some fd'
       /\ FrogData.acceleration fd' = V3.multiplyScalar acceleration delta.
Proof.
  intros Hlook Htgt Hmoving tooClose seek separation acceleration.
  split; [|split].
  - intros Hclose. apply checkMinimumSeparation_spec in Hclose.
    subst acceleration. unfold steeringAcceleration. rewrite Hclose.
    apply add_zero_l.
  - intros Hfar. subst acceleration. unfold steeringAcceleration.
    destruct (checkMinimumSeparation t i fd) eqn:Hcheck.
    + exfalso. apply Hfar, checkMinimumSeparation_spec. assumption.
    + rewrite add_zero_l. reflexivity.
  - exists (updateFrogMovement t i fd delta). split.
    + unfold updateFrogAt. rewrite Hlook, Hmoving.
      destruct (FrogData.target fd); [|discriminate].
      cbn [truthy andb otherFrogs set_otherFrogs].
      apply list_lookup_insert_eq. apply lookup_lt_Some in Hlook. assumption.
    + apply updateFrogMovement_acceleration. assumption.
Qed.

(** *** The separation of the sub-agents *)

(** [separated] reads the avatar's recorded position and the sub-agents'
    positions, nothing else. *)
Lemma separated_ext (m : R) (t1 t2 : Tank) :
  frogPosition t1 = frogPosition t2 ->
  (forall i, option_map FrogData.position (otherFrogs t1 !! i)
             = option_map FrogData.position (otherFrogs t2 !! i)) ->
  separated m t1 -> separated m t2.
Proof.
  intros Hav Hpos Hsep i fd2 Hlook2 Hnear.
  pose proof (Hpos i) as Hi. rewrite Hlook2 in Hi.
  destruct (otherFrogs t1 !! i) as [fd1|] eqn:Hlook1; [|discriminate].
  cbn in Hi. inversion Hi as [Hp].
  apply (Hsep i fd1 Hlook1). rewrite Hp.
  destruct Hnear as [Hnear | (j & other2 & Hne & Hj2 & Hlt)].
  - left. rewrite Hav. assumption.
  - right. pose proof (Hpos j) as Hj. rewrite Hj2 in Hj.
    destruct (otherFrogs t1 !! j) as [other1|] eqn:Hj1; [|discriminate].
    cbn in Hj. inversion Hj as [Hq].
    exists j, other1. rewrite Hq. auto.
Qed.

(** A tick of a sub-agent either leaves it where it was or moves it to a
    place that passed the overlap guard; its [minSeparation] stays. *)
Lemma updateFrogMovement_position (t : Tank) (i : nat) (fd : FrogData.t)
    (delta : R) :
  let fd' := updateFrogMovement t i fd delta in
  FrogData.minSeparation fd' = FrogData.minSeparation fd
  /\ (FrogData.position fd' = FrogData.position fd
      \/ wouldCauseOverlap t i fd (FrogData.position fd') = false).
Proof.
  unfold updateFrogMovement.
  destruct (objectAt t (FrogData.target fd)) as [tgt|]; [|cbv zeta; auto].
  cbv zeta.
  set (v2 := if gtb _ (FrogData.speed fd) then _ else _).
  set (newPosition := V3.add (FrogData.position fd) (V3.multiplyScalar v2 delta)).
  destruct (wouldCauseOverlap t i fd newPosition) eqn:Hoverlap;
    destruct (ltb _ 5.0);
    cbn [FrogData.minSeparation FrogData.position]; auto.
Qed.

Lemma updateFrogAt_separated (m delta : R) (t : Tank) (i : nat) :
  Forall (fun fd => m <= FrogData.minSeparation fd) (otherFrogs t) ->
  separated m t ->
  Forall (fun fd => m <= FrogData.minSeparation fd)
    (otherFrogs (updateFrogAt delta t i))
  /\ frogPosition (updateFrogAt delta t i) = frogPosition t
  /\ length (otherFrogs (updateFrogAt delta t i)) = length (otherFrogs t)
  /\ separated m (updateFrogAt delta t i).
Proof.
  intros Hmin Hsep. unfold updateFrogAt.
  destruct (otherFrogs t !! i) as [fd|] eqn:Hlook; [|auto].
  destruct (truthy (FrogData.target fd) && FrogData.isMoving fd); [|auto].
  destruct (updateFrogMovement_position t i fd delta) as (Hms & Hpos).
  set (fd' := updateFrogMovement t i fd delta) in *.
  assert (Hi : (i < length (otherFrogs t))%nat) by (eapply lookup_lt_Some; eassumption).
  assert (Hfd : m <= FrogData.minSeparation fd).
  { rewrite Forall_forall in Hmin. apply Hmin.
    eapply list_elem_of_lookup_2. eassumption. }
  cbn [otherFrogs frogPosition set_otherFrogs].
  split; [|split; [reflexivity|split; [apply length_insert|]]].
  { apply Forall_insert; [assumption | lra]. }
  (* the place of sub-agent [i] after the tick is at least [m] from all *)
  assert (Hnew : ~ nearerThan m t i (FrogData.position fd')).
  { destruct Hpos as [-> | Hguard]; [apply (Hsep i fd Hlook)|].
    intros Hnear. apply not_true_iff_false in Hguard. apply Hguard.
    apply wouldCauseOverlap_spec.
    destruct Hnear as [Hav | (j & other & Hne & Hj & Hlt)]; [left; lra|].
    right. exists j, other. repeat split; [assumption | assumption | lra]. }
  intros a fa Ha Hnear.
  cbn [otherFrogs frogPosition set_otherFrogs] in Ha.
  unfold nearerThan in Hnear. cbn [otherFrogs frogPosition set_otherFrogs] in Hnear.
  destruct (decide (a = i)) as [-> | Hai].
  - rewrite list_lookup_insert_eq in Ha by assumption. inversion Ha; subst fa.
    apply Hnew. destruct Hnear as [Hav | (j & other & Hne & Hj & Hlt)]; [left; assumption|].
    right. rewrite list_lookup_insert_ne in Hj by congruence.
    exists j, other. auto.
  - rewrite list_lookup_insert_ne in Ha by congruence.
    destruct Hnear as [Hav | (j & other & Hne & Hj & Hlt)].
    + apply (Hsep a fa Ha). left. assumption.
    + destruct (decide (j = i)) as [-> | Hji].
      * rewrite list_lookup_insert_eq in Hj by assumption. inversion Hj; subst other.
        apply Hnew. right. exists a, fa. rewrite distanceTo_sym. auto.
      * rewrite list_lookup_insert_ne in Hj by congruence.
        apply (Hsep a fa Ha). right. exists j, other. auto.
Qed.

Lemma updateAdditionalFrogs_separated (m delta : R) (t : Tank) :
  Forall (fun fd => m <= FrogData.minSeparation fd) (otherFrogs t) ->
  separated m t ->
  frogPosition (updateAdditionalFrogs t delta) = frogPosition t
  /\ separated m (updateAdditionalFrogs t delta).
Proof.
  intros Hmin Hsep. unfold updateAdditionalFrogs.
  destruct (negb (multiFrogMode t)); [auto|].
  generalize (seq 0 (length (otherFrogs t))). intros l.
  assert (H : forall t0,
            Forall (fun fd => m <= FrogData.minSeparation fd) (otherFrogs t0) ->
            separated m t0 ->
            frogPosition (fold_left (updateFrogAt delta) l t0) = frogPosition t0
            /\ separated m (fold_left (updateFrogAt delta) l t0)).
  { induction l as [|i l IH]; intros t0 Hmin0 Hsep0; cbn [fold_left]; [auto|].
    destruct (updateFrogAt_separated m delta t0 i Hmin0 Hsep0) as (H1 & H2 & _ & H4).
    destruct (IH _ H1 H4) as (H5 & H6). split; [congruence | assumption]. }
  apply H; assumption.
Qed.

(** *** The sub-agents among themselves *)

Lemma places_lookup (t : Tank) (i : nat) :
  places t !! i
  = option_map (fun fd => (FrogData.position fd, FrogData.minSeparation fd))
      (otherFrogs t !! i).
Proof. unfold places. apply lookup_map. Qed.

(** The separation of the sub-agents among themselves reads their places,
    nothing else. *)
Lemma flock_ext (m : R) (t1 t2 : Tank) :
  places t1 = places t2 ->
  belowMinSeparation m t1 /\ pairwiseSeparated m t1 ->
  belowMinSeparation m t2 /\ pairwiseSeparated m t2.
Proof.
  intros Hpl [Hmin Hpair].
  assert (Hback : forall i f2, otherFrogs t2 !! i = Some f2 ->
            exists f1, otherFrogs t1 !! i = Some f1
              /\ FrogData.position f1 = FrogData.position f2
              /\ FrogData.minSeparation f1 = FrogData.minSeparation f2).
  { intros i f2 H2. pose proof (places_lookup t1 i) as H1.
    rewrite Hpl, places_lookup, H2 in H1. cbn in H1.
    destruct (otherFrogs t1 !! i) as [f1|]; [|discriminate].
    cbn in H1. inversion H1. exists f1. auto. }
  split.
  - unfold belowMinSeparation in *. rewrite Forall_lookup in Hmin |- *.
    intros i f2 H2. destruct (Hback i f2 H2) as (f1 & H1 & _ & Hms).
    rewrite <- Hms. apply (Hmin i f1 H1).
  - intros i j fi fj Hij Hi Hj.
    destruct (Hback i fi Hi) as (gi & Hgi & Hpi & _).
    destruct (Hback j fj Hj) as (gj & Hgj & Hpj & _).
    rewrite <- Hpi, <- Hpj. apply (Hpair i j gi gj Hij Hgi Hgj).
Qed.

(** The round of one sub-agent keeps every pair apart: it stays, or it
    goes where the overlap guard found no other sub-agent too near. *)
Lemma updateFrogAt_flock (m delta : R) (t : Tank) (i : nat) :
  belowMinSeparation m t -> pairwiseSeparated m t ->
  belowMinSeparation m (updateFrogAt delta t i)
  /\ pairwiseSeparated m (updateFrogAt delta t i).
Proof.
  intros Hmin Hpair. unfold updateFrogAt.
  destruct (otherFrogs t !! i) as [fd|] eqn:Hlook; [|auto].
  destruct (truthy (FrogData.target fd) && FrogData.isMoving fd); [|auto].
  destruct (updateFrogMovement_position t i fd delta) as (Hms & Hpos).
  set (fd' := updateFrogMovement t i fd delta) in *.
  assert (Hi : (i < length (otherFrogs t))%nat)
    by (eapply lookup_lt_Some; eassumption).
  assert (Hfd : m <= FrogData.minSeparation fd).
  { unfold belowMinSeparation in Hmin. rewrite Forall_lookup in Hmin.
    apply (Hmin i fd Hlook). }
  split.
  { unfold belowMinSeparation in *. cbn [otherFrogs set_otherFrogs].
    apply Forall_insert; [assumption | lra]. }
  assert (Hnew : forall j other, j <> i -> otherFrogs t !! j = Some other ->
            m <= V3.distanceTo (FrogData.position fd') (FrogData.position other)).
  { intros j other Hne Hj. destruct Hpos as [-> | Hguard].
    - apply (Hpair i j fd other); [congruence | assumption | assumption].
    - destruct (Rle_dec m (V3.distanceTo (FrogData.position fd')
                             (FrogData.position other))) as [Hle | Hn];
        [assumption|].
      exfalso. apply not_true_iff_false in Hguard. apply Hguard.
      apply wouldCauseOverlap_spec. right. exists j, other.
      split; [assumption|]. split; [assumption | lra]. }
  intros a b fa fb Hab Ha Hb. cbn [otherFrogs set_otherFrogs] in Ha, Hb.
  destruct (decide (a = i)) as [-> | Hai].
  - rewrite list_lookup_insert_eq in Ha by assumption. inversion Ha; subst fa.
    rewrite list_lookup_insert_ne in Hb by congruence.
    apply (Hnew b fb); [congruence | assumption].
  - rewrite list_lookup_insert_ne in Ha by congruence.
    destruct (decide (b = i)) as [-> | Hbi].
    + rewrite list_lookup_insert_eq in Hb by assumption. inversion Hb; subst fb.
      rewrite distanceTo_sym. apply (Hnew a fa); assumption.
    + rewrite list_lookup_insert_ne in Hb by congruence.
      apply (Hpair a b fa fb); assumption.
Qed.

Lemma updateAdditionalFrogs_flock (m delta : R) (t : Tank) :
  belowMinSeparation m t -> pairwiseSeparated m t ->
  belowMinSeparation m (updateAdditionalFrogs t delta)
  /\ pairwiseSeparated m (updateAdditionalFrogs t delta).
Proof.
  intros Hmin Hpair. unfold updateAdditionalFrogs.
  destruct (negb (multiFrogMode t)); [auto|].
  generalize (seq 0 (length (otherFrogs t))). intros l.
  revert t Hmin Hpair. induction l as [|i l IH]; intros t Hmin Hpair;
    cbn [fold_left]; [auto|].
  destruct (updateFrogAt_flock m delta t i Hmin Hpair) as (H1 & H2).
  apply IH; assumption.
Qed.

(** *** A sub-agent and the avatar *)

Lemma fold_updateFrogAt_other (delta : R) (l : list nat) (t : Tank) (i : nat) :
  ~ In i l ->
  otherFrogs (fold_left (updateFrogAt delta) l t) !! i = otherFrogs t !! i.
Proof.
  revert t. induction l as [|j l IH]; intros t Hnin; cbn [fold_left];
    [reflexivity|].
  rewrite IH by (intros H; apply Hnin; right; assumption).
  unfold updateFrogAt. destruct (otherFrogs t !! j) as [fj|]; [|reflexivity].
  destruct (truthy (FrogData.target fj) && FrogData.isMoving fj); [|reflexivity].
  cbn [otherFrogs set_otherFrogs]. apply list_lookup_insert_ne.
  intros ->. apply Hnin. left. reflexivity.
Qed.

Lemma updateFrogAt_frogPosition (delta : R) (t : Tank) (i : nat) :
  frogPosition (updateFrogAt delta t i) = frogPosition t.
Proof. destruct (updateFrogAt_frame delta t i) as [l ->]. reflexivity. Qed.

(** In the loop of [updateAdditionalFrogs] a sub-agent stays where it is,
    or goes where the overlap guard found the avatar's recorded position
    no nearer than its [minSeparation]. *)
Lemma fold_updateFrogAt_own (delta : R) (l : list nat) :
  NoDup l ->
  forall (t : Tank) (i : nat) (fd : FrogData.t),
  otherFrogs t !! i = Some fd ->
  exists fd',
    otherFrogs (fold_left (updateFrogAt delta) l t) !! i = Some fd'
    /\ (FrogData.position fd' = FrogData.position fd
        \/ FrogData.minSeparation fd
           <= V3.distanceTo (FrogData.position fd') (frogPosition t)).
Proof.
  induction l as [|j l IH]; intros Hnd t i fd Hlook; cbn [fold_left].
  { exists fd. auto. }
  apply NoDup_cons in Hnd as [Hj Hnd].
  destruct (decide (i = j)) as [-> | Hij].
  - rewrite fold_updateFrogAt_other
      by (intros Hin; apply Hj; apply list_elem_of_In; exact Hin).
    unfold updateFrogAt. rewrite Hlook.
    destruct (truthy (FrogData.target fd) && FrogData.isMoving fd);
      [|exists fd; auto].
    cbn [otherFrogs set_otherFrogs].
    rewrite list_lookup_insert_eq by (eapply lookup_lt_Some; eassumption).
    eexists. split; [reflexivity|].
    destruct (updateFrogMovement_position t j fd delta) as (_ & [Hs | Hg]);
      [left; assumption | right].
    destruct (Rle_dec (FrogData.minSeparation fd)
                (V3.distanceTo
                   (FrogData.position (updateFrogMovement t j fd delta))
                   (frogPosition t))) as [Hle | Hn]; [assumption|].
    exfalso. apply not_true_iff_false in Hg. apply Hg.
    apply wouldCauseOverlap_spec. left. lra.
  - assert (Hsame : otherFrogs (updateFrogAt delta t j) !! i = Some fd).
    { unfold updateFrogAt. destruct (otherFrogs t !! j) as [fj|]; [|assumption].
      destruct (truthy (FrogData.target fj) && FrogData.isMoving fj); [|assumption].
      cbn [otherFrogs set_otherFrogs].
      rewrite list_lookup_insert_ne by congruence. assumption. }
    destruct (IH Hnd _ i fd Hsame) as (fd' & Hfd' & Hcase).
    rewrite updateFrogAt_frogPosition in Hcase. exists fd'. auto.
Qed.

Lemma updateAdditionalFrogs_own (t : Tank) (delta : R) (i : nat)
    (fd : FrogData.t) :
  otherFrogs t !! i = Some fd ->
  exists fd',
    otherFrogs (updateAdditionalFrogs t delta) !! i = Some fd'
    /\ (FrogData.position fd' = FrogData.position fd
        \/ FrogData.minSeparation fd
           <= V3.distanceTo (FrogData.position fd') (frogPosition t)).
Proof.
  intros Hlook. unfold updateAdditionalFrogs.
  destruct (negb (multiFrogMode t)); [exists fd; auto|].
  apply fold_updateFrogAt_own; [apply NoDup_seq | assumption].
Qed.

(** The avatar's part of the frame does not touch the sub-agents, and
    leaves a missing avatar missing. *)
Lemma avatarPhase_otherFrogs (t : Tank) (env : Env.t) :
  otherFrogs (avatarPhase t env) = otherFrogs t
  /\ (frog t = None ->
      frog (avatarPhase t env) = None
      /\ frogPosition (avatarPhase t env) = frogPosition t).
Proof.
  assert (Hmove : forall u d, otherFrogs (updateMovement u d) = otherFrogs u
                  /\ (frog u = None -> updateMovement u d = u)).
  { intros u d. unfold updateMovement. destruct (frog u); auto. split; auto.
    discriminate. }
  assert (Hauto : forall u, otherFrogs (updateAutopilot u env) = otherFrogs u
                  /\ (frog u = None -> updateAutopilot u env = u)).
  { intros u. split.
    - unfold updateAutopilot, realignCamera.
      repeat break_match; cbn; congruence.
    - intros Hnone. unfold updateAutopilot. rewrite Hnone. reflexivity. }
  assert (Hanim : forall u d, otherFrogs (updateFrogAnimation u d) = otherFrogs u
                  /\ (frog u = None -> updateFrogAnimation u d = u)).
  { intros u d. unfold updateFrogAnimation. destruct (frog u); auto. split; auto.
    discriminate. }
  unfold avatarPhase. split.
  - destruct (Hanim (updateAutopilot (updateMovement t (Env.delta env)) env)
                (Env.delta env)) as [-> _].
    destruct (Hauto (updateMovement t (Env.delta env))) as [-> _].
    apply Hmove.
  - intros Hnone.
    destruct (Hmove t (Env.delta env)) as [_ ->]; [|assumption].
    destruct (Hauto t) as [_ ->]; [|assumption].
    destruct (Hanim t (Env.delta env)) as [_ ->]; [|assumption]. auto.
Qed.

Section FlockFrame.
Context {ops : CameraOps}.

Lemma animate_open_water (t : Tank) (env : Env.t) :
  sideScrollerMode t = false ->
  animate t env
  = checkCollisions
      (updateEnvironment
        (updateObjectSelection
          (updateCameraPosition
            (updateAdditionalFrogs (avatarPhase t env) (Env.delta env))))).
Proof.
  intros Hmode. unfold animate, schedule. rewrite Hmode. reflexivity.
Qed.

(** What the calls after the sub-agent update leave alone: the avatar, its
    recorded position, the configuration, and where each sub-agent is. *)
Lemma frame_tail (t : Tank) :
  let t' := checkCollisions
              (updateEnvironment (updateObjectSelection (updateCameraPosition t))) in
  frog t' = frog t
  /\ frogPosition t' = frogPosition t
  /\ config t' = config t
  /\ forall i, option_map FrogData.position (otherFrogs t' !! i)
               = option_map FrogData.position (otherFrogs t !! i).
Proof.
  cbv zeta.
  assert (Hcoll : forall u, frog (checkCollisions u) = frog u
                  /\ frogPosition (checkCollisions u) = frogPosition u
                  /\ config (checkCollisions u) = config u
                  /\ otherFrogs (checkCollisions u) = otherFrogs u).
  { intros u. unfold checkCollisions. destruct (frog u) eqn:Hfrog; cbn; auto. }
  assert (Hcam : frog (updateCameraPosition t) = frog t
                 /\ frogPosition (updateCameraPosition t) = frogPosition t
                 /\ config (updateCameraPosition t) = config t
                 /\ otherFrogs (updateCameraPosition t) = otherFrogs t).
  { unfold updateCameraPosition. destruct (frog t) eqn:Hfrog; cbn; auto. }
  assert (Hsel : forall u, frog (updateObjectSelection u) = frog u
                 /\ frogPosition (updateObjectSelection u) = frogPosition u
                 /\ config (updateObjectSelection u) = config u
                 /\ forall i, option_map FrogData.position
                                (otherFrogs (updateObjectSelection u) !! i)
                              = option_map FrogData.position (otherFrogs u !! i)).
  { intros u. unfold updateObjectSelection.
    destruct (frog u) as [fr|] eqn:Hfrog; [|auto].
    destruct (bool_decide _); [auto|].
    destruct (bestObject u fr) as [folder|]; [|auto].
    unfold makeFrogsSwimToFolder.
    cbn [multiFrogMode set_selectedObject otherFrogs frog frogPosition config].
    destruct (negb (multiFrogMode u));
      cbn [multiFrogMode set_selectedObject set_otherFrogs otherFrogs frog
           frogPosition config];
      repeat split; try assumption.
    intros i. rewrite lookup_map. destruct (otherFrogs u !! i); reflexivity. }
  destruct (Hcoll (updateEnvironment (updateObjectSelection (updateCameraPosition t))))
    as (-> & -> & -> & ->).
  cbn [updateEnvironment frog frogPosition otherFrogs config set_allObjects].
  destruct (Hsel (updateCameraPosition t)) as (-> & -> & -> & Hpos).
  destruct Hcam as (-> & -> & -> & Hfrogs).
  repeat split. intros i. rewrite Hpos, Hfrogs. reflexivity.
Qed.

(** What the calls after the sub-agent update do to the sub-agents: they
    may send them to a folder, and leave each where it is. *)
Lemma frame_tail_places (t : Tank) :
  places (checkCollisions
            (updateEnvironment (updateObjectSelection (updateCameraPosition t))))
  = places t.
Proof.
  assert (Hcoll : forall u, otherFrogs (checkCollisions u) = otherFrogs u).
  { intros u. unfold checkCollisions. destruct (frog u); reflexivity. }
  assert (Hcam : otherFrogs (updateCameraPosition t) = otherFrogs t).
  { unfold updateCameraPosition. destruct (frog t); reflexivity. }
  assert (Hsel : forall u, places (updateObjectSelection u) = places u).
  { intros u. unfold updateObjectSelection.
    destruct (frog u) as [fr|]; [|reflexivity].
    destruct (bool_decide _); [reflexivity|].
    destruct (bestObject u fr) as [folder|]; [|reflexivity].
    unfold makeFrogsSwimToFolder. cbn [multiFrogMode set_selectedObject].
    destruct (negb (multiFrogMode u)); [reflexivity|].
    unfold places. cbn [otherFrogs set_otherFrogs set_selectedObject].
    rewrite map_map. reflexivity. }
  unfold places at 1. rewrite Hcoll.
  cbn [updateEnvironment otherFrogs set_allObjects].
  fold (places (updateObjectSelection (updateCameraPosition t))).
  rewrite Hsel. unfold places. rewrite Hcam. reflexivity.
Qed.

Lemma animate_places (t : Tank) (env : Env.t) :
  places (animate t env)
  = places (if sideScrollerMode t then t
            else updateAdditionalFrogs (avatarPhase t env) (Env.delta env)).
Proof.
  destruct (sideScrollerMode t) eqn:Hmode.
  - unfold animate, schedule. rewrite Hmode. cbn [fold_left runUpdate].
    unfold places. f_equal. unfold updateSideScroller.
    repeat break_match; reflexivity.
  - rewrite (animate_open_water t env Hmode). apply frame_tail_places.
Qed.

(** One frame keeps the sub-agents apart from each other, whatever the
    avatar does in it. *)
Lemma animate_flock (m : R) (t : Tank) (env : Env.t) :
  belowMinSeparation m t -> pairwiseSeparated m t ->
  belowMinSeparation m (animate t env) /\ pairwiseSeparated m (animate t env).
Proof.
  intros Hmin Hpair.
  eapply flock_ext; [symmetry; apply animate_places|].
  destruct (sideScrollerMode t); [auto|].
  destruct (avatarPhase_otherFrogs t env) as [Hsame _].
  apply updateAdditionalFrogs_flock.
  - unfold belowMinSeparation. rewrite Hsame. assumption.
  - unfold pairwiseSeparated. rewrite Hsame. assumption.
Qed.

Lemma run_flock (m : R) (frames : list Frame.t) (t : Tank) :
  belowMinSeparation m t -> pairwiseSeparated m t ->
  belowMinSeparation m (run t frames) /\ pairwiseSeparated m (run t frames).
Proof.
  revert t. unfold run.
  induction frames as [|f frames IH]; intros t Hmin Hpair; cbn [fold_left];
    [auto|].
  destruct (animate_flock m
              (set_sideScrollerInput (Frame.input f)
                 (set_movement (Frame.movement f) t))
              (Frame.env f)) as (H1 & H2); [exact Hmin | exact Hpair |].
  apply IH; assumption.
Qed.

(** Where the avatar's recorded position is at the end of an open-water
    frame: where its part of the frame left it, on the avatar. *)
Lemma animate_frogPosition (t : Tank) (env : Env.t) :
  sideScrollerMode t = false ->
  frogPosition (animate t env) = frogPosition (avatarPhase t env)
  /\ avatarSynced (animate t env).
Proof.
  intros Hmode. rewrite (animate_open_water t env Hmode).
  destruct (frame_tail (updateAdditionalFrogs (avatarPhase t env) (Env.delta env)))
    as (Hfrog & Hpos & _ & _).
  destruct (updateAdditionalFrogs_frame (avatarPhase t env) (Env.delta env))
    as [l Hl].
  rewrite Hl in Hfrog, Hpos. cbn [frog frogPosition set_otherFrogs] in Hfrog, Hpos.
  rewrite Hl. split; [exact Hpos|].
  intros fr Hfr. rewrite Hfrog in Hfr. rewrite Hpos.
  destruct (frog t) as [fr0|] eqn:Hfrog0.
  - destruct (avatarPhase_position t fr0 env Hfrog0) as (fr' & Hfr' & Hsync & _).
    rewrite Hfr' in Hfr. inversion Hfr; subst fr. exact Hsync.
  - destruct (avatarPhase_otherFrogs t env) as [_ Hnone].
    destruct (Hnone Hfrog0) as [Hnone' _]. congruence.
Qed.

(** In one frame a sub-agent stays where it is, or goes where the avatar's
    recorded position is no nearer than its [minSeparation]. *)
Lemma animate_own (t : Tank) (env : Env.t) (i : nat) (fd : FrogData.t) :
  otherFrogs t !! i = Some fd ->
  exists fd',
    otherFrogs (animate t env) !! i = Some fd'
    /\ (FrogData.position fd' = FrogData.position fd
        \/ FrogData.minSeparation fd
           <= V3.distanceTo (FrogData.position fd')
                (frogPosition (animate t env))).
Proof.
  intros Hlook.
  assert (Hplace : forall u fu,
            places (animate t env) = places u ->
            otherFrogs u !! i = Some fu ->
            exists fd', otherFrogs (animate t env) !! i = Some fd'
              /\ FrogData.position fd' = FrogData.position fu).
  { intros u fu Hpl Hu. pose proof (places_lookup u i) as H1.
    rewrite <- Hpl, places_lookup, Hu in H1.
    destruct (otherFrogs (animate t env) !! i) as [fd'|]; [|discriminate].
    cbn in H1. inversion H1. exists fd'. auto. }
  pose proof (animate_places t env) as Hpl.
  destruct (sideScrollerMode t) eqn:Hmode.
  - destruct (Hplace t fd Hpl Hlook) as (fd' & Hfd' & Hp). exists fd'. auto.
  - destruct (avatarPhase_otherFrogs t env) as [Hsame _].
    destruct (updateAdditionalFrogs_own (avatarPhase t env) (Env.delta env) i fd)
      as (f1 & Hf1 & Hcase); [rewrite Hsame; assumption|].
    destruct (Hplace _ f1 Hpl Hf1) as (fd' & Hfd' & Hp).
    exists fd'. split; [assumption|]. rewrite Hp.
    destruct (animate_frogPosition t env Hmode) as [-> _]. exact Hcase.
Qed.

(** C1, as amended.  The sub-agents keep the separation; the avatar is
    not held to it.  Let [m] be at most the [minSeparation] of every
    sub-agent, and any two sub-agents at least [m] apart.  Then after any
    run of frames, in either mode and whatever the avatar does, any two
    sub-agents are still at least [m] apart.  In one frame a sub-agent
    either stays where it is or ends at least its [minSeparation] from the
    avatar's recorded position, which at the end of an open-water frame is
    where the avatar is; so if, once the avatar has moved in the frame,
    every sub-agent is at least [m] from it and from the others, this still
    holds after [updateAdditionalFrogs] and at the end of the frame.  (The
    avatar's own movement is not held back by the sub-agents.) *)
Theorem sub_agents_keep_separation (m : R) (t : Tank) (frames : list Frame.t)
    (env : Env.t) :
  belowMinSeparation m t ->
  pairwiseSeparated m t ->
  (belowMinSeparation m (run t frames) /\ pairwiseSeparated m (run t frames))
  /\ (forall i fd,
        otherFrogs t !! i = Some fd ->
        exists fd',
          otherFrogs (animate t env) !! i = Some fd'
          /\ (FrogData.position fd' = FrogData.position fd
              \/ FrogData.minSeparation fd
                 <= V3.distanceTo (FrogData.position fd')
                      (frogPosition (animate t env))))
  /\ (sideScrollerMode t = false -> avatarSynced (animate t env))
  /\ (sideScrollerMode t = false ->
      separated m (avatarPhase t env) ->
      separated m (updateAdditionalFrogs (avatarPhase t env) (Env.delta env))
      /\ separated m (animate t env)
      /\ frogPosition (animate t env) = frogPosition (avatarPhase t env)).
Proof.
  intros Hmin Hpair.
  split; [apply run_flock; assumption|].
  split; [intros i fd; apply animate_own|].
  split; [intros Hmode; apply animate_frogPosition; assumption|].
  intros Hmode Hsep.
  assert (Hmin' : Forall (fun fd => m <= FrogData.minSeparation fd)
                    (otherFrogs (avatarPhase t env))).
  { destruct (avatarPhase_otherFrogs t env) as [-> _]. exact Hmin. }
  destruct (updateAdditionalFrogs_separated m (Env.delta env) _ Hmin' Hsep)
    as (Hav & Hafter).
  rewrite (animate_open_water t env Hmode).
  destruct (frame_tail (updateAdditionalFrogs (avatarPhase t env) (Env.delta env)))
    as (_ & Hpos & _ & Hfrogs).
  split; [assumption|]. split; [|congruence].
  eapply separated_ext; [| |exact Hafter].
  - symmetry. exact Hpos.
  - intros i. symmetry. apply Hfrogs.
Qed.

End FlockFrame.

(** The invariant of C1 fails on the avatar's side.  With flocking on, an
    idle sub-agent at its spawn point and the avatar 1.5 units away,
    drifting towards it with no key held: the separation holds before the
    frame, and at the end of one frame of 0.1 s the avatar is less than 1.2
    units from the sub-agent, whatever the camera does. *)
Lemma avatar_drifts_into_sub_agent :
  let env := Env.mk 0.1 1000 0.5 in
  multiFrogMode driftTank = true
  /\ separated 1.5 driftTank
  /\ avatarSynced driftTank
  /\ forall ops : CameraOps,
       exists fr fd,
         frog (animate driftTank env) = Some fr
         /\ frogPosition (animate driftTank env) = Obj3D.position fr
         /\ otherFrogs (animate driftTank env) !! 0%nat = Some fd
         /\ V3.distanceTo (FrogData.position fd) (Obj3D.position fr) < 1.5 - 0.3.
Proof.
  intros env. split; [reflexivity|]. split; [|split].
  - intros i fd Hlook Hnear. destruct i as [|i]; [|discriminate].
    cbn in Hlook. inversion Hlook; subst fd. clear Hlook.
    destruct Hnear as [Hav | (j & other & Hne & Hj & _)].
    + cbn in Hav. rewrite distanceTo_along_x in Hav.
      unfold Rabs in Hav. destruct (Rcase_abs _); lra.
    + destruct j as [|j]; [congruence | discriminate].
  - intros fr Hfr. cbn in Hfr. inversion Hfr. reflexivity.
  - intros ops. rewrite animate_open_water by reflexivity.
    destruct (avatarPhase_position_bob driftTank
                (Obj3D.mk (vec3 19.5 10 0) (euler3 0 PI 0)) env eq_refl)
      as (fr & s & Hs & Hfr & Hsync & Hp & Hfrogs0 & Hmode).
    set (moved := avatarPhase driftTank env) in *.
    assert (Hidle : updateAdditionalFrogs moved (Env.delta env) = moved).
    { unfold updateAdditionalFrogs. rewrite Hmode, Hfrogs0.
      cbn [length seq fold_left driftTank otherFrogs multiFrogMode
           set_otherFrogs set_multiFrogMode negb].
      unfold updateFrogAt. rewrite Hfrogs0. reflexivity. }
    rewrite Hidle.
    destruct (frame_tail moved) as (Hfrog & Hpos & _ & Hfrogs).
    rewrite Hfrog, Hpos. specialize (Hfrogs 0%nat).
    rewrite Hfrogs0 in Hfrogs.
    match type of Hfrogs with
    | option_map _ ?o = _ => destruct o as [fd|]; [|discriminate]
    end.
    cbn in Hfrogs. inversion Hfrogs as [Hfdpos].
    exists fr, fd. repeat split; try assumption.
    rewrite Hfdpos, Hp. clear - Hs.
    apply distanceTo_lt; [lra|].
    cbn. unfold Rmax, Rmin. repeat (destruct (Rle_dec _ _)); try lra. nra.
Qed.

Lemma sub_agents_keep_separation_witness :
  let env := Env.mk 0.016 1000 0.5 in
  let f := Frame.mk Movement.none SSInput.none env in
  pairwiseSeparated 1.5 (@run fixedCamera pairTank [f; f; f])
  /\ (exists fd',
        otherFrogs (@animate fixedCamera pairTank env) !! 1%nat = Some fd'
        /\ (FrogData.position fd' = vec3 20 10 0
            \/ 1.5 <= V3.distanceTo (FrogData.position fd')
                        (frogPosition (@animate fixedCamera pairTank env))))
  /\ separated 1.5 (@animate fixedCamera pairTank env).
Proof.
  intros env f.
  assert (Hd : 1.5 <= Rabs (18 - 20) /\ 1.5 <= Rabs (20 - 18)).
  { unfold Rabs. destruct (Rcase_abs (18 - 20)), (Rcase_abs (20 - 18)); lra. }
  destruct (@sub_agents_keep_separation fixedCamera 1.5 pairTank [f; f; f] env)
    as ((_ & Hpair) & Hown & _ & Hframe).
  - repeat constructor; cbn [subAgent FrogData.minSeparation]; lra.
  - intros i j fi fj Hij Hi Hj.
    destruct i as [|[|i]], j as [|[|j]]; try congruence; try discriminate;
      cbn in Hi, Hj; inversion Hi; inversion Hj; subst fi fj;
      cbn [subAgent FrogData.position]; rewrite distanceTo_along_x; apply Hd.
  - split; [exact Hpair|]. split.
    { apply (Hown 1%nat (subAgent (vec3 20 10 0) (Some 0%nat) true)).
      reflexivity. }
    apply Hframe; [reflexivity|].
    destruct (avatarPhase_position_bob pairTank
                (Obj3D.mk (vec3 0 0 0) (euler3 0 PI 0)) env eq_refl)
      as (fr & s & Hs & Hfr & Hsync & Hp & Hfrogs & _).
    intros i fd Hlook Hnear. rewrite Hfrogs in Hlook.
    destruct Hnear as [Hnear | (j & other & Hne & Hj & Hlt)].
    + assert (Hfar : 1.5 <= V3.distanceTo (FrogData.position fd)
                              (frogPosition (avatarPhase pairTank env))); [|lra].
      rewrite Hsync, Hp. clear - Hs Hlook.
      destruct i as [|[|i]]; try discriminate;
        cbn in Hlook; inversion Hlook; subst fd;
        cbn [subAgent FrogData.position];
        (apply distanceTo_ge; [lra|]); cbn;
        unfold Rmax, Rmin; repeat (destruct (Rle_dec _ _)); try lra;
        pose proof (Rle_0_sqr (10 - (0 + (0 - 0 * (6 * 0.5) * 0.016) * 0.016
                                     + s * 0.02 * 0.016))) as Hy;
        unfold Rsqr in Hy; lra.
    + rewrite Hfrogs in Hj.
      destruct i as [|[|i]], j as [|[|j]]; try congruence; try discriminate;
        cbn in Hlook, Hj; inversion Hlook; inversion Hj; subst fd other;
        cbn [subAgent FrogData.position] in Hlt;
        rewrite distanceTo_along_x in Hlt; lra.
Defined.

Lemma steering_blend_witness :
  let agent := subAgent (vec3 18 10 0) (Some 0%nat) true in
  let target := vec3 (-20) 0 (-25) in
  steeringAcceleration flockTank 0 agent target
  = V3.add (V3.multiplyScalar (calculateSeek agent target) 1.0)
           (V3.multiplyScalar (calculateSeparation flockTank 0 agent) 0.8).
Proof.
  intros agent target.
  destruct (steering_blend flockTank 0 agent
              (WorldObject.mk target 0 Folder) 0.016) as (_ & Hfar & _).
  - reflexivity.
  - reflexivity.
  - reflexivity.
  - apply Hfar. intros [Hnear | (j & other & Hne & Hj & _)].
    + assert (Hd : 1.5 <= V3.distanceTo (vec3 18 10 0) (vec3 0 0 0))
        by (apply distanceTo_ge; cbn; lra).
      cbn in Hnear. cbn in Hd. lra.
    + destruct j as [|j]; [congruence | discriminate].
Defined.


(** ** C2: the tank bounds *)

Lemma clampToTank_bounds (cfg : Config.t) (p : Vector3) :
  0 <= Config.width cfg ->
  Config.floorY cfg <= Config.ceilingY cfg ->
  let q := clampToTank cfg p in
  - Config.width cfg <= vx q <= Config.width cfg
  /\ - Config.width cfg <= vz q <= Config.width cfg
  /\ Config.floorY cfg <= vy q <= Config.ceilingY cfg.
Proof.
  intros Hw Hy. cbn. Rminmax.
Qed.

Section Bounds.
Context {ops : CameraOps}.

(** Where the avatar is at the end of an open-water frame: where its own
    part of the frame left it. *)
Lemma animate_avatar (t : Tank) (env : Env.t) :
  sideScrollerMode t = false ->
  frog (animate t env) = frog (avatarPhase t env)
  /\ frogPosition (animate t env) = frogPosition (avatarPhase t env)
  /\ config (animate t env) = config (avatarPhase t env).
Proof.
  intros Hmode. rewrite (animate_open_water t env Hmode).
  destruct (updateAdditionalFrogs_frame (avatarPhase t env) (Env.delta env))
    as (l & Hframe).
  destruct (frame_tail (updateAdditionalFrogs (avatarPhase t env) (Env.delta env)))
    as (Hfrog & Hpos & Hcfg & _).
  rewrite Hfrog, Hpos, Hcfg, Hframe. repeat split.
Qed.

(** C2 at its failing input.  The avatar rests at the ceiling ([y = 15]),
    no key is held, the swimming time is 1 s.  The integration step of
    [updateMovement] clamps it to the ceiling; [updateFrogAnimation] then
    adds the float bob [sin(1 * 0.5) * 0.02 * delta > 0] and nothing clamps
    again: at the end of the frame the avatar is above [ceilingY]. *)
Theorem bob_carries_avatar_past_ceiling :
  let env := Env.mk 0.016 1000 0.5 in
  exists fr0 fr1 fr,
    frog ceilingTank = Some fr0
    /\ vy (Obj3D.position fr0) = Config.ceilingY (config ceilingTank)
    /\ frog (updateMovement ceilingTank (Env.delta env)) = Some fr1
    /\ vy (Obj3D.position fr1) = Config.ceilingY (config ceilingTank)
    /\ frog (animate ceilingTank env) = Some fr
    /\ Config.ceilingY (config ceilingTank) < vy (Obj3D.position fr).
Proof.
  intros env.
  destruct (avatarPhase_position ceilingTank
              (Obj3D.mk (vec3 0 15 0) (euler3 0 PI 0)) env eq_refl)
    as (fr & Hfr & _ & Hp & _).
  destruct (updateMovement_avatar ceilingTank
              (Obj3D.mk (vec3 0 15 0) (euler3 0 PI 0)) (Env.delta env) eq_refl)
    as ((fr1 & Hfr1 & Hp1) & _ & _ & _ & Htime & Hobjs & _).
  rewrite (updateAutopilot_guard (updateMovement ceilingTank (Env.delta env)) env)
    in Hp by (right; rewrite Hobjs; reflexivity).
  rewrite Htime in Hp.
  destruct (animate_avatar ceilingTank env eq_refl) as (Hend & _).
  exists (Obj3D.mk (vec3 0 15 0) (euler3 0 PI 0)), fr1, fr.
  split; [reflexivity|]. split; [reflexivity|]. split; [exact Hfr1|].
  split; [|split; [congruence|]].
  - rewrite Hp1. cbn. Rminmax.
  - rewrite Hp. clear.
    assert (Hsin : 0 < sin (1 * (1 / 2))).
    { apply sin_gt_0; [lra|]. pose proof PI2_1. lra. }
    cbn. revert Hsin. generalize (sin (1 * (1 / 2))). intros s Hs.
    unfold Rmax, Rmin. repeat (destruct (Rle_dec _ _)); try lra; nra.
Qed.

(** X2.  The boundary clamp as the code keeps it.  In an open-water frame with
    the avatar present, [0 <= width] and [floorY <= ceilingY]: after
    [updateMovement] the avatar is within the tank on all three axes; at
    the end of the frame it is within [-width, width] on both horizontal
    axes, and within [floorY, ceilingY] widened by [0.05 * |delta|] (the
    largest bob) on the vertical axis. *)
Theorem clamp_holds_up_to_the_bob (t : Tank) (fr : Obj3D.t) (env : Env.t) :
  sideScrollerMode t = false ->
  frog t = Some fr ->
  0 <= Config.width (config t) ->
  Config.floorY (config t) <= Config.ceilingY (config t) ->
  let w := Config.width (config t) in
  (exists fr1, frog (updateMovement t (Env.delta env)) = Some fr1
     /\ - w <= vx (Obj3D.position fr1) <= w
     /\ - w <= vz (Obj3D.position fr1) <= w
     /\ Config.floorY (config t) <= vy (Obj3D.position fr1)
        <= Config.ceilingY (config t))
  /\ (exists fr', frog (animate t env) = Some fr'
       /\ - w <= vx (Obj3D.position fr') <= w
       /\ - w <= vz (Obj3D.position fr') <= w
       /\ Config.floorY (config t) - 0.05 * Rabs (Env.delta env)
          <= vy (Obj3D.position fr')
          <= Config.ceilingY (config t) + 0.05 * Rabs (Env.delta env)).
Proof.
  intros Hmode Hfrog Hw Hy w.
  set (p := clampToTank (config t)
              (V3.add (Obj3D.position fr)
                 (V3.multiplyScalar (movementVelocity t (Env.delta env))
                    (Env.delta env)))).
  destruct (clampToTank_bounds (config t)
              (V3.add (Obj3D.position fr)
                 (V3.multiplyScalar (movementVelocity t (Env.delta env))
                    (Env.delta env))) Hw Hy) as (Hx & Hz & Hv).
  fold p in Hx, Hz, Hv. split.
  - destruct (updateMovement_avatar t fr (Env.delta env) Hfrog)
      as ((fr1 & Hfr1 & Hp1) & _).
    exists fr1. fold p in Hp1. rewrite Hp1. auto.
  - destruct (avatarPhase_position_bob t fr env Hfrog)
      as (fr' & s & Hs & Hfr' & _ & Hp & _).
    destruct (animate_avatar t env Hmode) as (Hend & _).
    exists fr'. split; [congruence|]. fold p in Hp. rewrite Hp.
    cbn [V3.set_y vx vy vz]. split; [assumption|]. split; [assumption|].
    revert Hs Hv. generalize (vy p), (Env.delta env). clear. intros y delta Hs Hv.
    unfold Rabs. destruct (Rcase_abs delta);
      destruct (Movement.hasInput (movement t)); nra.
Qed.

End Bounds.

Lemma clamp_holds_up_to_the_bob_witness :
  let env := Env.mk 0.016 1000 0.5 in
  exists fr', frog (@animate fixedCamera ceilingTank env) = Some fr'
    /\ -30 <= vx (Obj3D.position fr') <= 30
    /\ -30 <= vz (Obj3D.position fr') <= 30
    /\ -10 - 0.05 * Rabs 0.016 <= vy (Obj3D.position fr')
       <= 15 + 0.05 * Rabs 0.016.
Proof.
  intros env.
  destruct (@clamp_holds_up_to_the_bob fixedCamera ceilingTank
              (Obj3D.mk (vec3 0 15 0) (euler3 0 PI 0)) env) as (_ & H).
  - reflexivity.
  - reflexivity.
  - cbn. lra.
  - cbn. lra.
  - exact H.
Defined.


(** ** C4: the selection *)

Section Selection.
Context {ops : CameraOps}.

Lemma passesGates_spec (t : Tank) (fr : Obj3D.t) (o : WorldObject.t) :
  passesGates t fr o = true <-> withinGates t fr o.
Proof.
  unfold passesGates, withinGates. cbv zeta.
  rewrite !andb_true_iff, !negb_true_iff, !gtb_le, ltb_ge.
  replace (-2.0) with (-2) by lra. tauto.
Qed.

Lemma totalScore_spec (t : Tank) (fr : Obj3D.t) (o : WorldObject.t) :
  totalScore t fr o
  = if eqb0 (V3.distanceTo (Obj3D.position fr) (WorldObject.position o))
    then None else Some (specScore t fr o).
Proof.
  unfold totalScore, frontScore, specScore, specTotal, distanceScore, heightScore.
  cbv zeta. destruct (eqb0 _); [reflexivity|]. f_equal.
  replace 1.0 with 1 by lra. replace (-2.0) with (-2) by lra.
  unfold gtb, ltb. destruct (Rlt_dec 0 _); lra.
Qed.

Lemma selectionStep_cases (t : Tank) (fr : Obj3D.t)
    (best : option nat * option R) (k : nat) (o : WorldObject.t) :
  (scoredCandidate t fr o
   /\ selectionStep t fr best (k, o)
      = if beats (Some (specScore t fr o)) (snd best)
        then (Some k, Some (specScore t fr o)) else best)
  \/ (~ scoredCandidate t fr o /\ selectionStep t fr best (k, o) = best).
Proof.
  unfold selectionStep, scoredCandidate. cbn [fst snd].
  rewrite totalScore_spec.
  destruct (passesGates t fr o) eqn:Hgates.
  - apply passesGates_spec in Hgates.
    destruct (eqb0 _) eqn:Hzero.
    + right. apply eqb0_true in Hzero. split; [tauto|]. reflexivity.
    + left. apply eqb0_false in Hzero. auto.
  - right. split; [|reflexivity]. intros [Hin _].
    apply passesGates_spec in Hin. congruence.
Qed.

Lemma selection_loop_firstBest (t : Tank) (fr : Obj3D.t) (l : list WorldObject.t) :
  firstBest t fr l (fold_left (selectionStep t fr) (indexed l) (None, None)).
Proof.
  induction l as [|x l IH] using rev_ind.
  - cbn. intros j o Hlook. destruct j; discriminate.
  - unfold indexed in *. rewrite imap_app, fold_left_app.
    cbn [imap fold_left]. rewrite Nat.add_0_r.
    set (best := fold_left (selectionStep t fr) (imap pair l) (None, None)) in *.
    assert (Hlast : forall j o, (l ++ [x]) !! j = Some o ->
              l !! j = Some o /\ (j < length l)%nat \/ j = length l /\ o = x).
    { intros j o Hlook. apply lookup_app_Some in Hlook as [Hl | [Hge Hr]].
      - left. split; [assumption|]. eapply lookup_lt_Some. eassumption.
      - right. destruct (j - length l)%nat as [|n] eqn:Hn; [|destruct n; discriminate].
        cbn in Hr. inversion Hr. split; [lia | reflexivity]. }
    assert (Hkeep : forall i o, l !! i = Some o -> (l ++ [x]) !! i = Some o).
    { intros i o Hlook. apply lookup_app_l_Some. assumption. }
    destruct (selectionStep_cases t fr best (length l) x) as [[Hcand ->] | [Hno ->]].
    + destruct best as [[i|] [s|]]; cbn [snd beats]; try contradiction.
      * destruct IH as ((o & Hi & Hoc & Hs) & Hmax).
        assert (Hilt : (i < length l)%nat) by (eapply lookup_lt_Some; eassumption).
        destruct (gtb (specScore t fr x) s) eqn:Hgt.
        -- apply gtb_gt in Hgt. split.
           ++ exists x. split; [|auto]. apply list_lookup_middle. reflexivity.
           ++ intros j o' Hj Hc. destruct (Hlast j o' Hj) as [[Hl Hlt] | [-> ->]].
              ** destruct (Hmax j o' Hl Hc). split; [lra|]. intros _. lra.
              ** split; [lra | lia].
        -- apply gtb_le in Hgt. split.
           ++ exists o. auto.
           ++ intros j o' Hj Hc. destruct (Hlast j o' Hj) as [[Hl Hlt] | [-> ->]].
              ** apply Hmax; assumption.
              ** split; [assumption | lia].
      * split.
        -- exists x. split; [|auto]. apply list_lookup_middle. reflexivity.
        -- intros j o' Hj Hc. destruct (Hlast j o' Hj) as [[Hl Hlt] | [-> ->]].
           ++ exfalso. apply (IH j o' Hl Hc).
           ++ split; [lra | lia].
    + destruct best as [[i|] [s|]]; try contradiction.
      * destruct IH as ((o & Hi & Hoc & Hs) & Hmax). split.
        -- exists o. auto.
        -- intros j o' Hj Hc. destruct (Hlast j o' Hj) as [[Hl Hlt] | [-> ->]].
           ++ apply Hmax; assumption.
           ++ contradiction.
      * intros j o' Hj Hc. destruct (Hlast j o' Hj) as [[Hl Hlt] | [-> ->]].
        -- apply (IH j o' Hl Hc).
        -- contradiction.
Qed.

Lemma selectedObject_updateObjectSelection (t : Tank) (fr : Obj3D.t) :
  frog t = Some fr ->
  selectedObject (updateObjectSelection t) = bestObject t fr.
Proof.
  intros Hfrog. unfold updateObjectSelection. rewrite Hfrog. cbv zeta.
  destruct (bool_decide _) eqn:Hsame.
  - apply bool_decide_eq_true in Hsame. congruence.
  - destruct (bestObject t fr) as [folder|]; [|reflexivity].
    destruct (makeFrogsSwimToFolder_frame (set_selectedObject (Some folder) t) folder)
      as (l & ->). reflexivity.
Qed.

(** C4 at its failing input.  The avatar floats exactly where a folder is.
    The folder is within [selectionDistance], at the avatar's height, and
    passes the depth gate whenever the camera has it in view; its front
    score is the quotient 0/0, its total is NaN, [NaN > bestScore] is
    false, and the only candidate is not focused. *)
Theorem object_at_avatar_is_never_focused :
  exists fr o,
    frog overlapTank = Some fr
    /\ allObjects overlapTank = [o]
    /\ V3.distanceTo (Obj3D.position fr) (WorldObject.position o) = 0
    /\ (vz (project (camera overlapTank) (WorldObject.position o)) <= 1 ->
        passesGates overlapTank fr o = true)
    /\ totalScore overlapTank fr o = None
    /\ selectedObject (updateObjectSelection overlapTank) = None.
Proof.
  set (fr := Obj3D.mk (vec3 0 0 0) (euler3 0 PI 0)).
  set (o := WorldObject.mk (vec3 0 0 0) 0 Folder).
  assert (Hzero : V3.distanceTo (Obj3D.position fr) (WorldObject.position o) = 0)
    by apply distanceTo_self.
  assert (Hnan : totalScore overlapTank fr o = None).
  { rewrite totalScore_spec, Hzero.
    assert (H0 : eqb0 0 = true) by (apply eqb0_true; reflexivity).
    rewrite H0. reflexivity. }
  exists fr, o. repeat split; try assumption; try reflexivity.
  - intros Hdepth. apply passesGates_spec. unfold withinGates.
    rewrite Hzero. cbn. repeat split; try assumption; lra.
  - rewrite (selectedObject_updateObjectSelection overlapTank fr eq_refl).
    unfold bestObject, indexed.
    cbn [overlapTank allObjects set_allObjects imap fold_left].
    unfold selectionStep. cbn [fst snd]. fold o. rewrite Hnan.
    destruct (passesGates overlapTank fr o); reflexivity.
Qed.

(** X1.  The selection as the code computes it.  With the avatar present, the
    focus after [updateObjectSelection] is the first object of the list, in
    iteration order, that maximizes [0.2 * distanceScore + 0.3 * frontScore
    + 0.5 * heightScore] over the objects within the three gates and not at
    the avatar's own position; with no such object the focus is null. *)
Theorem selection_picks_first_best (t : Tank) (fr : Obj3D.t) :
  frog t = Some fr ->
  match selectedObject (updateObjectSelection t) with
  | Some i =>
      exists o, allObjects t !! i = Some o
        /\ scoredCandidate t fr o
        /\ forall j o', allObjects t !! j = Some o' ->
             scoredCandidate t fr o' ->
             specScore t fr o' <= specScore t fr o
             /\ ((j < i)%nat -> specScore t fr o' < specScore t fr o)
  | None =>
      forall j o, allObjects t !! j = Some o -> ~ scoredCandidate t fr o
  end.
Proof.
  intros Hfrog. rewrite (selectedObject_updateObjectSelection t fr Hfrog).
  unfold bestObject.
  pose proof (selection_loop_firstBest t fr (allObjects t)) as Hloop.
  destruct (fold_left _ _ _) as [[i|] [s|]]; cbn [fst]; cbn in Hloop;
    try contradiction.
  - destruct Hloop as ((o & Hi & Hc & ->) & Hmax). exists o. auto.
  - exact Hloop.
Qed.

End Selection.

Lemma selection_picks_first_best_witness :
  match selectedObject (@updateObjectSelection fixedCamera reachTank) with
  | Some i =>
      exists o, allObjects reachTank !! i = Some o
        /\ @scoredCandidate fixedCamera reachTank
             (Obj3D.mk (vec3 0 0 0) (euler3 0 PI 0)) o
  | None => False
  end.
Proof.
  pose proof (@selection_picks_first_best fixedCamera reachTank
                (Obj3D.mk (vec3 0 0 0) (euler3 0 PI 0)) eq_refl) as H.
  destruct (selectedObject (@updateObjectSelection fixedCamera reachTank)) as [i|].
  - destruct H as (o & Hi & Hc & _). exists o. auto.
  - apply (H 1%nat (WorldObject.mk (vec3 0 2 0) 0 Folder) eq_refl).
    split.
    + unfold withinGates. cbn. rewrite distanceTo_sym.
      assert (Hd : V3.distanceTo (vec3 0 2 0) (vec3 0 0 0) <= 4).
      { assert (H2 : V3.distanceTo (vec3 0 2 0) (vec3 0 0 0) < 4.5)
          by (apply distanceTo_lt; cbn; lra).
        pose proof (distanceTo_nonneg (vec3 0 2 0) (vec3 0 0 0)).
        unfold V3.distanceTo in *. cbn in *.
        replace ((0 - 0) * (0 - 0) + (2 - 0) * (2 - 0) + (0 - 0) * (0 - 0))
          with (2 * 2) by lra.
        rewrite sqrt_square; lra. }
      repeat split; [exact Hd | lra | lra].
    + cbn. rewrite distanceTo_sym.
      assert (Hd : 1 <= V3.distanceTo (vec3 0 2 0) (vec3 0 0 0))
        by (apply distanceTo_ge; cbn; lra).
      lra.
Defined.

(** ** Lengths of vectors *)

Lemma length_nonneg (v : Vector3) : 0 <= V3.length v.
Proof. apply sqrt_pos. Qed.

Lemma length_sq (v : Vector3) :
  V3.length v * V3.length v = vx v * vx v + vy v * vy v + vz v * vz v.
Proof. unfold V3.length. apply sqrt_sqrt. nra. Qed.

Lemma length_zero : V3.length V3.zero = 0.
Proof.
  unfold V3.length, V3.zero. cbn.
  replace (0 * 0 + 0 * 0 + 0 * 0) with 0 by ring. apply sqrt_0.
Qed.

Lemma length_zero_inv (v : Vector3) : V3.length v = 0 -> v = vec3 0 0 0.
Proof.
  intros H. pose proof (length_sq v) as Hsq. rewrite H in Hsq.
  destruct v as [x y z]. cbn in Hsq.
  assert (x = 0) by nra. assert (y = 0) by nra. assert (z = 0) by nra.
  subst. reflexivity.
Qed.

Lemma length_multiplyScalar (v : Vector3) (s : R) :
  V3.length (V3.multiplyScalar v s) = Rabs s * V3.length v.
Proof.
  unfold V3.length, V3.multiplyScalar. cbn.
  replace (vx v * s * (vx v * s) + vy v * s * (vy v * s) + vz v * s * (vz v * s))
    with (Rsqr s * (vx v * vx v + vy v * vy v + vz v * vz v))
    by (unfold Rsqr; ring).
  rewrite sqrt_mult; [|apply Rle_0_sqr|nra].
  rewrite sqrt_Rsqr_abs. reflexivity.
Qed.

Lemma distanceTo_length (a b : Vector3) :
  V3.distanceTo a b = V3.length (V3.sub a b).
Proof. reflexivity. Qed.

Lemma distanceTo_add (p d : Vector3) :
  V3.distanceTo (V3.add p d) p = V3.length d.
Proof.
  unfold V3.distanceTo, V3.length, V3.add. cbn. f_equal. ring.
Qed.

(** [normalize] gives a unit vector, or the zero vector it was given. *)
Lemma length_normalize (v : Vector3) :
  V3.length (V3.normalize v) = if eqb0 (V3.length v) then 0 else 1.
Proof.
  unfold V3.normalize, V3.divideScalar, orOne.
  rewrite length_multiplyScalar.
  destruct (eqb0 (V3.length v)) eqn:E.
  - apply eqb0_true in E. rewrite E. ring.
  - apply eqb0_false in E. pose proof (length_nonneg v).
    rewrite Rabs_right.
    + field. assumption.
    + apply Rle_ge. apply Rlt_le. apply Rdiv_lt_0_compat; lra.
Qed.

Lemma length_normalize_le (v : Vector3) : V3.length (V3.normalize v) <= 1.
Proof. rewrite length_normalize. destruct (eqb0 _); lra. Qed.

(** Cauchy-Schwarz, and the triangle inequality it gives. *)
Lemma dot_le_length (a b : Vector3) :
  V3.dot a b <= V3.length a * V3.length b.
Proof.
  pose proof (length_nonneg a) as Ha. pose proof (length_nonneg b) as Hb.
  pose proof (length_sq a) as Hsa. pose proof (length_sq b) as Hsb.
  revert Ha Hb Hsa Hsb.
  generalize (V3.length a), (V3.length b). intros A B Ha Hb Hsa Hsb.
  destruct a as [a1 a2 a3], b as [b1 b2 b3]. unfold V3.dot. cbn in *.
  assert (Hcs : (a1 * b1 + a2 * b2 + a3 * b3) * (a1 * b1 + a2 * b2 + a3 * b3)
                <= (A * B) * (A * B)).
  { replace (A * B * (A * B)) with ((A * A) * (B * B)) by ring.
    rewrite Hsa, Hsb.
    pose proof (Rle_0_sqr (a1 * b2 - a2 * b1)).
    pose proof (Rle_0_sqr (a1 * b3 - a3 * b1)).
    pose proof (Rle_0_sqr (a2 * b3 - a3 * b2)).
    unfold Rsqr in *. nra. }
  assert (0 <= A * B) by (apply Rmult_le_pos; assumption).
  destruct (Rle_dec (a1 * b1 + a2 * b2 + a3 * b3) (A * B)); [assumption|].
  nra.
Qed.

Lemma length_add_le (a b : Vector3) :
  V3.length (V3.add a b) <= V3.length a + V3.length b.
Proof.
  pose proof (length_nonneg a) as Ha. pose proof (length_nonneg b) as Hb.
  pose proof (length_sq a) as Hsa. pose proof (length_sq b) as Hsb.
  pose proof (dot_le_length a b) as Hdot.
  rewrite <- (sqrt_square (V3.length a + V3.length b)) by lra.
  unfold V3.length at 1. apply sqrt_le_1_alt.
  unfold V3.dot in Hdot. unfold V3.add. cbn. nra.
Qed.

Lemma length_sub_le (a b : Vector3) :
  V3.length (V3.sub a b) <= V3.length a + V3.length b.
Proof.
  replace (V3.sub a b) with (V3.add a (V3.multiplyScalar b (-1))).
  - eapply Rle_trans; [apply length_add_le|].
    rewrite length_multiplyScalar.
    replace (Rabs (-1)) with 1; [lra|].
    unfold Rabs. destruct (Rcase_abs (-1)); lra.
  - unfold V3.sub, V3.add, V3.multiplyScalar. cbn. f_equal; ring.
Qed.

(** [clampLength(0, hi)] gives a vector no longer than [hi]. *)
Lemma length_clampLength (a : Vector3) (hi : R) :
  0 <= hi -> V3.length (V3.clampLength a 0 hi) <= hi.
Proof.
  intros Hhi. unfold V3.clampLength. cbv zeta.
  rewrite length_multiplyScalar.
  change (V3.divideScalar a (orOne (V3.length a))) with (V3.normalize a).
  pose proof (length_normalize_le a) as Hn.
  pose proof (length_nonneg (V3.normalize a)) as Hn0.
  assert (Hm : 0 <= Rmax 0 (Rmin hi (V3.length a)) <= hi).
  { pose proof (length_nonneg a). Rminmax. }
  rewrite Rabs_right by lra. nra.
Qed.

(** ** Sub-agents: what a frame does to one of them *)

Lemma updateFrogAt_allObjects (delta : R) (t : Tank) (i : nat) :
  allObjects (updateFrogAt delta t i) = allObjects t.
Proof. destruct (updateFrogAt_frame delta t i) as [l ->]. reflexivity. Qed.

(** In the loop of [updateAdditionalFrogs] a sub-agent is either left as it
    is, or stepped once, by [updateFrogMovement], from its own record. *)
Lemma fold_updateFrogAt_lookup (delta : R) (l : list nat) :
  NoDup l ->
  forall (t : Tank) (i : nat) (fd : FrogData.t),
  otherFrogs t !! i = Some fd ->
  exists fd',
    otherFrogs (fold_left (updateFrogAt delta) l t) !! i = Some fd'
    /\ (fd' = fd
        \/ (In i l
            /\ truthy (FrogData.target fd) && FrogData.isMoving fd = true
            /\ exists t', allObjects t' = allObjects t
                 /\ fd' = updateFrogMovement t' i fd delta)).
Proof.
  induction l as [|j l IH]; intros Hnd t i fd Hlook; cbn [fold_left].
  { exists fd. auto. }
  apply NoDup_cons in Hnd as [Hj Hnd].
  destruct (decide (i = j)) as [-> | Hij].
  - (* this round is the sub-agent's own *)
    assert (Hlen : (j < length (otherFrogs t))%nat)
      by (eapply lookup_lt_Some; eassumption).
    unfold updateFrogAt at 2. rewrite Hlook.
    destruct (truthy (FrogData.target fd) && FrogData.isMoving fd) eqn:Hguard.
    + destruct (IH Hnd
                  (set_otherFrogs
                     (<[j := updateFrogMovement t j fd delta]> (otherFrogs t)) t)
                  j (updateFrogMovement t j fd delta)) as (fd' & Hfd' & Hcase).
      { cbn [otherFrogs set_otherFrogs]. apply list_lookup_insert_eq. assumption. }
      exists fd'. split; [assumption|].
      destruct Hcase as [-> | (Hin & _)].
      * right. split; [left; reflexivity|]. split; [reflexivity|].
        exists t. auto.
      * exfalso. apply Hj. apply list_elem_of_In. assumption.
    + destruct (IH Hnd t j fd Hlook) as (fd' & Hfd' & Hcase).
      exists fd'. split; [assumption|].
      destruct Hcase as [-> | (Hin & _)]; [left; reflexivity|].
      exfalso. apply Hj. apply list_elem_of_In. assumption.
  - (* another sub-agent's round *)
    assert (Hsame : otherFrogs (updateFrogAt delta t j) !! i = Some fd).
    { unfold updateFrogAt. destruct (otherFrogs t !! j) as [fj|]; [|assumption].
      destruct (truthy (FrogData.target fj) && FrogData.isMoving fj); [|assumption].
      cbn [otherFrogs set_otherFrogs].
      rewrite list_lookup_insert_ne by congruence. assumption. }
    destruct (IH Hnd _ i fd Hsame) as (fd' & Hfd' & Hcase).
    exists fd'. split; [assumption|].
    destruct Hcase as [-> | (Hin & Hguard & t' & Hobj & Hstep)]; [left; reflexivity|].
    right. split; [right; assumption|]. split; [assumption|].
    exists t'. split; [|assumption].
    rewrite Hobj. apply updateFrogAt_allObjects.
Qed.

Lemma updateAdditionalFrogs_lookup (t : Tank) (delta : R) (i : nat)
    (fd : FrogData.t) :
  otherFrogs t !! i = Some fd ->
  exists fd',
    otherFrogs (updateAdditionalFrogs t delta) !! i = Some fd'
    /\ (fd' = fd
        \/ (truthy (FrogData.target fd) && FrogData.isMoving fd = true
            /\ exists t', allObjects t' = allObjects t
                 /\ fd' = updateFrogMovement t' i fd delta)).
Proof.
  intros Hlook. unfold updateAdditionalFrogs.
  destruct (negb (multiFrogMode t)); [exists fd; auto|].
  destruct (fold_updateFrogAt_lookup delta (seq 0 (length (otherFrogs t)))
              (NoDup_seq _ _) t i fd Hlook) as (fd' & Hfd' & Hcase).
  exists fd'. split; [assumption|].
  destruct Hcase as [-> | (_ & Hguard & Hstep)]; auto.
Qed.

(** One step of a sub-agent: its speed setting stays, its velocity is cut
    to the speed, and it moves by its velocity times [delta] or not at
    all. *)
Lemma updateFrogMovement_speed (t : Tank) (i : nat) (fd : FrogData.t)
    (delta : R) :
  0 <= FrogData.speed fd ->
  let fd' := updateFrogMovement t i fd delta in
  FrogData.speed fd' = FrogData.speed fd
  /\ (V3.length (FrogData.velocity fd) <= FrogData.speed fd ->
      V3.length (FrogData.velocity fd') <= FrogData.speed fd)
  /\ V3.distanceTo (FrogData.position fd') (FrogData.position fd)
     <= FrogData.speed fd * Rabs delta.
Proof.
  intros Hspeed. unfold updateFrogMovement.
  assert (Hstay : V3.distanceTo (FrogData.position fd) (FrogData.position fd)
                  <= FrogData.speed fd * Rabs delta).
  { rewrite distanceTo_self. apply Rmult_le_pos; [assumption | apply Rabs_pos]. }
  destruct (objectAt t (FrogData.target fd)) as [tgt|]; [|cbv zeta; auto].
  cbv zeta.
  set (v1 := V3.add (FrogData.velocity fd) _).
  set (v2 := if gtb (V3.length v1) (FrogData.speed fd) then _ else v1).
  assert (Hv2 : V3.length v2 <= FrogData.speed fd).
  { subst v2. destruct (gtb (V3.length v1) (FrogData.speed fd)) eqn:Hcut.
    - apply gtb_gt in Hcut. rewrite length_multiplyScalar, length_normalize.
      destruct (eqb0 (V3.length v1)) eqn:Hz.
      + apply eqb0_true in Hz. lra.
      + rewrite Rabs_right by lra. lra.
    - apply gtb_le in Hcut. assumption. }
  assert (Hhalf : V3.length (V3.multiplyScalar v2 0.5) <= FrogData.speed fd).
  { rewrite length_multiplyScalar. rewrite Rabs_right by lra.
    pose proof (length_nonneg v2). lra. }
  assert (Hmove : V3.distanceTo
                    (V3.add (FrogData.position fd) (V3.multiplyScalar v2 delta))
                    (FrogData.position fd)
                  <= FrogData.speed fd * Rabs delta).
  { rewrite distanceTo_add, length_multiplyScalar.
    pose proof (Rabs_pos delta). pose proof (length_nonneg v2). nra. }
  assert (Hzero : V3.length (vec3 0 0 0) <= FrogData.speed fd).
  { change (vec3 0 0 0) with V3.zero. rewrite length_zero. assumption. }
  destruct (wouldCauseOverlap t i fd _); destruct (ltb _ 5.0);
    cbn [FrogData.speed FrogData.velocity FrogData.position]; auto.
Qed.

(** X3.  The speed limit of the sub-agents.  Let every sub-agent have a
    non-negative [speed] and a velocity no longer than it.  Then after
    [updateAdditionalFrogs] every sub-agent is still in the list at its
    index, with the same [speed], a velocity no longer than it, and a
    position at most [speed * |delta|] from where it was. *)
Theorem sub_agent_speed_cap (t : Tank) (delta : R) (i : nat) (fd : FrogData.t) :
  Forall (fun a => 0 <= FrogData.speed a
                   /\ V3.length (FrogData.velocity a) <= FrogData.speed a)
         (otherFrogs t) ->
  otherFrogs t !! i = Some fd ->
  exists fd',
    otherFrogs (updateAdditionalFrogs t delta) !! i = Some fd'
    /\ FrogData.speed fd' = FrogData.speed fd
    /\ V3.length (FrogData.velocity fd') <= FrogData.speed fd
    /\ V3.distanceTo (FrogData.position fd') (FrogData.position fd)
       <= FrogData.speed fd * Rabs delta.
Proof.
  intros Hall Hlook.
  assert (Hfd : 0 <= FrogData.speed fd
                /\ V3.length (FrogData.velocity fd) <= FrogData.speed fd).
  { rewrite Forall_forall in Hall. apply Hall.
    eapply list_elem_of_lookup_2. eassumption. }
  destruct Hfd as [Hspeed Hvel].
  destruct (updateAdditionalFrogs_lookup t delta i fd Hlook)
    as (fd' & Hfd' & Hcase).
  exists fd'. split; [assumption|].
  destruct Hcase as [-> | (_ & t' & _ & ->)].
  - split; [reflexivity|]. split; [assumption|].
    rewrite distanceTo_self. apply Rmult_le_pos; [assumption | apply Rabs_pos].
  - destruct (updateFrogMovement_speed t' i fd delta Hspeed) as (H1 & H2 & H3).
    auto.
Qed.

(** *** The steering forces *)

(** The running sum of [calculateSeparation] is zero as long as nothing
    has been counted. *)
Lemma repel_count (fd : FrogData.t) (acc : Vector3 * nat) (other : Vector3) :
  (snd acc = 0%nat -> fst acc = V3.zero) ->
  snd (repel fd acc other) = 0%nat -> fst (repel fd acc other) = V3.zero.
Proof.
  unfold repel. cbv zeta. destruct (_ && _); cbn [fst snd]; [discriminate | auto].
Qed.

Lemma length_calculateSeparation (t : Tank) (i : nat) (fd : FrogData.t) :
  0 <= FrogData.maxForce fd ->
  V3.length (calculateSeparation t i fd) <= FrogData.maxForce fd.
Proof.
  intros Hmax. unfold calculateSeparation. cbv zeta.
  set (acc0 := repel fd (V3.zero, 0%nat) (frogPosition t)).
  assert (H0 : snd acc0 = 0%nat -> fst acc0 = V3.zero)
    by (apply repel_count; reflexivity).
  revert H0. generalize acc0. generalize (indexed (otherFrogs t)).
  intros l. induction l as [|jo l IH]; intros acc Hacc; cbn [fold_left].
  - destruct (Nat.ltb 0 (snd acc)) eqn:Hcount.
    + destruct (gtb _ 0) eqn:Hlen.
      * apply length_clampLength. assumption.
      * apply gtb_le in Hlen. lra.
    + apply Nat.ltb_ge in Hcount. rewrite Hacc by lia. rewrite length_zero.
      assumption.
  - apply IH. destruct (Nat.eqb (fst jo) i); [assumption|].
    apply repel_count. assumption.
Qed.

(** X4.  The steering forces are bounded by [maxForce]: the seek force and
    the separation force are no longer than [maxForce], and the
    acceleration blended from them is no longer than 1.8 times
    [maxForce]. *)
Theorem steering_force_bounded (t : Tank) (i : nat) (fd : FrogData.t)
    (targetPosition : Vector3) :
  0 <= FrogData.maxForce fd ->
  V3.length (calculateSeek fd targetPosition) <= FrogData.maxForce fd
  /\ V3.length (calculateSeparation t i fd) <= FrogData.maxForce fd
  /\ V3.length (steeringAcceleration t i fd targetPosition)
     <= 1.8 * FrogData.maxForce fd.
Proof.
  intros Hmax.
  assert (Hseek : V3.length (calculateSeek fd targetPosition)
                  <= FrogData.maxForce fd)
    by (apply length_clampLength; assumption).
  pose proof (length_calculateSeparation t i fd Hmax) as Hsep.
  split; [assumption|]. split; [assumption|].
  unfold steeringAcceleration. cbv zeta.
  pose proof (length_nonneg (calculateSeparation t i fd)) as Hsep0.
  destruct (checkMinimumSeparation t i fd).
  - rewrite add_zero_l, length_multiplyScalar. rewrite Rabs_right by lra. lra.
  - rewrite add_zero_l.
    eapply Rle_trans; [apply length_add_le|].
    rewrite !length_multiplyScalar. rewrite !Rabs_right by lra. lra.
Qed.

(** A sub-agent with no target, or not moving, comes out of
    [updateAdditionalFrogs] exactly as it went in. *)
Lemma idle_sub_agent_unchanged (t : Tank) (delta : R) (i : nat)
    (fd : FrogData.t) :
  otherFrogs t !! i = Some fd ->
  FrogData.target fd = None \/ FrogData.isMoving fd = false ->
  otherFrogs (updateAdditionalFrogs t delta) !! i = Some fd.
Proof.
  intros Hlook Hidle.
  destruct (updateAdditionalFrogs_lookup t delta i fd Hlook)
    as (fd' & Hfd' & Hcase).
  destruct Hcase as [-> | (Hguard & _)]; [assumption|].
  exfalso. apply andb_prop in Hguard as [Ht Hm].
  destruct Hidle as [Hnone | Hstill].
  - rewrite Hnone in Ht. discriminate.
  - congruence.
Qed.

(** X5.  Arrival and rest.  When the step of a sub-agent ends nearer than
    5 units to its target, the step clears the target, marks the sub-agent
    as not moving and zeroes its velocity; from then on
    [updateAdditionalFrogs] leaves its record exactly as it is, in any
    tank and for any [delta]. *)
Theorem sub_agent_rests_after_arrival (t : Tank) (delta : R) (i : nat)
    (fd : FrogData.t) (tgt : WorldObject.t) :
  objectAt t (FrogData.target fd) = Some tgt ->
  V3.distanceTo (FrogData.position (updateFrogMovement t i fd delta))
    (WorldObject.position tgt) < 5 ->
  let fd' := updateFrogMovement t i fd delta in
  FrogData.target fd' = None
  /\ FrogData.isMoving fd' = false
  /\ FrogData.velocity fd' = vec3 0 0 0
  /\ forall (t2 : Tank) (delta2 : R),
       otherFrogs t2 !! i = Some fd' ->
       otherFrogs (updateAdditionalFrogs t2 delta2) !! i = Some fd'.
Proof.
  intros Htgt Hnear fd'.
  assert (Hstop : FrogData.target fd' = None /\ FrogData.isMoving fd' = false
                  /\ FrogData.velocity fd' = vec3 0 0 0).
  { subst fd'. revert Hnear. unfold updateFrogMovement. rewrite Htgt. cbv zeta.
    destruct (ltb _ 5.0) eqn:Hlt;
      cbn [FrogData.position FrogData.target FrogData.isMoving FrogData.velocity].
    - auto.
    - apply ltb_ge in Hlt. intros Hnear. lra. }
  destruct Hstop as (Hnone & Hstill & Hzero).
  repeat split; try assumption.
  intros t2 delta2 Hlook. apply idle_sub_agent_unchanged; auto.
Qed.

(** *** Instances *)

Lemma distanceTo_triangle (a b c : Vector3) :
  V3.distanceTo a c <= V3.distanceTo a b + V3.distanceTo b c.
Proof.
  rewrite !distanceTo_length.
  replace (V3.sub a c) with (V3.add (V3.sub a b) (V3.sub b c)).
  - apply length_add_le.
  - unfold V3.sub, V3.add. cbn. f_equal; ring.
Qed.

Lemma sub_agent_speed_cap_witness :
  exists fd',
    otherFrogs (updateAdditionalFrogs flockTank 0.1) !! 0%nat = Some fd'
    /\ FrogData.speed fd' = 3.0
    /\ V3.length (FrogData.velocity fd') <= 3.0
    /\ V3.distanceTo (FrogData.position fd') (vec3 18 10 0) <= 3.0 * Rabs 0.1.
Proof.
  apply (sub_agent_speed_cap flockTank 0.1 0
           (subAgent (vec3 18 10 0) (Some 0%nat) true)).
  - constructor; [|constructor]. cbn [subAgent FrogData.speed FrogData.velocity].
    change (vec3 0 0 0) with V3.zero. rewrite length_zero. lra.
  - reflexivity.
Defined.

Lemma steering_force_bounded_witness :
  V3.length (calculateSeek (subAgent (vec3 18 10 0) (Some 0%nat) true)
               (vec3 (-20) 0 (-25))) <= 2.0
  /\ V3.length (calculateSeparation flockTank 0
                  (subAgent (vec3 18 10 0) (Some 0%nat) true)) <= 2.0
  /\ V3.length (steeringAcceleration flockTank 0
                  (subAgent (vec3 18 10 0) (Some 0%nat) true)
                  (vec3 (-20) 0 (-25))) <= 1.8 * 2.0.
Proof.
  apply (steering_force_bounded flockTank 0
           (subAgent (vec3 18 10 0) (Some 0%nat) true) (vec3 (-20) 0 (-25))).
  cbn [subAgent FrogData.maxForce]. lra.
Defined.

Lemma sub_agent_rests_after_arrival_witness :
  let fd := subAgent (vec3 18 0 0) (Some 0%nat) true in
  let fd' := updateFrogMovement arrivalTank 0 fd 0 in
  FrogData.target fd' = None
  /\ FrogData.isMoving fd' = false
  /\ FrogData.velocity fd' = vec3 0 0 0
  /\ forall (t2 : Tank) (delta2 : R),
       otherFrogs t2 !! 0%nat = Some fd' ->
       otherFrogs (updateAdditionalFrogs t2 delta2) !! 0%nat = Some fd'.
Proof.
  intros fd.
  apply (sub_agent_rests_after_arrival arrivalTank 0 0 fd
           (WorldObject.mk (vec3 20 0 0) 0 Folder)).
  - reflexivity.
  - (* a step with [delta = 0] does not move the sub-agent, which is 2
       units from the folder *)
    destruct (updateFrogMovement_speed arrivalTank 0 fd 0) as (_ & _ & Hmove).
    { cbn [fd subAgent FrogData.speed]. lra. }
    cbv zeta in Hmove. rewrite Rabs_R0, Rmult_0_r in Hmove.
    eapply Rle_lt_trans; [apply (distanceTo_triangle _ (FrogData.position fd))|].
    cbn [WorldObject.position fd subAgent FrogData.position] in *.
    rewrite (distanceTo_along_x 18 20 0 0).
    replace (18 - 20) with (- (2)) by ring. rewrite Rabs_Ropp.
    rewrite (Rabs_right 2) by lra. lra.
Defined.

(** ** The side-scroller player *)

(** What [checkPlatformCollisions] establishes: a grounded player has no
    vertical velocity and all its jumps; the ground flag is set only at
    ground level. *)
Lemma landOn_grounded (b l r : R) (p : Player.t) (pl : Platform.t) :
  (Player.isGrounded p = true ->
   vy (Player.velocity p) = 0 /\ Player.jumpCount p = 0%nat) ->
  Player.isOnGround p = false ->
  (Player.isGrounded (landOn b l r p pl) = true ->
   vy (Player.velocity (landOn b l r p pl)) = 0
   /\ Player.jumpCount (landOn b l r p pl) = 0%nat)
  /\ Player.isOnGround (landOn b l r p pl) = false.
Proof.
  intros Hg Ho. unfold landOn. cbv zeta.
  destruct (Platform.isGround pl); [auto|].
  destruct (_ && _);
    cbn [Player.isGrounded Player.velocity Player.jumpCount Player.isOnGround
         V3.set_y vy]; auto.
Qed.

Lemma fold_landOn_grounded (b l r : R) (platforms : list Platform.t)
    (p : Player.t) :
  (Player.isGrounded p = true ->
   vy (Player.velocity p) = 0 /\ Player.jumpCount p = 0%nat) ->
  Player.isOnGround p = false ->
  (Player.isGrounded (fold_left (landOn b l r) platforms p) = true ->
   vy (Player.velocity (fold_left (landOn b l r) platforms p)) = 0
   /\ Player.jumpCount (fold_left (landOn b l r) platforms p) = 0%nat)
  /\ Player.isOnGround (fold_left (landOn b l r) platforms p) = false.
Proof.
  revert p. induction platforms as [|pl platforms IH]; intros p Hg Ho;
    cbn [fold_left]; [auto|].
  destruct (landOn_grounded b l r p pl Hg Ho) as [Hg' Ho']. apply IH; assumption.
Qed.

Lemma checkPlatformCollisions_grounded (platforms : list Platform.t)
    (p : Player.t) :
  let p' := checkPlatformCollisions platforms p in
  CONFIG.groundY <= vy (Player.position p')
  /\ (Player.isGrounded p' = true ->
      vy (Player.velocity p') = 0 /\ Player.jumpCount p' = 0%nat)
  /\ (Player.isOnGround p' = true ->
      Player.isGrounded p' = true /\ vy (Player.position p') = CONFIG.groundY).
Proof.
  unfold checkPlatformCollisions.
  assert (Hland :
    (Player.isGrounded (landOnPlatforms platforms (clearGrounded p)) = true ->
     vy (Player.velocity (landOnPlatforms platforms (clearGrounded p))) = 0
     /\ Player.jumpCount (landOnPlatforms platforms (clearGrounded p)) = 0%nat)
    /\ Player.isOnGround (landOnPlatforms platforms (clearGrounded p)) = false).
  { unfold landOnPlatforms. cbv zeta.
    destruct (negb (Player.droppingThrough (clearGrounded p))).
    - apply fold_landOn_grounded; [discriminate | reflexivity].
    - split; [discriminate | reflexivity]. }
  destruct Hland as [Hg Ho]. revert Hg Ho.
  generalize (landOnPlatforms platforms (clearGrounded p)). intros q Hg Ho.
  unfold groundCollision. destruct (ltb _ CONFIG.groundY) eqn:Hlow;
    cbn [Player.position Player.velocity Player.isGrounded Player.jumpCount
         Player.isOnGround V3.set_y vy].
  - repeat split; lra.
  - apply ltb_ge in Hlow. repeat split; try tauto; congruence.
Qed.

(** X7.  The floor of the side-scroller.  After every tick, whatever the
    input, the platforms and [delta]: the player is not below [groundY]; a
    grounded player has vertical velocity 0 and [jumpCount] 0; and the
    flag [isOnGround] is set only on a grounded player standing at
    [groundY]. *)
Theorem player_floor (platforms : list Platform.t) (input : SSInput.t)
    (delta : R) (p : Player.t) :
  let p' := stepPlayer platforms input delta p in
  CONFIG.groundY <= vy (Player.position p')
  /\ (Player.isGrounded p' = true ->
      vy (Player.velocity p') = 0 /\ Player.jumpCount p' = 0%nat)
  /\ (Player.isOnGround p' = true ->
      Player.isGrounded p' = true /\ vy (Player.position p') = CONFIG.groundY).
Proof.
  unfold stepPlayer. unfold faceBlock at 1 2 3 4 5 6 7.
  cbn [Player.position Player.velocity Player.isGrounded Player.jumpCount
       Player.isOnGround].
  apply checkPlatformCollisions_grounded.
Qed.

(** X8.  Along any run of ticks that starts with [jumpCount] at most
    [maxJumps], [jumpCount] is at most [maxJumps] before every tick. *)
Theorem jump_count_bounded (platforms : list Platform.t) (p : Player.t)
    (ticks : list Tick) (n : nat) :
  (Player.jumpCount p <= Player.maxJumps p)%nat ->
  (Player.jumpCount (playerBefore platforms p ticks n) <= Player.maxJumps p)%nat.
Proof.
  intros Hp. unfold playerBefore. generalize (take n ticks). intros l.
  revert p Hp. induction l as [|tk l IH]; intros p Hp; cbn [fold_left];
    [assumption|].
  destruct (stepPlayer_latch platforms (fst tk) (snd tk) p) as (_ & Hmax & Hcount).
  fold (tickStep platforms p tk) in Hmax, Hcount.
  rewrite <- Hmax. apply IH. rewrite Hmax.
  destruct (jumpTriggered (fst tk) p) eqn:Htrig; [|lia].
  apply jumpTriggered_inv in Htrig. lia.
Qed.

(** *** Rest *)

(** The platforms of [createPlatforms] hang more than 1.5 above the
    ground level, so nothing at ground level is in their landing window. *)
Lemma createPlatforms_high (width : nat -> R) :
  Forall (fun pl => Platform.isGround pl = true
                    \/ CONFIG.groundY
                       < vy (Platform.position pl) + CONFIG.platformHeight / 2 - 1.5)
         (createPlatforms width).
Proof.
  unfold createPlatforms, platformPositions, CONFIG.groundY, CONFIG.platformHeight.
  cbn [imap fst snd].
  repeat (constructor; [first [left; reflexivity | right; cbn; lra]|]).
  constructor.
Qed.

Lemma fold_landOn_low (b l r : R) (platforms : list Platform.t) (p : Player.t) :
  Forall (fun pl => Platform.isGround pl = true
                    \/ CONFIG.groundY
                       < vy (Platform.position pl) + CONFIG.platformHeight / 2 - 1.5)
         platforms ->
  b <= CONFIG.groundY ->
  fold_left (landOn b l r) platforms p = p.
Proof.
  intros Hhigh Hb. revert p. induction Hhigh as [|pl platforms Hpl _ IH];
    intros p; cbn [fold_left]; [reflexivity|].
  assert (Hmiss : landOn b l r p pl = p).
  { unfold landOn. cbv zeta. destruct (Platform.isGround pl) eqn:Hgr; [reflexivity|].
    destruct Hpl as [Hpl | Hpl]; [congruence|].
    assert (Hwin : geb b (vy (Platform.position pl) + CONFIG.platformHeight / 2 - 1.5)
                   = false).
    { unfold geb. destruct (leb _ b) eqn:E; [|reflexivity].
      apply leb_le in E. lra. }
    rewrite Hwin. rewrite andb_false_r. reflexivity. }
  rewrite Hmiss. apply IH.
Qed.

(** The input blocks of a tick without input: the horizontal velocity is
    zeroed and the drop state cleared. *)
Lemma idle_blocks (p : Player.t) :
  let r := dropBlock SSInput.none
             (releaseBlock SSInput.none
               (jumpBlock SSInput.none (horizontalMove SSInput.none p))) in
  Player.position r = Player.position p
  /\ Player.velocity r = vec3 0 (vy (Player.velocity p)) (vz (Player.velocity p))
  /\ Player.isGrounded r = Player.isGrounded p
  /\ Player.droppingThrough r = false.
Proof.
  cbv zeta. unfold dropBlock, releaseBlock, jumpBlock, jumpTriggered, horizontalMove.
  cbn [SSInput.none SSInput.left SSInput.right SSInput.jump SSInput.down negb andb].
  cbn [Player.position Player.velocity Player.isGrounded Player.droppingThrough
       V3.set_x].
  repeat split.
Qed.

(** One idle tick of a player at rest at ground level. *)
Lemma stepPlayer_rest (platforms : list Platform.t) (delta : R) (p : Player.t) :
  Forall (fun pl => Platform.isGround pl = true
                    \/ CONFIG.groundY
                       < vy (Platform.position pl) + CONFIG.platformHeight / 2 - 1.5)
         platforms ->
  vy (Player.position p) = CONFIG.groundY ->
  vy (Player.velocity p) = 0 ->
  vz (Player.velocity p) = 0 ->
  let p' := stepPlayer platforms SSInput.none delta p in
  Player.position p' = Player.position p
  /\ vy (Player.velocity p') = 0
  /\ vz (Player.velocity p') = 0.
Proof.
  intros Hhigh Hy Hvy Hvz. unfold stepPlayer.
  unfold faceBlock at 1 2 3. cbn [Player.position Player.velocity].
  destruct (idle_blocks p) as (Hrp & Hrv & Hrg & Hrd). revert Hrp Hrv Hrg Hrd.
  generalize (dropBlock SSInput.none
                (releaseBlock SSInput.none
                   (jumpBlock SSInput.none (horizontalMove SSInput.none p)))).
  intros r Hrp Hrv Hrg Hrd. rewrite Hvy, Hvz in Hrv.
  unfold checkPlatformCollisions.
  set (q := gravityBlock delta r).
  assert (Hq : vx (Player.position q) = vx (Player.position p)
               /\ vz (Player.position q) = vz (Player.position p)
               /\ vy (Player.position q) <= CONFIG.groundY
               /\ (vy (Player.position q) = CONFIG.groundY ->
                   vy (Player.velocity q) = 0)
               /\ vz (Player.velocity q) = 0
               /\ Player.droppingThrough q = false).
  { subst q. unfold gravityBlock, CONFIG.gravity.
    cbn [Player.position Player.velocity Player.droppingThrough].
    rewrite Hrv, Hrp.
    destruct (negb (Player.isGrounded r));
      cbn [V3.set_y V3.add V3.multiplyScalar vx vy vz]; rewrite ?Hy.
    - repeat split; try lra; try nra; try assumption.
    - repeat split; try lra; try assumption. }
  destruct Hq as (Hx & Hz & Hle & Hstill & Hqvz & Hdrop). clearbody q.
  assert (Hland : landOnPlatforms platforms (clearGrounded q) = clearGrounded q).
  { unfold landOnPlatforms. cbv zeta.
    cbn [clearGrounded Player.droppingThrough Player.position].
    rewrite Hdrop. cbn [negb]. apply fold_landOn_low; assumption. }
  rewrite Hland. unfold groundCollision.
  cbn [clearGrounded Player.position Player.velocity].
  destruct (ltb (vy (Player.position q)) CONFIG.groundY) eqn:Hlow;
    cbn [clearGrounded Player.position Player.velocity V3.set_y vx vy vz].
  - repeat split; try assumption.
    apply vec3_eq; cbn [vx vy vz V3.set_y];
      [exact Hx | symmetry; exact Hy | exact Hz].
  - apply ltb_ge in Hlow. assert (Heq : vy (Player.position q) = CONFIG.groundY) by lra.
    split; [|split; [auto | assumption]].
    apply vec3_eq; [exact Hx | rewrite Heq, Hy; reflexivity | exact Hz].
Qed.

(** X9.  A player at rest at ground level stays there.  In the world of
    [createPlatforms], whatever widths were drawn: a player at [groundY]
    with no vertical and no depth velocity has, before every tick of a run
    of ticks without input, the position it started with, for any deltas. *)
Theorem resting_player_stays (width : nat -> R) (p : Player.t)
    (ticks : list Tick) (n : nat) :
  Forall (fun tk : Tick => fst tk = SSInput.none) ticks ->
  vy (Player.position p) = CONFIG.groundY ->
  vy (Player.velocity p) = 0 ->
  vz (Player.velocity p) = 0 ->
  Player.position (playerBefore (createPlatforms width) p ticks n)
  = Player.position p.
Proof.
  intros Hidle Hy Hvy Hvz. unfold playerBefore.
  assert (Hsub : Forall (fun tk : Tick => fst tk = SSInput.none) (take n ticks))
    by (apply Forall_take; assumption).
  revert Hsub. generalize (take n ticks). intros l Hl.
  revert p Hy Hvy Hvz. induction Hl as [|tk l Htk _ IH]; intros p Hy Hvy Hvz;
    cbn [fold_left]; [reflexivity|].
  unfold tickStep at 2. rewrite Htk.
  destruct (stepPlayer_rest (createPlatforms width) (snd tk) p
              (createPlatforms_high width) Hy Hvy Hvz) as (Hpos & Hvy' & Hvz').
  rewrite IH; [assumption | rewrite Hpos; assumption | assumption | assumption].
Qed.

(** X10.  Dropping through.  In a tick with the down intent held, a player
    that is already dropping through, or stands on a platform (grounded but
    not on the ground), is dropping through after the tick and has landed
    on no platform: if it is grounded after the tick, it is so by the
    ground rule, at [groundY]. *)
Theorem drop_through_passes_platforms (platforms : list Platform.t)
    (input : SSInput.t) (delta : R) (p : Player.t) :
  SSInput.down input = true ->
  Player.droppingThrough p = true
  \/ (Player.isGrounded p = true /\ Player.isOnGround p = false) ->
  let p' := stepPlayer platforms input delta p in
  Player.droppingThrough p' = true
  /\ (Player.isGrounded p' = true ->
      Player.isOnGround p' = true /\ vy (Player.position p') = CONFIG.groundY).
Proof.
  intros Hdown Hstate. unfold stepPlayer.
  unfold faceBlock at 1 2 3 4.
  cbn [Player.droppingThrough Player.isGrounded Player.isOnGround Player.position].
  set (q := gravityBlock delta _).
  assert (Hq : Player.droppingThrough q = true).
  { subst q. unfold gravityBlock. cbn [Player.droppingThrough].
    unfold dropBlock. rewrite Hdown. cbn [negb andb].
    set (r := releaseBlock input _).
    assert (Hr : Player.droppingThrough r = Player.droppingThrough p
                 /\ Player.isOnGround r = Player.isOnGround p
                 /\ (Player.isGrounded p = true -> Player.isGrounded r = true)).
    { subst r. unfold releaseBlock, jumpBlock, jumpTriggered.
      rewrite Hdown. cbn [negb]. rewrite !andb_false_r.
      destruct (negb (SSInput.jump input)); cbn; auto. }
    destruct Hr as (Hd & Ho & Hg).
    destruct (Player.isGrounded r && negb (Player.isOnGround r)) eqn:Hdrop;
      cbn [Player.droppingThrough]; [reflexivity|].
    destruct Hstate as [Hp | [Hpg Hpo]]; [congruence|].
    rewrite (Hg Hpg), Ho, Hpo in Hdrop. discriminate. }
  unfold checkPlatformCollisions, landOnPlatforms. cbv zeta.
  cbn [clearGrounded Player.droppingThrough]. rewrite Hq. cbn [negb].
  unfold groundCollision. cbn [clearGrounded Player.position].
  destruct (ltb (vy (Player.position q)) CONFIG.groundY);
    cbn [Player.droppingThrough Player.isGrounded Player.isOnGround
         Player.position V3.set_y vy].
  - auto.
  - split; [assumption | discriminate].
Qed.

(** X11.  Horizontal motion.  In every tick the horizontal velocity is set
    from the input alone, [moveSpeed] to the right when right is held (also
    with left held), [moveSpeed] to the left when only left is held, 0
    otherwise; the player advances by it times [delta] whatever platforms
    are in the way; and the mesh turns to [π/2] or [-π/2] with it, keeping
    its rotation when the velocity is 0. *)
Theorem horizontal_motion (platforms : list Platform.t) (input : SSInput.t)
    (delta : R) (p : Player.t) :
  let p' := stepPlayer platforms input delta p in
  let v := if SSInput.right input then CONFIG.moveSpeed
           else if SSInput.left input then - CONFIG.moveSpeed else 0 in
  vx (Player.velocity p') = v
  /\ vx (Player.position p') = vx (Player.position p) + v * delta
  /\ Player.meshRotationY p'
     = (if SSInput.right input then PI / 2
        else if SSInput.left input then - PI / 2
        else Player.meshRotationY p).
Proof.
  cbv zeta.
  assert (Hland : forall b l r pls q,
            vx (Player.velocity (fold_left (landOn b l r) pls q)) = vx (Player.velocity q)
            /\ vx (Player.position (fold_left (landOn b l r) pls q)) = vx (Player.position q)
            /\ Player.meshRotationY (fold_left (landOn b l r) pls q)
               = Player.meshRotationY q).
  { intros b l r pls. induction pls as [|pl pls IH]; intros q; cbn [fold_left]; [auto|].
    destruct (IH (landOn b l r q pl)) as (H1 & H2 & H3).
    rewrite H1, H2, H3. unfold landOn. cbv zeta.
    destruct (Platform.isGround pl); [auto|]. destruct (_ && _); auto. }
  assert (Hcol : forall q,
            vx (Player.velocity (checkPlatformCollisions platforms q))
            = vx (Player.velocity q)
            /\ vx (Player.position (checkPlatformCollisions platforms q))
               = vx (Player.position q)
            /\ Player.meshRotationY (checkPlatformCollisions platforms q)
               = Player.meshRotationY q).
  { intros q. unfold checkPlatformCollisions, groundCollision, landOnPlatforms.
    cbv zeta.
    destruct (negb (Player.droppingThrough (clearGrounded q)));
      [destruct (Hland (vy (Player.position (clearGrounded q)))
                  (vx (Player.position (clearGrounded q)) - CONFIG.playerWidth / 2)
                  (vx (Player.position (clearGrounded q)) + CONFIG.playerWidth / 2)
                  platforms (clearGrounded q)) as (H1 & H2 & H3)|];
      destruct (ltb _ CONFIG.groundY);
      cbn [Player.velocity Player.position Player.meshRotationY V3.set_y vx];
      auto. }
  assert (Hjump : forall q,
            vx (Player.velocity (jumpBlock input q)) = vx (Player.velocity q)
            /\ vx (Player.position (jumpBlock input q)) = vx (Player.position q)
            /\ Player.meshRotationY (jumpBlock input q) = Player.meshRotationY q).
  { intros q. unfold jumpBlock. destruct (jumpTriggered input q); auto. }
  assert (Hrel : forall q,
            vx (Player.velocity (releaseBlock input q)) = vx (Player.velocity q)
            /\ vx (Player.position (releaseBlock input q)) = vx (Player.position q)
            /\ Player.meshRotationY (releaseBlock input q) = Player.meshRotationY q).
  { intros q. unfold releaseBlock. destruct (negb (SSInput.jump input)); auto. }
  assert (Hdrop : forall q,
            vx (Player.velocity (dropBlock input q)) = vx (Player.velocity q)
            /\ vx (Player.position (dropBlock input q)) = vx (Player.position q)
            /\ Player.meshRotationY (dropBlock input q) = Player.meshRotationY q).
  { intros q. unfold dropBlock.
    destruct (SSInput.down input && Player.isGrounded q && negb (Player.isOnGround q)),
      (negb (SSInput.down input)); auto. }
  assert (Hgrav : forall q,
            vx (Player.velocity (gravityBlock delta q)) = vx (Player.velocity q)
            /\ vx (Player.position (gravityBlock delta q))
               = vx (Player.position q) + vx (Player.velocity q) * delta
            /\ Player.meshRotationY (gravityBlock delta q) = Player.meshRotationY q).
  { intros q. unfold gravityBlock. destruct (negb (Player.isGrounded q)); auto. }
  unfold stepPlayer.
  set (h := horizontalMove input p).
  assert (Hh : vx (Player.velocity h)
               = (if SSInput.right input then CONFIG.moveSpeed
                  else if SSInput.left input then - CONFIG.moveSpeed else 0)
               /\ vx (Player.position h) = vx (Player.position p)
               /\ Player.meshRotationY h = Player.meshRotationY p).
  { subst h. unfold horizontalMove.
    cbn [Player.velocity Player.position Player.meshRotationY V3.set_x vx].
    destruct (SSInput.right input), (SSInput.left input); auto. }
  clearbody h. destruct Hh as (Hh1 & Hh2 & Hh3).
  destruct (Hjump h) as (Hj1 & Hj2 & Hj3).
  destruct (Hrel (jumpBlock input h)) as (Hr1 & Hr2 & Hr3).
  destruct (Hdrop (releaseBlock input (jumpBlock input h))) as (Hd1 & Hd2 & Hd3).
  destruct (Hgrav (dropBlock input (releaseBlock input (jumpBlock input h))))
    as (Hg1 & Hg2 & Hg3).
  set (q := gravityBlock delta _) in *. clearbody q.
  destruct (Hcol q) as (Hv & Hp & Hm).
  assert (Hq : vx (Player.velocity q)
               = (if SSInput.right input then CONFIG.moveSpeed
                  else if SSInput.left input then - CONFIG.moveSpeed else 0)
               /\ vx (Player.position q)
                  = vx (Player.position p) + vx (Player.velocity q) * delta
               /\ Player.meshRotationY q = Player.meshRotationY p).
  { repeat split; congruence. }
  destruct Hq as (Hqv & Hqp & Hqm).
  unfold faceBlock. cbn [Player.velocity Player.position Player.meshRotationY].
  rewrite Hv, Hp, Hm, Hqp, Hqv, Hqm.
  repeat split.
  destruct (SSInput.right input); [|destruct (SSInput.left input)].
  - assert (E : gtb CONFIG.moveSpeed 0.1 = true)
      by (apply gtb_gt; unfold CONFIG.moveSpeed; lra).
    rewrite E. reflexivity.
  - assert (E1 : gtb (- CONFIG.moveSpeed) 0.1 = false)
      by (apply gtb_le; unfold CONFIG.moveSpeed; lra).
    assert (E2 : ltb (- CONFIG.moveSpeed) (-0.1) = true)
      by (apply ltb_lt; unfold CONFIG.moveSpeed; lra).
    rewrite E1, E2. reflexivity.
  - assert (E1 : gtb 0 0.1 = false) by (apply gtb_le; lra).
    assert (E2 : ltb 0 (-0.1) = false) by (apply ltb_ge; lra).
    rewrite E1, E2. reflexivity.
Qed.

(** *** Instances *)

Lemma jump_count_bounded_witness :
  let jump := SSInput.mk false false true false in
  let ticks : list Tick := [(jump, 0.016); (SSInput.none, 0.016); (jump, 0.016)] in
  let platforms := createPlatforms (fun _ => 8) in
  (Player.jumpCount (playerBefore platforms initialPlayer ticks 3) <= 2)%nat.
Proof.
  intros jump ticks platforms.
  apply (jump_count_bounded platforms initialPlayer ticks 3).
  cbn [initialPlayer Player.jumpCount Player.maxJumps]. lia.
Defined.

Lemma resting_player_stays_witness :
  Player.position
    (playerBefore (createPlatforms (fun _ => 8)) initialPlayer
       [(SSInput.none, 0.016); (SSInput.none, 0.02)] 2)
  = vec3 0 CONFIG.groundY 0.
Proof.
  apply (resting_player_stays (fun _ => 8) initialPlayer
           [(SSInput.none, 0.016); (SSInput.none, 0.02)] 2).
  - repeat constructor.
  - reflexivity.
  - reflexivity.
  - reflexivity.
Defined.

Lemma drop_through_passes_platforms_witness :
  let onPlatform :=
    {| Player.position := vec3 (-15) (-1.75) 0;
       Player.velocity := vec3 0 0 0;
       Player.isGrounded := true;
       Player.jumpCount := 0;
       Player.maxJumps := 2;
       Player.jumpPressed := false;
       Player.droppingThrough := false;
       Player.isOnGround := false;
       Player.meshRotationY := 0 |} in
  let p' := stepPlayer (createPlatforms (fun _ => 8))
              (SSInput.mk false false false true) 0.016 onPlatform in
  Player.droppingThrough p' = true
  /\ (Player.isGrounded p' = true ->
      Player.isOnGround p' = true /\ vy (Player.position p') = CONFIG.groundY).
Proof.
  intros onPlatform.
  apply (drop_through_passes_platforms (createPlatforms (fun _ => 8))
           (SSInput.mk false false false true) 0.016 onPlatform).
  - reflexivity.
  - right. split; reflexivity.
Defined.

(** ** The side-scroller over a run of frames *)

Lemma Rmax_camera_target :
  Rmax (CONFIG.groundY + 2) CONFIG.cameraHeight = CONFIG.cameraHeight.
Proof.
  unfold CONFIG.groundY, CONFIG.cameraHeight, Rmax.
  destruct (Rle_dec (-5 + 2) 5); lra.
Qed.

Section SideScrollerRun.
Context {ops : CameraOps}.

Lemma animate_side_scroller (t : Tank) (env : Env.t) :
  sideScrollerMode t = true -> animate t env = updateSideScroller t env.
Proof. intros Hmode. unfold animate, schedule. rewrite Hmode. reflexivity. Qed.

(** One idle frame with the player at rest at ground level. *)
Lemma frame_rest (width : nat -> R) (t : Tank) (p : Player.t) (cam : Vector3)
    (f : Frame.t) :
  sideScrollerMode t = true ->
  sideScrollerPlayer t = Some p ->
  sideScrollerCamera t = Some cam ->
  sideScrollerPlatforms t = createPlatforms width ->
  vy (Player.position p) = CONFIG.groundY ->
  vy (Player.velocity p) = 0 ->
  vz (Player.velocity p) = 0 ->
  Frame.input f = SSInput.none ->
  exists p',
    sideScrollerMode (frame t f) = true
    /\ sideScrollerPlayer (frame t f) = Some p'
    /\ sideScrollerPlatforms (frame t f) = createPlatforms width
    /\ Player.position p' = Player.position p
    /\ vy (Player.velocity p') = 0
    /\ vz (Player.velocity p') = 0
    /\ sideScrollerCamera (frame t f)
       = Some (vec3 (vx (Player.position p) + 0.9 * (vx cam - vx (Player.position p)))
                    (CONFIG.cameraHeight + 0.95 * (vy cam - CONFIG.cameraHeight))
                    (vz cam)).
Proof.
  intros Hmode Hplayer Hcam Hplat Hy Hvy Hvz Hidle.
  unfold frame. rewrite animate_side_scroller by exact Hmode.
  unfold updateSideScroller.
  cbn [sideScrollerMode sideScrollerPlayer sideScrollerPlatforms sideScrollerInput
       sideScrollerCamera set_sideScrollerInput set_movement set_sideScrollerPlayer].
  rewrite Hmode, Hplayer, Hcam, Hplat, Hidle. cbn [negb].
  destruct (stepPlayer_rest (createPlatforms width) (Env.delta (Frame.env f)) p
              (createPlatforms_high width) Hy Hvy Hvz) as (Hpos & Hvy' & Hvz').
  exists (stepPlayer (createPlatforms width) SSInput.none
            (Env.delta (Frame.env f)) p).
  cbn [sideScrollerMode sideScrollerPlayer sideScrollerPlatforms sideScrollerCamera
       set_sideScrollerFiles set_sideScrollerCamera set_sideScrollerPlayer
       set_sideScrollerInput set_movement].
  repeat split; try assumption.
  f_equal. unfold updateSideScrollerCamera. cbv zeta. rewrite Hpos, Hy.
  rewrite Rmax_camera_target. f_equal; lra.
Qed.

(** X12.  The camera settles on a resting player.  In side-scroller mode,
    in the world of [createPlatforms], with the player at rest at ground
    level and no side-scroller input during [n] frames (whatever their
    deltas): the player keeps its position, the camera's x error to the
    player is [0.9 ^ n] times what it was, its y error to [cameraHeight]
    is [0.95 ^ n] times what it was, and its z stays. *)
Theorem camera_settles_on_resting_player (width : nat -> R)
    (frames : list Frame.t) (t : Tank) (p : Player.t) (cam : Vector3) :
  sideScrollerMode t = true ->
  sideScrollerPlayer t = Some p ->
  sideScrollerCamera t = Some cam ->
  sideScrollerPlatforms t = createPlatforms width ->
  vy (Player.position p) = CONFIG.groundY ->
  vy (Player.velocity p) = 0 ->
  vz (Player.velocity p) = 0 ->
  Forall (fun f => Frame.input f = SSInput.none) frames ->
  exists p',
    sideScrollerPlayer (run t frames) = Some p'
    /\ Player.position p' = Player.position p
    /\ sideScrollerCamera (run t frames)
       = Some (vec3 (vx (Player.position p)
                     + 0.9 ^ length frames * (vx cam - vx (Player.position p)))
                    (CONFIG.cameraHeight
                     + 0.95 ^ length frames * (vy cam - CONFIG.cameraHeight))
                    (vz cam)).
Proof.
  intros Hmode Hplayer Hcam Hplat Hy Hvy Hvz Hidle.
  revert t p cam Hmode Hplayer Hcam Hplat Hy Hvy Hvz.
  induction Hidle as [|f frames Hf _ IH];
    intros t p cam Hmode Hplayer Hcam Hplat Hy Hvy Hvz.
  - exists p. cbn [run fold_left length pow]. repeat split; [assumption|].
    rewrite Hcam. f_equal. apply vec3_eq; cbn [vx vy vz]; lra.
  - destruct (frame_rest width t p cam f Hmode Hplayer Hcam Hplat Hy Hvy Hvz Hf)
      as (p1 & Hmode1 & Hplayer1 & Hplat1 & Hpos1 & Hvy1 & Hvz1 & Hcam1).
    destruct (IH (frame t f) p1 _ Hmode1 Hplayer1 Hcam1 Hplat1)
      as (p' & Hplayer' & Hpos' & Hcam'); try assumption.
    { rewrite Hpos1. assumption. }
    exists p'. unfold run in *. cbn [fold_left length].
    split; [assumption|]. split; [congruence|].
    rewrite Hcam'. rewrite Hpos1. cbn [vx vy vz pow]. f_equal.
    apply vec3_eq; cbn [vx vy vz]; ring.
Qed.

End SideScrollerRun.

Lemma camera_settles_on_resting_player_witness :
  let idle := Frame.mk Movement.none SSInput.none (Env.mk 0.016 1000 0.5) in
  let frames := [idle; idle] in
  let cam := vec3 0 CONFIG.cameraHeight CONFIG.cameraDistance in
  exists p',
    sideScrollerPlayer (@run fixedCamera shelfTank frames) = Some p'
    /\ Player.position p' = Player.position initialPlayer
    /\ sideScrollerCamera (@run fixedCamera shelfTank frames)
       = Some (vec3 (vx (Player.position initialPlayer)
                     + 0.9 ^ length frames
                       * (vx cam - vx (Player.position initialPlayer)))
                    (CONFIG.cameraHeight
                     + 0.95 ^ length frames * (vy cam - CONFIG.cameraHeight))
                    (vz cam)).
Proof.
  intros idle frames cam.
  apply (@camera_settles_on_resting_player fixedCamera (fun _ => 8) frames
           shelfTank initialPlayer cam).
  - reflexivity.
  - reflexivity.
  - reflexivity.
  - reflexivity.
  - reflexivity.
  - reflexivity.
  - reflexivity.
  - repeat constructor.
Defined.

(** *** The bobbing files *)

Lemma animateFiles_lookup (now : R) (files : list SSFile.t) (i : nat)
    (f : SSFile.t) :
  files !! i = Some f ->
  animateFiles now files !! i
  = Some {| SSFile.position :=
              V3.set_y (SSFile.position f)
                (fileBaseY f + sin (now * 0.002 + INR i) * 0.15);
            SSFile.rotationY :=
              fileBaseRotY f + sin (now * 0.002 * 0.8 + INR i * 0.5) * 0.3;
            SSFile.baseY := Some (fileBaseY f);
            SSFile.baseRotY := Some (fileBaseRotY f) |}.
Proof.
  intros Hlook. unfold animateFiles. cbv zeta.
  rewrite list_lookup_imap, Hlook. reflexivity.
Qed.

(** X13.  The files of the side-scroller bob around a fixed base.  Let a
    file's base height, [userData.baseY] or else its height, be non-zero.
    After any one or more calls of [animateFiles], at whatever times, the
    file is at its index, with the same x and z, a height within 0.15 of
    that base and a rotation within 0.3 of its base rotation; and both
    bases are cached unchanged, so the motion never drifts. *)
Theorem files_bob_around_base (nows : list R) (files : list SSFile.t)
    (i : nat) (f : SSFile.t) :
  files !! i = Some f ->
  fileBaseY f <> 0 ->
  nows <> [] ->
  exists f',
    fold_left (fun fs now => animateFiles now fs) nows files !! i = Some f'
    /\ SSFile.baseY f' = Some (fileBaseY f)
    /\ SSFile.baseRotY f' = Some (fileBaseRotY f)
    /\ Rabs (vy (SSFile.position f') - fileBaseY f) <= 0.15
    /\ Rabs (SSFile.rotationY f' - fileBaseRotY f) <= 0.3
    /\ vx (SSFile.position f') = vx (SSFile.position f)
    /\ vz (SSFile.position f') = vz (SSFile.position f).
Proof.
  intros Hlook Hbase Hne.
  destruct nows as [|now nows]; [congruence|]. clear Hne. cbn [fold_left].
  pose proof (animateFiles_lookup now files i f Hlook) as H1.
  set (f1 := {| SSFile.position := _ |}) in H1.
  assert (Hinv : SSFile.baseY f1 = Some (fileBaseY f)
                 /\ SSFile.baseRotY f1 = Some (fileBaseRotY f)
                 /\ Rabs (vy (SSFile.position f1) - fileBaseY f) <= 0.15
                 /\ Rabs (SSFile.rotationY f1 - fileBaseRotY f) <= 0.3
                 /\ vx (SSFile.position f1) = vx (SSFile.position f)
                 /\ vz (SSFile.position f1) = vz (SSFile.position f)).
  { subst f1. cbn [SSFile.baseY SSFile.baseRotY SSFile.position SSFile.rotationY
                   V3.set_y vx vy vz].
    repeat split.
    - pose proof (SIN_bound (now * 0.002 + INR i)). apply Rabs_le. lra.
    - pose proof (SIN_bound (now * 0.002 * 0.8 + INR i * 0.5)). apply Rabs_le. lra. }
  clearbody f1. revert H1 Hinv. generalize (animateFiles now files).
  clear Hlook. revert f1.
  induction nows as [|now' nows IH]; intros f1 fs H1 Hinv; cbn [fold_left].
  { exists f1. auto. }
  destruct Hinv as (Hb & Hr & Hy & Hrot & Hx & Hz).
  assert (HbaseY : fileBaseY f1 = fileBaseY f).
  { unfold fileBaseY at 1. rewrite Hb.
    apply eqb0_false in Hbase. rewrite Hbase. reflexivity. }
  assert (HbaseR : fileBaseRotY f1 = fileBaseRotY f).
  { unfold fileBaseRotY at 1. rewrite Hr. reflexivity. }
  pose proof (animateFiles_lookup now' fs i f1 H1) as H2.
  rewrite HbaseY, HbaseR in H2.
  eapply IH; [exact H2|].
  cbn [SSFile.baseY SSFile.baseRotY SSFile.position SSFile.rotationY
       V3.set_y vx vy vz].
  repeat split; try assumption.
  - pose proof (SIN_bound (now' * 0.002 + INR i)). apply Rabs_le. lra.
  - pose proof (SIN_bound (now' * 0.002 * 0.8 + INR i * 0.5)). apply Rabs_le. lra.
Qed.

Lemma files_bob_around_base_witness :
  let f := SSFile.mk (vec3 1 2.05 0) 0 None None in
  exists f',
    fold_left (fun fs now => animateFiles now fs) [1000; 1016] [f] !! 0%nat
    = Some f'
    /\ SSFile.baseY f' = Some (fileBaseY f)
    /\ SSFile.baseRotY f' = Some (fileBaseRotY f)
    /\ Rabs (vy (SSFile.position f') - fileBaseY f) <= 0.15
    /\ Rabs (SSFile.rotationY f' - fileBaseRotY f) <= 0.3
    /\ vx (SSFile.position f') = vx (SSFile.position f)
    /\ vz (SSFile.position f') = vz (SSFile.position f).
Proof.
  intros f. apply (files_bob_around_base [1000; 1016] [f] 0 f).
  - reflexivity.
  - unfold fileBaseY, f. cbn [SSFile.baseY SSFile.position vy]. lra.
  - discriminate.
Defined.

(** ** Open water: the world objects, the autopilot, collisions, the camera *)

(** *** What the updates leave alone *)

Lemma world_updateMovement (t : Tank) (delta : R) :
  allObjects (updateMovement t delta) = allObjects t
  /\ config (updateMovement t delta) = config t
  /\ sideScrollerMode (updateMovement t delta) = sideScrollerMode t.
Proof. unfold updateMovement. destruct (frog t); auto. Qed.

Lemma world_updateAutopilot (t : Tank) (env : Env.t) :
  allObjects (updateAutopilot t env) = allObjects t
  /\ config (updateAutopilot t env) = config t
  /\ sideScrollerMode (updateAutopilot t env) = sideScrollerMode t.
Proof.
  unfold updateAutopilot, realignCamera.
  repeat break_match; cbn; repeat split; congruence.
Qed.

Lemma world_updateFrogAnimation (t : Tank) (delta : R) :
  allObjects (updateFrogAnimation t delta) = allObjects t
  /\ config (updateFrogAnimation t delta) = config t
  /\ sideScrollerMode (updateFrogAnimation t delta) = sideScrollerMode t.
Proof. unfold updateFrogAnimation. destruct (frog t); auto. Qed.

Lemma world_updateAdditionalFrogs (t : Tank) (delta : R) :
  allObjects (updateAdditionalFrogs t delta) = allObjects t
  /\ config (updateAdditionalFrogs t delta) = config t
  /\ sideScrollerMode (updateAdditionalFrogs t delta) = sideScrollerMode t.
Proof. destruct (updateAdditionalFrogs_frame t delta) as [l ->]. auto. Qed.

Lemma world_checkCollisions (t : Tank) :
  allObjects (checkCollisions t) = allObjects t
  /\ config (checkCollisions t) = config t
  /\ sideScrollerMode (checkCollisions t) = sideScrollerMode t.
Proof. unfold checkCollisions. destruct (frog t); auto. Qed.

Section OpenWater.
Context {ops : CameraOps}.

Lemma world_updateCameraPosition (t : Tank) :
  allObjects (updateCameraPosition t) = allObjects t
  /\ config (updateCameraPosition t) = config t
  /\ sideScrollerMode (updateCameraPosition t) = sideScrollerMode t.
Proof. unfold updateCameraPosition. destruct (frog t); auto. Qed.

Lemma world_updateObjectSelection (t : Tank) :
  allObjects (updateObjectSelection t) = allObjects t
  /\ config (updateObjectSelection t) = config t
  /\ sideScrollerMode (updateObjectSelection t) = sideScrollerMode t.
Proof. destruct (updateObjectSelection_frame t) as (l & s & ->). auto. Qed.

(** X14.  The world objects stay in the tank.  In an open-water frame,
    with [floorY + 2 <= ceilingY - 2] and a non-negative width, every world
    object is, at the end of the frame, still at its index with its type,
    with x and z within [-width, width] and y within
    [floorY + 2, ceilingY - 2]; the list keeps its length. *)
Theorem world_objects_stay_in_tank (t : Tank) (env : Env.t) (i : nat)
    (o : WorldObject.t) :
  sideScrollerMode t = false ->
  Config.floorY (config t) + 2 <= Config.ceilingY (config t) - 2 ->
  0 <= Config.width (config t) ->
  allObjects t !! i = Some o ->
  length (allObjects (animate t env)) = length (allObjects t)
  /\ exists o',
       allObjects (animate t env) !! i = Some o'
       /\ WorldObject.type o' = WorldObject.type o
       /\ - Config.width (config t) <= vx (WorldObject.position o')
          <= Config.width (config t)
       /\ Config.floorY (config t) + 2 <= vy (WorldObject.position o')
          <= Config.ceilingY (config t) - 2
       /\ - Config.width (config t) <= vz (WorldObject.position o')
          <= Config.width (config t).
Proof.
  intros Hmode Hy Hw Hlook.
  rewrite (animate_open_water t env Hmode).
  set (u := updateObjectSelection _).
  assert (Hu : allObjects u = allObjects t /\ config u = config t).
  { subst u. unfold avatarPhase.
    destruct (world_updateObjectSelection
                (updateCameraPosition
                   (updateAdditionalFrogs
                      (updateFrogAnimation
                         (updateAutopilot (updateMovement t (Env.delta env)) env)
                         (Env.delta env)) (Env.delta env)))) as (-> & -> & _).
    destruct (world_updateCameraPosition
                (updateAdditionalFrogs
                   (updateFrogAnimation
                      (updateAutopilot (updateMovement t (Env.delta env)) env)
                      (Env.delta env)) (Env.delta env))) as (-> & -> & _).
    destruct (world_updateAdditionalFrogs
                (updateFrogAnimation
                   (updateAutopilot (updateMovement t (Env.delta env)) env)
                   (Env.delta env)) (Env.delta env)) as (-> & -> & _).
    destruct (world_updateFrogAnimation
                (updateAutopilot (updateMovement t (Env.delta env)) env)
                (Env.delta env)) as (-> & -> & _).
    destruct (world_updateAutopilot (updateMovement t (Env.delta env)) env)
      as (-> & -> & _).
    destruct (world_updateMovement t (Env.delta env)) as (-> & -> & _).
    auto. }
  destruct Hu as [Hobj Hcfg]. clearbody u.
  destruct (world_checkCollisions (updateEnvironment u)) as (-> & _ & _).
  unfold updateEnvironment. cbv zeta. cbn [allObjects set_allObjects].
  rewrite Hobj, Hcfg. split; [apply length_imap|].
  rewrite list_lookup_imap, Hlook. cbn [fmap option_fmap option_map].
  eexists. split; [reflexivity|].
  cbn [WorldObject.type WorldObject.position vx vy vz].
  split; [reflexivity|]. repeat split; Rminmax.
Qed.

End OpenWater.

(** *** The autopilot *)

Lemma floorIndex_lt (r : R) (n : nat) :
  0 <= r < 1 -> (0 < n)%nat -> (floorIndex (r * INR n) < n)%nat.
Proof.
  intros [Hr0 Hr1] Hn. unfold floorIndex.
  assert (HnR : 0 < INR n) by (apply lt_0_INR; assumption).
  destruct (base_Int_part (r * INR n)) as [Hlo Hhi].
  assert (Hz0 : (0 <= Int_part (r * INR n))%Z).
  { assert (Hm : IZR (-1) < IZR (Int_part (r * INR n))) by nra.
    apply lt_IZR in Hm. lia. }
  apply Nat2Z.inj_lt. rewrite Z2Nat.id by assumption.
  apply lt_IZR. rewrite <- INR_IZR_INZ. nra.
Qed.

Lemma autopilotCandidates_in_range (t : Tank) (fr : Obj3D.t) (k : nat) :
  In k (autopilotCandidates t fr) ->
  exists o, allObjects t !! k = Some o
    /\ 8 < V3.distanceTo (Obj3D.position fr) (WorldObject.position o) < 50.
Proof.
  unfold autopilotCandidates. rewrite in_map_iff.
  intros ((k' & o) & Hk & Hin). cbn [fst] in Hk. subst k'.
  apply list_elem_of_In in Hin. apply list_elem_of_filter in Hin as [Hp Hin].
  apply list_elem_of_In, indexed_lookup in Hin.
  cbn [snd] in Hp. apply Is_true_true in Hp. apply andb_prop in Hp as [Hgt Hlt].
  apply gtb_gt in Hgt. apply ltb_lt in Hlt. exists o. auto.
Qed.

Lemma autopilotCandidates_complete (t : Tank) (fr : Obj3D.t) (k : nat)
    (o : WorldObject.t) :
  allObjects t !! k = Some o ->
  8 < V3.distanceTo (Obj3D.position fr) (WorldObject.position o) < 50 ->
  In k (autopilotCandidates t fr).
Proof.
  intros Hk [Hlo Hhi]. unfold autopilotCandidates. apply in_map_iff.
  exists (k, o). split; [reflexivity|].
  apply list_elem_of_In. apply list_elem_of_filter. split.
  - cbn [snd]. apply Is_true_true. apply andb_true_intro.
    split; [apply gtb_gt | apply ltb_lt]; assumption.
  - apply list_elem_of_In, indexed_lookup. assumption.
Qed.

(** X15.  The target of the autopilot.  With the avatar and at least one
    world object present, no key held and more than [idleTimeout] since the
    last input, and the draw of [Math.random()] in [0, 1): the autopilot is
    active after the call, and its target is the one it had, or a world
    object that is more than 8 and less than 50 units from the avatar.
    When it had no target, or was less than 5 units from it, and some
    world object is in that range, the target after the call is a world
    object in that range. *)
Theorem autopilot_target_in_range (t : Tank) (env : Env.t) (fr : Obj3D.t)
    (ap : Autopilot.t) :
  frog t = Some fr ->
  allObjects t <> [] ->
  autopilot t = Some ap ->
  Movement.hasInput (movement t) = false ->
  Autopilot.idleTimeout ap < Env.now env - Autopilot.lastInputTime ap ->
  0 <= Env.random env < 1 ->
  exists ap',
    autopilot (updateAutopilot t env) = Some ap'
    /\ Autopilot.active ap' = true
    /\ (Autopilot.targetObject ap' = Autopilot.targetObject ap
        \/ exists k o,
             Autopilot.targetObject ap' = Some k
             /\ allObjects t !! k = Some o
             /\ 8 < V3.distanceTo (Obj3D.position fr) (WorldObject.position o) < 50)
    /\ ((forall o, objectAt t (Autopilot.targetObject ap) = Some o ->
           V3.distanceTo (Obj3D.position fr) (WorldObject.position o) < 5) ->
        (exists j o,
           allObjects t !! j = Some o
           /\ 8 < V3.distanceTo (Obj3D.position fr) (WorldObject.position o) < 50) ->
        exists k o,
          Autopilot.targetObject ap' = Some k
          /\ allObjects t !! k = Some o
          /\ 8 < V3.distanceTo (Obj3D.position fr) (WorldObject.position o) < 50).
Proof.
  intros Hfrog Hobj Hap Hidle Htime Hrand.
  unfold updateAutopilot. rewrite Hfrog, Hap, Hidle.
  assert (Hlen : Nat.eqb (length (allObjects t)) 0 = false).
  { apply Nat.eqb_neq. destruct (allObjects t); [congruence | discriminate]. }
  rewrite Hlen. apply gtb_gt in Htime. rewrite Htime. cbv zeta.
  set (reached := match objectAt t (Autopilot.targetObject ap) with
                  | Some o => _ | None => true end).
  set (candidates := autopilotCandidates t fr).
  set (target := if reached && Nat.ltb 0 (length candidates) then _ else _).
  assert (Hpicked : reached && Nat.ltb 0 (length candidates) = true ->
                    exists k, target = Some k /\ In k candidates).
  { intros Hpick. subst target. rewrite Hpick.
    apply andb_prop in Hpick as [_ Hpos]. apply Nat.ltb_lt in Hpos.
    pose proof (floorIndex_lt (Env.random env) (length candidates) Hrand Hpos) as Hi.
    destruct (lookup_lt_is_Some_2 candidates _ Hi) as [k Hk].
    exists k. split; [assumption|].
    apply list_elem_of_In. eapply list_elem_of_lookup_2. eassumption. }
  assert (Htarget : target = Autopilot.targetObject ap
                    \/ exists k, target = Some k /\ In k candidates).
  { destruct (reached && Nat.ltb 0 (length candidates)) eqn:Hpick;
      [right; apply Hpicked; reflexivity|].
    left. subst target. rewrite ?Hpick. reflexivity. }
  assert (Hnew : (forall o, objectAt t (Autopilot.targetObject ap) = Some o ->
                    V3.distanceTo (Obj3D.position fr) (WorldObject.position o) < 5) ->
                 (exists j o,
                    allObjects t !! j = Some o
                    /\ 8 < V3.distanceTo (Obj3D.position fr)
                             (WorldObject.position o) < 50) ->
                 exists k, target = Some k /\ In k candidates).
  { intros Hnear (j & o & Hj & Hd). apply Hpicked. apply andb_true_intro. split.
    - subst reached. destruct (objectAt t (Autopilot.targetObject ap)) as [o'|];
        [|reflexivity].
      apply ltb_lt. apply Hnear. reflexivity.
    - apply Nat.ltb_lt.
      pose proof (autopilotCandidates_complete t fr j o Hj Hd) as Hin.
      fold candidates in Hin. destruct candidates; [destruct Hin | cbn; lia]. }
  clearbody target.
  destruct (objectAt t target) as [o|];
    destruct (gtb (Env.now env - Autopilot.lastCameraRealign ap) _);
    unfold realignCamera; cbn [frog set_frog set_velocity];
    cbn [autopilot set_swimTime set_autopilot];
    (eexists; split; [reflexivity|]; split; [reflexivity|]);
    cbn [Autopilot.targetObject];
    (split;
     [ destruct Htarget as [-> | (k & -> & Hin)]; [left; reflexivity|];
       right; destruct (autopilotCandidates_in_range t fr k Hin) as (o' & Ho' & Hd);
       exists k, o'; auto
     | intros Hnear Hsome; destruct (Hnew Hnear Hsome) as (k & -> & Hin);
       destruct (autopilotCandidates_in_range t fr k Hin) as (o' & Ho' & Hd);
       exists k, o'; auto ]).
Qed.

(** X16.  The autopilot waits for its timeout.  While a key is held, or no
    more than [idleTimeout] has passed since the last input (or the
    autopilot record is created in this very call), [updateAutopilot]
    writes to [tank.autopilot] and to nothing else: the avatar, its
    velocity, the swim time and the camera rig stay as they are.  With a
    key held, the avatar present and a world object loaded, the record is
    left inactive, without target, and stamped with the time of the
    call. *)
Theorem autopilot_waits_for_timeout (t : Tank) (env : Env.t) :
  Movement.hasInput (movement t) = true
  \/ match autopilot t with
     | Some ap => Env.now env - Autopilot.lastInputTime ap <= Autopilot.idleTimeout ap
     | None => True
     end ->
  (exists a, updateAutopilot t env = set_autopilot a t)
  /\ (Movement.hasInput (movement t) = true ->
      frog t <> None -> allObjects t <> [] ->
      exists ap',
        autopilot (updateAutopilot t env) = Some ap'
        /\ Autopilot.active ap' = false
        /\ Autopilot.targetObject ap' = None
        /\ Autopilot.lastInputTime ap' = Env.now env).
Proof.
  intros Hwait.
  assert (Hid : t = set_autopilot (autopilot t) t) by (destruct t; reflexivity).
  unfold updateAutopilot.
  destruct (frog t) as [fr|] eqn:Hfrog; [|split; [eauto | congruence]].
  destruct (Nat.eqb (length (allObjects t)) 0) eqn:Hlen.
  { split; [eauto|]. intros _ _ Hobj. apply Nat.eqb_eq in Hlen.
    destruct (allObjects t); [congruence | discriminate]. }
  destruct (Movement.hasInput (movement t)) eqn:Hinput.
  { split; [eauto|]. intros _ _ _. eexists. split; [reflexivity|]. auto. }
  split; [|discriminate].
  destruct Hwait as [Hkey | Hearly]; [discriminate|].
  destruct (autopilot t) as [ap|] eqn:Hap.
  - apply gtb_le in Hearly. rewrite Hearly. eauto.
  - assert (Hzero : gtb (Env.now env - Autopilot.lastInputTime
                           (initialAutopilot (Env.now env)))
                        (Autopilot.idleTimeout (initialAutopilot (Env.now env)))
                    = false).
    { apply gtb_le. cbn [initialAutopilot Autopilot.lastInputTime
                           Autopilot.idleTimeout]. lra. }
    rewrite Hzero. eauto.
Qed.

(** *** Collisions *)

(** X17.  Collisions push gently.  [checkCollisions] leaves the avatar and
    its recorded position where they are; it lengthens the velocity by at
    most 0.05 for every world object; and when no world object is nearer
    than [collisionDistance] and farther than 0.1 from the avatar, the
    velocity stays as it is. *)
Theorem collisions_push_gently (t : Tank) :
  frog (checkCollisions t) = frog t
  /\ frogPosition (checkCollisions t) = frogPosition t
  /\ V3.length (velocity (checkCollisions t))
     <= V3.length (velocity t) + 0.05 * INR (length (allObjects t))
  /\ (forall fr, frog t = Some fr ->
      Forall (fun o =>
                let d := V3.distanceTo (Obj3D.position fr) (WorldObject.position o) in
                Config.collisionDistance (config t) <= d \/ d <= 0.1)
             (allObjects t) ->
      velocity (checkCollisions t) = velocity t).
Proof.
  unfold checkCollisions. destruct (frog t) as [fr|] eqn:Hfrog.
  2:{ split; [assumption|]. split; [reflexivity|].
      split; [|intros fr' Hfr'; discriminate].
      pose proof (pos_INR (length (allObjects t))). lra. }
  cbn [frog frogPosition velocity set_velocity]. rewrite Hfrog.
  split; [reflexivity|]. split; [reflexivity|].
  set (f := fun (v : Vector3) (o : WorldObject.t) => _).
  assert (Hstep : forall v o,
            V3.length (f v o) <= V3.length v + 0.05
            /\ (Config.collisionDistance (config t)
                 <= V3.distanceTo (Obj3D.position fr) (WorldObject.position o)
                \/ V3.distanceTo (Obj3D.position fr) (WorldObject.position o) <= 0.1 ->
                f v o = v)).
  { intros v o. subst f. cbv beta zeta.
    set (d := V3.distanceTo (Obj3D.position fr) (WorldObject.position o)).
    set (c := Config.collisionDistance (config t)).
    set (n := V3.normalize (V3.sub (Obj3D.position fr) (WorldObject.position o))).
    destruct (ltb d c && gtb d 0.1) eqn:Hnear.
    - apply andb_prop in Hnear as [Hdc Hd]. apply ltb_lt in Hdc. apply gtb_gt in Hd.
      split; [|lra].
      rewrite length_multiplyScalar. rewrite (Rabs_right 0.99) by lra.
      pose proof (length_add_le v (V3.multiplyScalar n ((c - d) / c * 0.05))) as Htri.
      rewrite length_multiplyScalar in Htri.
      pose proof (length_normalize_le
                    (V3.sub (Obj3D.position fr) (WorldObject.position o))) as Hn.
      fold n in Hn. pose proof (length_nonneg n) as Hn0.
      pose proof (length_nonneg v) as Hv0.
      assert (Hs : 0 <= (c - d) / c * 0.05 <= 0.05).
      { assert (0 < c) by lra.
        assert (0 <= (c - d) / c <= 1).
        { split.
          - apply Rmult_le_pos; [lra|]. apply Rlt_le, Rinv_0_lt_compat. lra.
          - apply Rmult_le_reg_r with c; [lra|]. unfold Rdiv.
            rewrite Rmult_assoc, Rinv_l by lra. lra. }
        lra. }
      rewrite Rabs_right in Htri by lra.
      pose proof (length_nonneg
                    (V3.add v (V3.multiplyScalar n ((c - d) / c * 0.05)))).
      nra.
    - pose proof (length_nonneg v). split; [lra | reflexivity]. }
  clearbody f.
  generalize (velocity t). generalize (allObjects t).
  intros l. induction l as [|o l IH]; intros v; cbn [fold_left].
  { split; [cbn [length INR]; lra|]. intros fr' _ _. reflexivity. }
  destruct (IH (f v o)) as [Hlen Hsame]. destruct (Hstep v o) as [Hone Hfar1].
  split.
  - change (length (o :: l)) with (S (length l)). rewrite S_INR. lra.
  - intros fr' Hfr' Hfar. inversion Hfr'; subst fr'.
    apply Forall_cons in Hfar as [Ho Hl]. cbv zeta in Ho.
    rewrite (Hfar1 Ho) in Hsame |- *. apply (Hsame fr); [reflexivity | assumption].
Qed.

(** *** The camera behind the avatar *)

(** The forward vector of an avatar that is turned about the vertical
    axis only. *)
Lemma forward_of_yaw (fr : Obj3D.t) :
  ex (Obj3D.rotation fr) = 0 ->
  ez (Obj3D.rotation fr) = 0 ->
  V3.applyQuaternion (vec3 0 0 1) (Obj3D.quaternion fr)
  = vec3 (sin (ey (Obj3D.rotation fr))) 0 (cos (ey (Obj3D.rotation fr))).
Proof.
  intros Hx Hz. unfold Obj3D.quaternion, setFromEuler, V3.applyQuaternion.
  cbv zeta. rewrite Hx, Hz.
  replace (0 / 2) with 0 by lra. rewrite cos_0, sin_0.
  cbn [qx qy qz qw vx vy vz].
  set (h := ey (Obj3D.rotation fr) / 2).
  replace (ey (Obj3D.rotation fr)) with (2 * h) by (subst h; lra).
  rewrite sin_2a, cos_2a_sin. f_equal; ring.
Qed.

(** X18.  The camera goes behind the avatar.  For an avatar turned about
    the vertical axis only, by the angle [yaw]: [realignCamera] sets the
    camera offset to 10 units behind the avatar and 5 above,
    [(-10 sin yaw, 5, -10 cos yaw)], and zeroes the mouse-look state;
    [resetCamera] sets it behind the avatar at the horizontal distance and
    the height the camera has from the avatar at that moment. *)
Theorem camera_goes_behind_avatar (t : Tank) (fr : Obj3D.t) :
  frog t = Some fr ->
  ex (Obj3D.rotation fr) = 0 ->
  ez (Obj3D.rotation fr) = 0 ->
  let yaw := ey (Obj3D.rotation fr) in
  let off := V3.sub (Camera.position (camera t)) (Obj3D.position fr) in
  let dist := sqrt (vx off * vx off + vz off * vz off) in
  cameraOffset (realignCamera t) = vec3 (- 10 * sin yaw) 5 (- 10 * cos yaw)
  /\ (euler (realignCamera t), mouseX (realignCamera t), mouseY (realignCamera t))
     = (euler3 0 0 0, 0, 0)
  /\ cameraOffset (resetCamera t)
     = vec3 (- dist * sin yaw) (vy off) (- dist * cos yaw).
Proof.
  intros Hfrog Hx Hz yaw off dist.
  unfold realignCamera, resetCamera. rewrite Hfrog. cbv zeta.
  rewrite (forward_of_yaw fr Hx Hz).
  cbn [cameraOffset euler mouseX mouseY set_mouseY set_mouseX set_euler
       set_cameraOffset vx vy vz V3.multiplyScalar V3.set_y].
  fold yaw off dist.
  split; [apply vec3_eq; cbn [vx vy vz]; ring|].
  split; [reflexivity|].
  apply vec3_eq; unfold V3.set_y, V3.multiplyScalar; cbn [vx vy vz]; ring.
Qed.

(** *** Friction *)

(** X19.  Without a key held the avatar only slows down.  For a frame
    with [delta >= 0] in which the friction terms do not overshoot
    ([friction * 0.6 * delta <= 1], [0.3 * delta <= 1] and
    [friction * 0.5 * delta <= 1], with [friction >= 0]): after
    [updateMovement] every component of the velocity has the sign it had
    and is no larger in absolute value, so the speed is no larger. *)
Theorem friction_only_slows (t : Tank) (fr : Obj3D.t) (delta : R) :
  frog t = Some fr ->
  Movement.hasInput (movement t) = false ->
  0 <= delta ->
  0 <= Config.friction (config t) ->
  Config.friction (config t) * 0.6 * delta <= 1 ->
  0.3 * delta <= 1 ->
  Config.friction (config t) * 0.5 * delta <= 1 ->
  let v := velocity t in
  let v' := velocity (updateMovement t delta) in
  0 <= vx v' * vx v /\ Rabs (vx v') <= Rabs (vx v)
  /\ 0 <= vy v' * vy v /\ Rabs (vy v') <= Rabs (vy v)
  /\ 0 <= vz v' * vz v /\ Rabs (vz v') <= Rabs (vz v)
  /\ V3.length v' <= V3.length v.
Proof.
  intros Hfrog Hidle Hd Hf H1 H2 H3 v v'.
  assert (Hv' : exists a b,
             0 <= a <= 1 /\ 0 <= b <= 1
             /\ v' = vec3 (vx v * a) (vy v * b) (vz v * a)).
  { exists ((1 - Config.friction (config t) * 0.6 * delta) * (1 - 0.3 * delta)),
           (1 - Config.friction (config t) * 0.5 * delta).
    split; [nra|]. split; [nra|].
    subst v'. unfold updateMovement. rewrite Hfrog. cbv zeta.
    cbn [velocity set_frog set_frogPosition set_dashCooldown set_direction
         set_velocity].
    unfold movementVelocity. cbv zeta.
    unfold Movement.hasInput in Hidle.
    destruct (movement t) as [f b l r u d]. cbn in Hidle.
    unfold Movement.hasHorizontalInput. cbn [Movement.forward Movement.backward
      Movement.left Movement.right Movement.up Movement.down].
    destruct f, b, l, r, u, d; try discriminate. cbn [orb].
    fold v. apply vec3_eq; unfold V3.set_y; cbn [vx vy vz]; ring. }
  destruct Hv' as (a & b & Ha & Hb & ->). cbn [vx vy vz].
  assert (Hcomp : forall x k, 0 <= k <= 1 ->
            0 <= x * k * x /\ Rabs (x * k) <= Rabs x).
  { intros x k Hk. split; [nra|].
    rewrite Rabs_mult, (Rabs_right k) by lra. pose proof (Rabs_pos x). nra. }
  destruct (Hcomp (vx v) a Ha) as [Hx1 Hx2].
  destruct (Hcomp (vy v) b Hb) as [Hy1 Hy2].
  destruct (Hcomp (vz v) a Ha) as [Hz1 Hz2].
  repeat split; try assumption.
  unfold V3.length. cbn [vx vy vz]. apply sqrt_le_1_alt.
  assert (Hsq : forall x k, 0 <= k <= 1 -> x * k * (x * k) <= x * x).
  { intros x k Hk. pose proof (Rle_0_sqr x) as Hx. unfold Rsqr in Hx.
    assert (k * k <= 1) by nra. nra. }
  pose proof (Hsq (vx v) a Ha). pose proof (Hsq (vy v) b Hb).
  pose proof (Hsq (vz v) a Ha). lra.
Qed.

(** *** The dash *)

(** X20.  Where a dash goes.  With the cooldown elapsed: a dash with no
    horizontal key held adds [dashForce] times the forward vector
    [(sin yaw, 0, cos yaw)] of an avatar turned about the vertical axis
    only; a dash with two opposite keys held and nothing else (forward
    and backward, or left and right) adds nothing to the velocity, and
    still starts the cooldown of 0.5 s. *)
Theorem dash_direction (t : Tank) (fr : Obj3D.t) :
  frog t = Some fr ->
  dashCooldown t <= 0 ->
  (Movement.hasHorizontalInput (movement t) = false ->
   ex (Obj3D.rotation fr) = 0 -> ez (Obj3D.rotation fr) = 0 ->
   velocity (performDash t)
   = V3.add (velocity t)
       (V3.multiplyScalar
          (vec3 (sin (ey (Obj3D.rotation fr))) 0 (cos (ey (Obj3D.rotation fr))))
          (dashForce t)))
  /\ (Movement.hasHorizontalInput (movement t) = true ->
      Movement.forward (movement t) = Movement.backward (movement t) ->
      Movement.left (movement t) = Movement.right (movement t) ->
      velocity (performDash t) = velocity t
      /\ dashCooldown (performDash t) = 0.5).
Proof.
  intros Hfrog Hcool. unfold performDash. rewrite Hfrog.
  apply gtb_le in Hcool. rewrite Hcool.
  cbn [velocity dashCooldown set_dashCooldown set_velocity]. unfold dashDirection.
  split.
  - intros Hnone Hx Hz. rewrite Hnone. rewrite (forward_of_yaw fr Hx Hz).
    reflexivity.
  - intros Hkeys Hfb Hlr. rewrite Hkeys. split; [|reflexivity].
    assert (Hzero : intentVector (movement t) = vec3 0 0 0).
    { unfold intentVector. cbv zeta. rewrite Hfb, Hlr.
      destruct (Movement.backward (movement t)), (Movement.right (movement t));
        f_equal; ring. }
    rewrite Hzero.
    assert (Hn : V3.normalize (vec3 0 0 0) = vec3 0 0 0).
    { unfold V3.normalize, V3.divideScalar, V3.multiplyScalar. cbn [vx vy vz].
      f_equal; ring. }
    rewrite Hn. unfold V3.applyQuaternion, V3.multiplyScalar, V3.add.
    cbv zeta. cbn [vx vy vz]. destruct (velocity t) as [x y z]. cbn [vx vy vz].
    f_equal; ring.
Qed.

(** *** Instances *)

Lemma world_objects_stay_in_tank_witness :
  let env := Env.mk 0.016 1000 0.5 in
  length (allObjects (@animate fixedCamera reachTank env))
  = length (allObjects reachTank)
  /\ exists o',
       allObjects (@animate fixedCamera reachTank env) !! 0%nat = Some o'
       /\ WorldObject.type o' = Folder
       /\ - Config.width (config reachTank) <= vx (WorldObject.position o')
          <= Config.width (config reachTank)
       /\ Config.floorY (config reachTank) + 2 <= vy (WorldObject.position o')
          <= Config.ceilingY (config reachTank) - 2
       /\ - Config.width (config reachTank) <= vz (WorldObject.position o')
          <= Config.width (config reachTank).
Proof.
  intros env.
  apply (@world_objects_stay_in_tank fixedCamera reachTank env 0
           (WorldObject.mk (vec3 0 0 (-2)) 0 Folder)).
  - reflexivity.
  - cbn. lra.
  - cbn. lra.
  - reflexivity.
Defined.

Lemma autopilot_target_in_range_witness :
  let env := Env.mk 0.016 6000 0.5 in
  exists ap',
    autopilot (updateAutopilot cruiseTank env) = Some ap'
    /\ Autopilot.active ap' = true
    /\ exists k o,
         Autopilot.targetObject ap' = Some k
         /\ allObjects cruiseTank !! k = Some o
         /\ 8 < V3.distanceTo (vec3 0 0 0) (WorldObject.position o) < 50.
Proof.
  intros env.
  destruct (autopilot_target_in_range cruiseTank env
              (Obj3D.mk (vec3 0 0 0) (euler3 0 PI 0)) (initialAutopilot 0))
    as (ap' & Hap' & Hactive & _ & Hnew).
  - reflexivity.
  - discriminate.
  - reflexivity.
  - reflexivity.
  - cbn. lra.
  - cbn. lra.
  - exists ap'. split; [exact Hap'|]. split; [exact Hactive|].
    apply Hnew.
    + intros o Ho. discriminate.
    + exists 0%nat, (WorldObject.mk (vec3 20 0 0) 0 Folder).
      split; [reflexivity|].
      cbn [Obj3D.position WorldObject.position].
      rewrite distanceTo_along_x. unfold Rabs.
      destruct (Rcase_abs (0 - 20)); lra.
Defined.

Lemma autopilot_waits_for_timeout_witness :
  let env := Env.mk 0.016 6000 0.5 in
  (exists a, updateAutopilot swimmingTank env = set_autopilot a swimmingTank)
  /\ exists ap',
       autopilot (updateAutopilot swimmingTank env) = Some ap'
       /\ Autopilot.active ap' = false
       /\ Autopilot.targetObject ap' = None
       /\ Autopilot.lastInputTime ap' = 6000.
Proof.
  intros env.
  destruct (autopilot_waits_for_timeout swimmingTank env) as [Hframe Hreset].
  - left. reflexivity.
  - split; [exact Hframe|].
    apply Hreset; [reflexivity | discriminate | discriminate].
Defined.

Lemma camera_goes_behind_avatar_witness :
  cameraOffset (realignCamera loadedTank) = vec3 (- 10 * sin PI) 5 (- 10 * cos PI).
Proof.
  apply (camera_goes_behind_avatar loadedTank
           (Obj3D.mk (vec3 0 0 0) (euler3 0 PI 0))); reflexivity.
Defined.

Lemma friction_only_slows_witness :
  V3.length (velocity (updateMovement glidingTank 0.016))
  <= V3.length (velocity glidingTank).
Proof.
  apply (friction_only_slows glidingTank
           (Obj3D.mk (vec3 0 0 0) (euler3 0 PI 0)) 0.016);
    try reflexivity; cbn; lra.
Defined.

Lemma dash_direction_witness :
  velocity (performDash loadedTank)
  = V3.add (velocity loadedTank)
      (V3.multiplyScalar (vec3 (sin PI) 0 (cos PI)) (dashForce loadedTank)).
Proof.
  destruct (dash_direction loadedTank (Obj3D.mk (vec3 0 0 0) (euler3 0 PI 0)))
    as [Hfree _].
  - reflexivity.
  - cbn. lra.
  - apply Hfree; reflexivity.
Defined.

(** ** Where the sub-agents appear *)

Lemma INR_apart (i j : nat) : i <> j -> 1 <= (INR i - INR j) * (INR i - INR j).
Proof.
  intros Hij.
  assert (H : INR i + 1 <= INR j \/ INR j + 1 <= INR i).
  { destruct (Nat.lt_ge_cases i j) as [Hlt | Hge].
    - left. rewrite <- S_INR. apply le_INR. lia.
    - right. rewrite <- S_INR. apply le_INR. lia. }
  destruct H; nra.
Qed.

Lemma spawnPosition_apart (i j : nat) :
  i <> j -> 3 <= V3.distanceTo (spawnPosition i) (spawnPosition j).
Proof.
  intros Hij. apply distanceTo_ge; [lra|].
  unfold spawnPosition. cbv zeta. cbn [vx vy vz].
  pose proof (INR_apart i j Hij) as Hy.
  pose proof (Rle_0_sqr
                (cos (INR i / 5 * PI * 2) * (18 + INR i * 6)
                 - cos (INR j / 5 * PI * 2) * (18 + INR j * 6))) as Hx.
  pose proof (Rle_0_sqr
                (sin (INR i / 5 * PI * 2) * (18 + INR i * 6)
                 - sin (INR j / 5 * PI * 2) * (18 + INR j * 6))) as Hz.
  unfold Rsqr in Hx, Hz. nra.
Qed.

Lemma fold_frogLoaded (rot speed : nat -> R) (order : list nat) (t : Tank) :
  otherFrogs (fold_left (fun t i => frogLoaded i (rot i) (speed i) t) order t)
  = otherFrogs t
    ++ map (fun i => FrogData.mk (spawnPosition i) (vec3 0 0 0) (vec3 0 0 0) None
                       (3.0 + speed i * 2.0) 2.0 4.0 1.5 false (rot i * PI * 2))
         order.
Proof.
  revert t. induction order as [|i order IH]; intros t; cbn [fold_left map].
  - rewrite app_nil_r. reflexivity.
  - rewrite IH. unfold frogLoaded. cbv zeta. cbn [otherFrogs set_otherFrogs].
    rewrite <- app_assoc. reflexivity.
Qed.

(** X21.  The sub-agents appear apart and at rest.  Start with no
    sub-agent, and let the load callbacks of [createAdditionalFrogs] run
    for distinct indices, in any order, with every draw of [Math.random()]
    for the speed in [0, 1).  Then there is one sub-agent for each
    callback; each stands still without target, with a speed in [3, 5) and
    [minSeparation] 1.5; and any two of them are at least 3 units
    apart. *)
Theorem sub_agents_spawn_apart (rot speed : nat -> R) (order : list nat)
    (t : Tank) :
  otherFrogs t = [] ->
  NoDup order ->
  (forall i, 0 <= speed i < 1) ->
  let t' := fold_left (fun t i => frogLoaded i (rot i) (speed i) t) order t in
  length (otherFrogs t') = length order
  /\ (forall a fa, otherFrogs t' !! a = Some fa ->
        FrogData.velocity fa = vec3 0 0 0
        /\ FrogData.target fa = None
        /\ FrogData.isMoving fa = false
        /\ 3 <= FrogData.speed fa < 5
        /\ FrogData.minSeparation fa = 1.5)
  /\ (forall a b fa fb,
        a <> b ->
        otherFrogs t' !! a = Some fa ->
        otherFrogs t' !! b = Some fb ->
        3 <= V3.distanceTo (FrogData.position fa) (FrogData.position fb)).
Proof.
  intros Hempty Hnd Hspeed t'. subst t'.
  rewrite fold_frogLoaded, Hempty. cbn [app].
  split; [apply length_map|]. split.
  - intros a fa Ha. rewrite lookup_map in Ha.
    destruct (order !! a) as [i|]; [|discriminate]. cbn in Ha.
    inversion Ha; subst fa. cbn. pose proof (Hspeed i).
    repeat split; try reflexivity; lra.
  - intros a b fa fb Hab Ha Hb. rewrite lookup_map in Ha, Hb.
    destruct (order !! a) as [i|] eqn:Hi; [|discriminate].
    destruct (order !! b) as [j|] eqn:Hj; [|discriminate].
    cbn in Ha, Hb. inversion Ha; subst fa. inversion Hb; subst fb.
    cbn [FrogData.position]. apply spawnPosition_apart.
    intros ->. apply Hab. eapply NoDup_lookup; eassumption.
Qed.

Lemma sub_agents_spawn_apart_witness :
  let t' :=
    fold_left (fun t i => frogLoaded i 0.25 0.5 t) (seq 0 5) newTank in
  length (otherFrogs t') = length (seq 0 5)
  /\ (forall a fa, otherFrogs t' !! a = Some fa ->
        FrogData.velocity fa = vec3 0 0 0
        /\ FrogData.target fa = None
        /\ FrogData.isMoving fa = false
        /\ 3 <= FrogData.speed fa < 5
        /\ FrogData.minSeparation fa = 1.5)
  /\ (forall a b fa fb,
        a <> b ->
        otherFrogs t' !! a = Some fa ->
        otherFrogs t' !! b = Some fb ->
        3 <= V3.distanceTo (FrogData.position fa) (FrogData.position fb)).
Proof.
  apply (sub_agents_spawn_apart (fun _ => 0.25) (fun _ => 0.5) (seq 0 5) newTank).
  - reflexivity.
  - apply NoDup_seq.
  - intros _. lra.
Defined.

(** ** A crowded sub-agent *)

(** X22.  A crowded sub-agent cannot move.  Let something, the avatar's
    recorded position or another sub-agent, be so near sub-agent [i] that
    its distance plus [speed * |delta|] is still below [minSeparation].
    Then whatever the target and the steering forces, the step of [i]
    leaves it where it is: every place it could reach fails the overlap
    guard. *)
Theorem crowded_sub_agent_cannot_move (t : Tank) (i : nat) (fd : FrogData.t)
    (delta d : R) :
  0 <= FrogData.speed fd ->
  nearerThan d t i (FrogData.position fd) ->
  d + FrogData.speed fd * Rabs delta <= FrogData.minSeparation fd ->
  FrogData.position (updateFrogMovement t i fd delta) = FrogData.position fd.
Proof.
  intros Hspeed Hnear Hroom.
  destruct (updateFrogMovement_position t i fd delta) as (_ & [Hstay | Hfree]);
    [assumption|].
  exfalso. apply not_true_iff_false in Hfree. apply Hfree.
  apply wouldCauseOverlap_spec.
  destruct (updateFrogMovement_speed t i fd delta Hspeed) as (_ & _ & Hstep).
  cbv zeta in Hstep.
  set (p' := FrogData.position (updateFrogMovement t i fd delta)) in *.
  destruct Hnear as [Hav | (j & other & Hne & Hj & Hlt)].
  - left.
    pose proof (distanceTo_triangle p' (FrogData.position fd) (frogPosition t)).
    lra.
  - right. exists j, other. split; [assumption|]. split; [assumption|].
    pose proof (distanceTo_triangle p' (FrogData.position fd)
                  (FrogData.position other)).
    lra.
Qed.

Lemma crowded_sub_agent_cannot_move_witness :
  FrogData.position
    (updateFrogMovement crowdedTank 0
       (subAgent (vec3 18 10 0) (Some 0%nat) true) 0.1)
  = vec3 18 10 0.
Proof.
  apply (crowded_sub_agent_cannot_move crowdedTank 0
           (subAgent (vec3 18 10 0) (Some 0%nat) true) 0.1 1).
  - cbn [subAgent FrogData.speed]. lra.
  - left. change (frogPosition crowdedTank) with (vec3 18.5 10 0).
    cbn [subAgent FrogData.position].
    rewrite distanceTo_along_x. unfold Rabs.
    destruct (Rcase_abs (18 - 18.5)); lra.
  - cbn [subAgent FrogData.speed FrogData.minSeparation]. unfold Rabs.
    destruct (Rcase_abs 0.1); lra.
Defined.

(** ** The platforms and the files on them *)

Lemma drawnWidth_range (r : R) : 0 <= r < 1 -> 6 <= drawnWidth r < 10.
Proof. unfold drawnWidth. lra. Qed.

(** A floating platform of [createPlatforms]: where it is, and how wide
    the landing test and the placement of files take it to be. *)
Lemma createPlatforms_lookup (draw : nat -> R) (a : nat) (pl : Platform.t) :
  (forall i, 0 <= draw i < 1) ->
  createPlatforms (fun i => drawnWidth (draw i)) !! a = Some pl ->
  Platform.isGround pl = false ->
  exists k pos,
    a = S k
    /\ platformPositions !! k = Some pos
    /\ Platform.position pl = vec3 (fst pos) (CONFIG.groundY + snd pos + 3) 0
    /\ platWidth pl = drawnWidth (draw k)
    /\ placementWidth pl = drawnWidth (draw k).
Proof.
  intros Hdraw Ha Hfloat. unfold createPlatforms in Ha.
  destruct a as [|k]; [cbn in Ha; inversion Ha; subst pl; discriminate|].
  rewrite lookup_cons in Ha. cbn beta iota in Ha.
  rewrite list_lookup_imap in Ha.
  destruct (platformPositions !! k) as [pos|] eqn:Hpos; [|discriminate].
  cbn in Ha. inversion Ha; subst pl. exists k, pos.
  pose proof (drawnWidth_range (draw k) (Hdraw k)) as Hw.
  assert (Hnz : eqb0 (drawnWidth (draw k)) = false) by (apply eqb0_false; lra).
  unfold platWidth, placementWidth. cbn [Platform.userWidth Platform.position].
  rewrite Hnz. auto.
Qed.

Ltac each_position H k :=
  unfold platformPositions in H;
  repeat (rewrite lookup_cons in H;
          destruct k as [|k]; [injection H as <- | ]);
  [.. | rewrite lookup_nil in H; discriminate].

Lemma platformPositions_apart (a b : nat) (pa pb : R * R) :
  a <> b ->
  platformPositions !! a = Some pa ->
  platformPositions !! b = Some pb ->
  10 <= fst pa - fst pb \/ 10 <= fst pb - fst pa.
Proof.
  intros Hab Ha Hb.
  each_position Ha a; each_position Hb b; cbn [fst];
    try (exfalso; apply Hab; reflexivity); lra.
Qed.

Lemma platformPositions_high (k : nat) (pos : R * R) :
  platformPositions !! k = Some pos -> 0 <= snd pos.
Proof. intros Hk. each_position Hk k; cbn [snd]; lra. Qed.

(** X23.  The platforms do not overlap.  Whatever widths are drawn (every
    draw in [0, 1)), each floating platform of [createPlatforms] is between
    6 and 10 wide, its top is at least 3.25 above the ground level, and the
    left and right edges the landing test uses for two different floating
    platforms never overlap. *)
Theorem platforms_do_not_overlap (draw : nat -> R) (a b : nat)
    (pa pb : Platform.t) :
  (forall i, 0 <= draw i < 1) ->
  createPlatforms (fun i => drawnWidth (draw i)) !! a = Some pa ->
  createPlatforms (fun i => drawnWidth (draw i)) !! b = Some pb ->
  Platform.isGround pa = false ->
  Platform.isGround pb = false ->
  a <> b ->
  6 <= platWidth pa < 10
  /\ CONFIG.groundY + 3.25
     <= vy (Platform.position pa) + CONFIG.platformHeight / 2
  /\ (vx (Platform.position pa) + platWidth pa / 2
      < vx (Platform.position pb) - platWidth pb / 2
      \/ vx (Platform.position pb) + platWidth pb / 2
         < vx (Platform.position pa) - platWidth pa / 2).
Proof.
  intros Hdraw Ha Hb Hfa Hfb Hab.
  destruct (createPlatforms_lookup draw a pa Hdraw Ha Hfa)
    as (ka & posa & -> & Hposa & Hpa & Hwa & _).
  destruct (createPlatforms_lookup draw b pb Hdraw Hb Hfb)
    as (kb & posb & -> & Hposb & Hpb & Hwb & _).
  pose proof (drawnWidth_range (draw ka) (Hdraw ka)) as Hra.
  pose proof (drawnWidth_range (draw kb) (Hdraw kb)) as Hrb.
  rewrite Hwa, Hwb, Hpa, Hpb. cbn [vx vy].
  split; [assumption|]. split.
  - pose proof (platformPositions_high ka posa Hposa) as Hy.
    unfold CONFIG.platformHeight. lra.
  - destruct (platformPositions_apart ka kb posa posb) as [H | H];
      [congruence | assumption | assumption | right; lra | left; lra].
Qed.

Lemma platforms_do_not_overlap_witness :
  let pa :=
    {| Platform.position := vec3 (-35) (CONFIG.groundY + 1 + 3) 0;
       Platform.isGround := false;
       Platform.userWidth := Some (drawnWidth 0.5);
       Platform.geometryWidth := drawnWidth 0.5 |} in
  let pb :=
    {| Platform.position := vec3 (-25) (CONFIG.groundY + 3 + 3) 0;
       Platform.isGround := false;
       Platform.userWidth := Some (drawnWidth 0.5);
       Platform.geometryWidth := drawnWidth 0.5 |} in
  6 <= platWidth pa < 10
  /\ CONFIG.groundY + 3.25
     <= vy (Platform.position pa) + CONFIG.platformHeight / 2
  /\ (vx (Platform.position pa) + platWidth pa / 2
      < vx (Platform.position pb) - platWidth pb / 2
      \/ vx (Platform.position pb) + platWidth pb / 2
         < vx (Platform.position pa) - platWidth pa / 2).
Proof.
  intros pa pb.
  apply (platforms_do_not_overlap (fun _ => 0.5) 1 2 pa pb).
  - intros _. lra.
  - reflexivity.
  - reflexivity.
  - reflexivity.
  - reflexivity.
  - lia.
Defined.

Lemma findPlace_spec (fuel attempts : nat) (draw : nat -> R)
    (used : list (R * R)) (px py bo : R) :
  exists a,
    findPlace fuel attempts draw used px py bo
    = (px + bo + (draw a - 0.5) * 2, py + CONFIG.platformHeight / 2 + 1.8).
Proof.
  revert attempts. induction fuel as [|fuel IH]; intros attempts; cbn [findPlace].
  - exists attempts. reflexivity.
  - destruct (_ && _); [apply IH|]. exists attempts. reflexivity.
Qed.

(** What one file looks like once it is placed. *)
Lemma placeFile_spec (platforms : list Platform.t) (count : nat)
    (offsetDraw : nat -> nat -> R) (rotationDraw : nat -> R)
    (loaded : nat -> bool) (acc : list SSFile.t * list (R * R)) (index : nat) :
  (0 < length platforms)%nat ->
  (forall i a, 0 <= offsetDraw i a < 1) ->
  exists pl f,
    platforms !! (index mod length platforms)%nat = Some pl
    /\ fst (placeFile platforms count offsetDraw rotationDraw loaded acc index)
       = fst acc ++ [f]
    /\ Rabs (vx (SSFile.position f) - vx (Platform.position pl))
       <= Rabs (placementWidth pl) / 3 + 1
    /\ vy (SSFile.position f)
       = vy (Platform.position pl) + CONFIG.platformHeight / 2 + 1.8
    /\ vz (SSFile.position f) = INR index * 0.15 - INR count * 0.15 / 2
    /\ SSFile.baseY f = None.
Proof.
  intros Hlen Hdraw. unfold placeFile.
  assert (Hidx : (index mod length platforms < length platforms)%nat)
    by (apply Nat.mod_upper_bound; lia).
  destruct (lookup_lt_is_Some_2 platforms _ Hidx) as [pl Hpl].
  rewrite Hpl. cbv zeta.
  set (bo := (INR ((index / length platforms) mod 3) - 1) * (placementWidth pl / 3)).
  destruct (findPlace_spec 9 0 (offsetDraw index) (snd acc)
              (vx (Platform.position pl)) (vy (Platform.position pl)) bo)
    as (a & ->).
  eexists pl, _. split; [reflexivity|]. split; [reflexivity|].
  cbn [SSFile.position SSFile.baseY vx vy vz].
  split; [|auto].
  pose proof (Hdraw index a) as Hr.
  assert (Hslot : INR ((index / length platforms) mod 3) = 0
                  \/ INR ((index / length platforms) mod 3) = 1
                  \/ INR ((index / length platforms) mod 3) = 2).
  { pose proof (Nat.mod_upper_bound (index / length platforms) 3) as Hm.
    destruct ((index / length platforms) mod 3)%nat as [|[|[|n]]];
      cbn [INR]; try lra; lia. }
  subst bo. set (w := placementWidth pl).
  apply Rabs_le. unfold Rabs. destruct (Rcase_abs w);
    destruct Hslot as [-> | [-> | ->]]; lra.
Qed.

(** X24.  The files stand on their platforms.  With at least one platform
    and every offset draw in [0, 1), [placeFilesOnPlatforms] places one
    file for each entry of the contents; file [i] goes to platform
    [i mod n], 2.05 above its centre, no farther than a third of the
    platform's width plus 1 from its centre on x, at depth
    [0.15 i - 0.15 count / 2]; so on a platform at least 6 wide it stands
    between the platform's edges. *)
Theorem files_stand_on_their_platforms (platforms : list Platform.t)
    (count : nat) (offsetDraw : nat -> nat -> R) (rotationDraw : nat -> R)
    (loaded : nat -> bool) :
  platforms <> [] ->
  (forall i a, 0 <= offsetDraw i a < 1) ->
  let files :=
    placeFilesOnPlatforms platforms count offsetDraw rotationDraw loaded [] in
  length files = count
  /\ forall i f, files !! i = Some f ->
       exists pl,
         platforms !! (i mod length platforms)%nat = Some pl
         /\ Rabs (vx (SSFile.position f) - vx (Platform.position pl))
            <= Rabs (placementWidth pl) / 3 + 1
         /\ vy (SSFile.position f)
            = vy (Platform.position pl) + CONFIG.platformHeight / 2 + 1.8
         /\ vz (SSFile.position f) = INR i * 0.15 - INR count * 0.15 / 2
         /\ SSFile.baseY f = None
         /\ (6 <= placementWidth pl ->
             Rabs (vx (SSFile.position f) - vx (Platform.position pl))
             <= placementWidth pl / 2).
Proof.
  intros Hne Hdraw files. subst files. unfold placeFilesOnPlatforms.
  assert (Hlen : (0 < length platforms)%nat)
    by (destruct platforms; [congruence | cbn; lia]).
  assert (Hnz : Nat.eqb (length platforms) 0 = false) by (apply Nat.eqb_neq; lia).
  rewrite Hnz.
  assert (H : forall k,
            let files := fst (fold_left
                                (placeFile platforms count offsetDraw rotationDraw
                                   loaded) (seq 0 k) ([], [])) in
            length files = k
            /\ forall i f, files !! i = Some f ->
                 exists pl,
                   platforms !! (i mod length platforms)%nat = Some pl
                   /\ Rabs (vx (SSFile.position f) - vx (Platform.position pl))
                      <= Rabs (placementWidth pl) / 3 + 1
                   /\ vy (SSFile.position f)
                      = vy (Platform.position pl) + CONFIG.platformHeight / 2 + 1.8
                   /\ vz (SSFile.position f)
                      = INR i * 0.15 - INR count * 0.15 / 2
                   /\ SSFile.baseY f = None).
  { induction k as [|k IH]; cbv zeta.
    - cbn. split; [reflexivity|]. intros i f Hi. destruct i; discriminate.
    - rewrite seq_S, fold_left_app. cbn [fold_left Nat.add].
      cbv zeta in IH. destruct IH as (IHlen & IHall).
      set (acc := fold_left _ (seq 0 k) ([], [])) in *.
      destruct (placeFile_spec platforms count offsetDraw rotationDraw loaded
                  acc k Hlen Hdraw) as (pl & f & Hpl & -> & Hx & Hy & Hz & Hb).
      split; [rewrite length_app; cbn; lia|].
      intros i g Hi. apply lookup_app_Some in Hi as [Hi | [Hge Hi]].
      + apply IHall. assumption.
      + rewrite IHlen in Hge, Hi.
        destruct (i - k)%nat as [|n] eqn:Hn; [|destruct n; discriminate].
        cbn in Hi. inversion Hi; subst g.
        assert (i = k) by lia. subst i. exists pl. auto. }
  destruct (H count) as (Hcount & Hall). cbv zeta in Hcount, Hall.
  split; [assumption|]. intros i f Hi.
  destruct (Hall i f Hi) as (pl & Hpl & Hx & Hy & Hz & Hb).
  exists pl. repeat split; try assumption.
  intros Hwide. rewrite (Rabs_right (placementWidth pl)) in Hx by lra. lra.
Qed.

Lemma files_stand_on_their_platforms_witness :
  let platforms := createPlatforms (fun _ => 8) in
  let files :=
    placeFilesOnPlatforms platforms 3 (fun _ _ => 0.5) (fun _ => 0.5)
      (fun _ => true) [] in
  length files = 3%nat
  /\ forall i f, files !! i = Some f ->
       exists pl,
         platforms !! (i mod length platforms)%nat = Some pl
         /\ Rabs (vx (SSFile.position f) - vx (Platform.position pl))
            <= Rabs (placementWidth pl) / 3 + 1
         /\ vy (SSFile.position f)
            = vy (Platform.position pl) + CONFIG.platformHeight / 2 + 1.8
         /\ vz (SSFile.position f) = INR i * 0.15 - INR 3 * 0.15 / 2
         /\ SSFile.baseY f = None
         /\ (6 <= placementWidth pl ->
             Rabs (vx (SSFile.position f) - vx (Platform.position pl))
             <= placementWidth pl / 2).
Proof.
  intros platforms.
  apply (files_stand_on_their_platforms platforms 3 (fun _ _ => 0.5)
           (fun _ => 0.5) (fun _ => true)).
  - discriminate.
  - intros _ _. lra.
Defined.

(** ** The file next to the player *)

Lemma nearest_loop (p : Vector3) (l : list SSFile.t) :
  let acc := fold_left (nearerFile p) (indexed l) (None, 2) in
  match fst acc with
  | Some i =>
      exists f, l !! i = Some f
        /\ snd acc = V3.distanceTo p (SSFile.position f)
        /\ snd acc < 2
        /\ forall j g, l !! j = Some g ->
             snd acc <= V3.distanceTo p (SSFile.position g)
             /\ ((j < i)%nat -> snd acc < V3.distanceTo p (SSFile.position g))
  | None =>
      snd acc = 2
      /\ forall j g, l !! j = Some g -> 2 <= V3.distanceTo p (SSFile.position g)
  end.
Proof.
  induction l as [|x l IH] using rev_ind; cbv zeta.
  - cbn. split; [reflexivity|]. intros j g Hj. destruct j; discriminate.
  - unfold indexed in *. rewrite imap_app, fold_left_app.
    cbn [imap fold_left]. rewrite Nat.add_0_r. cbv zeta in IH.
    set (acc := fold_left (nearerFile p) (imap pair l) (None, 2)) in *.
    assert (Hlast : forall j o, (l ++ [x]) !! j = Some o ->
              l !! j = Some o /\ (j < length l)%nat \/ j = length l /\ o = x).
    { intros j o Hlook. apply lookup_app_Some in Hlook as [Hl | [Hge Hr]].
      - left. split; [assumption|]. eapply lookup_lt_Some. eassumption.
      - right. destruct (j - length l)%nat as [|n] eqn:Hn; [|destruct n; discriminate].
        cbn in Hr. inversion Hr. split; [lia | reflexivity]. }
    unfold nearerFile at 1 2 3 4 5 6. cbn [fst snd]. cbv zeta.
    destruct (ltb (V3.distanceTo p (SSFile.position x)) (snd acc)) eqn:Hlt;
      cbn [fst snd].
    + apply ltb_lt in Hlt. exists x.
      split; [apply list_lookup_middle; reflexivity|]. split; [reflexivity|].
      destruct (fst acc) as [i|].
      * destruct IH as (f & Hf & Hd & Hlt2 & Hmin). split; [lra|].
        intros j g Hj. destruct (Hlast j g Hj) as [[Hl Hjl] | [-> ->]].
        -- destruct (Hmin j g Hl). split; [lra|]. intros _. lra.
        -- split; [lra | lia].
      * destruct IH as (H2 & Hfar). split; [lra|].
        intros j g Hj. destruct (Hlast j g Hj) as [[Hl Hjl] | [-> ->]].
        -- pose proof (Hfar j g Hl). split; [lra|]. intros _. lra.
        -- split; [lra | lia].
    + apply ltb_ge in Hlt. destruct (fst acc) as [i|].
      * destruct IH as (f & Hf & Hd & Hlt2 & Hmin). exists f.
        split; [apply lookup_app_l_Some; assumption|].
        split; [assumption|]. split; [assumption|].
        intros j g Hj. destruct (Hlast j g Hj) as [[Hl Hjl] | [-> ->]].
        -- apply Hmin. assumption.
        -- split; [assumption|]. intros Hji.
           apply lookup_lt_Some in Hf. lia.
      * destruct IH as (H2 & Hfar). split; [assumption|].
        intros j g Hj. destruct (Hlast j g Hj) as [[Hl Hjl] | [-> ->]].
        -- apply (Hfar j g Hl).
        -- lra.
Qed.

(** X25.  The selected file is the nearest one in reach.  In side-scroller
    mode, with the player present: [getSelectedFile] returns a file that is
    less than 2 units from the player, no farther from it than any other
    file, and strictly nearer than every file before it in the list; it
    returns nothing exactly when every file is 2 units away or more. *)
Theorem selected_file_is_nearest (t : Tank) (player : Player.t) :
  sideScrollerMode t = true ->
  sideScrollerPlayer t = Some player ->
  let dist (f : SSFile.t) :=
    V3.distanceTo (Player.position player) (SSFile.position f) in
  match getSelectedFile t with
  | Some i =>
      exists f, sideScrollerFiles t !! i = Some f
        /\ dist f < 2
        /\ forall j g, sideScrollerFiles t !! j = Some g ->
             dist f <= dist g /\ ((j < i)%nat -> dist f < dist g)
  | None =>
      forall j g, sideScrollerFiles t !! j = Some g -> 2 <= dist g
  end.
Proof.
  intros Hmode Hplayer dist. unfold getSelectedFile. rewrite Hmode, Hplayer.
  cbn [negb]. cbv zeta.
  pose proof (nearest_loop (Player.position player) (sideScrollerFiles t)) as H.
  cbv zeta in H.
  destruct (fst (fold_left _ _ _)) as [i|].
  - destruct H as (f & Hf & Hd & Hlt & Hmin). exists f. subst dist. cbv beta.
    rewrite <- Hd. auto.
  - destruct H as (_ & Hfar). exact Hfar.
Qed.

Lemma selected_file_is_nearest_witness :
  let dist (f : SSFile.t) :=
    V3.distanceTo (Player.position initialPlayer) (SSFile.position f) in
  match getSelectedFile shelfTank with
  | Some i =>
      exists f, sideScrollerFiles shelfTank !! i = Some f
        /\ dist f < 2
        /\ forall j g, sideScrollerFiles shelfTank !! j = Some g ->
             dist f <= dist g /\ ((j < i)%nat -> dist f < dist g)
  | None =>
      forall j g, sideScrollerFiles shelfTank !! j = Some g -> 2 <= dist g
  end.
Proof.
  apply (selected_file_is_nearest shelfTank initialPlayer).
  - reflexivity.
  - reflexivity.
Defined.

(** ** Key releases *)

(** X26.  A key release goes to the mode the tank is in.  Inside a folder
    [onKeyUp] writes to [sideScrollerInput] only, in open water to
    [movement] only; entering and leaving a folder reset neither.  So an
    open-water intent that is set when a folder is entered is still set
    after any key release inside the folder and after leaving it, and a
    side-scroller intent left set is still set after any release in open
    water and on entering a folder again. *)
Theorem key_release_follows_the_mode (code : Key) (t : Tank) :
  (sideScrollerMode t = true ->
   exists i, onKeyUp code t = set_sideScrollerInput i t)
  /\ (sideScrollerMode t = false ->
      exists m, onKeyUp code t = set_movement m t)
  /\ (forall folder width files,
        movement
          (exitSideScrollerMode
             (onKeyUp code (enterSideScrollerMode t folder width files)))
        = movement t)
  /\ (forall folder width files,
        sideScrollerInput
          (enterSideScrollerMode (onKeyUp code (exitSideScrollerMode t))
             folder width files)
        = sideScrollerInput t).
Proof.
  assert (Hin : t = set_sideScrollerInput (sideScrollerInput t) t)
    by (destruct t; reflexivity).
  assert (Hmv : t = set_movement (movement t) t) by (destruct t; reflexivity).
  split; [|split; [|split]].
  - intros Hmode. unfold onKeyUp. rewrite Hmode. destruct code; eauto.
  - intros Hmode. unfold onKeyUp. rewrite Hmode. destruct code; eauto.
  - intros folder width files. unfold onKeyUp.
    cbn [sideScrollerMode enterSideScrollerMode set_sideScrollerFiles
         set_sideScrollerPlatforms set_sideScrollerPlayer set_sideScrollerCamera
         set_currentFolder set_sideScrollerMode].
    destruct code; reflexivity.
  - intros folder width files. unfold onKeyUp.
    cbn [sideScrollerMode exitSideScrollerMode set_sideScrollerFiles
         set_sideScrollerPlatforms set_sideScrollerPlayer set_sideScrollerCamera
         set_currentFolder set_sideScrollerMode].
    destruct code; reflexivity.
Qed.

(** ** The file-info panel *)

(** X27.  The file-info panel stays on the screen.  For a selected object
    that is not behind the far plane, in a window at least 260 pixels wide
    and 160 high, the panel (220 by 120) is shown with a margin of 20
    pixels or more on every side, wherever the object is projected. *)
Theorem file_info_panel_stays_on_screen (screenPosition : Vector3)
    (innerWidth innerHeight : R) :
  vz screenPosition <= 1 ->
  260 <= innerWidth ->
  160 <= innerHeight ->
  exists left top,
    positionFileInfoNearObject (Some screenPosition) innerWidth innerHeight
    = ShownAt left top
    /\ 20 <= left /\ left + 220 <= innerWidth - 20
    /\ 20 <= top /\ top + 120 <= innerHeight - 20.
Proof.
  intros Hz Hw Hh. unfold positionFileInfoNearObject.
  apply gtb_le in Hz. rewrite Hz. cbv zeta.
  eexists _, _. split; [reflexivity|].
  set (left1 := if ltb (Rabs _) 100 then _ else _).
  set (top0 := (- vy screenPosition + 1) * innerHeight / 2 - 120 / 2).
  clearbody left1 top0.
  destruct (ltb left1 20) eqn:Hl1; [|destruct (gtb (left1 + 220) _) eqn:Hl2];
    destruct (ltb top0 20) eqn:Ht1;
    try destruct (gtb (top0 + 120) _) eqn:Ht2;
    repeat match goal with
           | H : ltb _ _ = true |- _ => apply ltb_lt in H
           | H : ltb _ _ = false |- _ => apply ltb_ge in H
           | H : gtb _ _ = true |- _ => apply gtb_gt in H
           | H : gtb _ _ = false |- _ => apply gtb_le in H
           end;
    repeat split; lra.
Qed.

Lemma file_info_panel_stays_on_screen_witness :
  exists left top,
    positionFileInfoNearObject (Some (vec3 0.9 0.2 0.5)) 1280 720
    = ShownAt left top
    /\ 20 <= left /\ left + 220 <= 1280 - 20
    /\ 20 <= top /\ top + 120 <= 720 - 20.
Proof.
  apply (file_info_panel_stays_on_screen (vec3 0.9 0.2 0.5) 1280 720).
  - cbn [vz]. lra.
  - lra.
  - lra.
Defined.

(** ** The preview windows *)

Lemma sameId_refl (a : R) : sameId a a = true.
Proof. unfold sameId. destruct (Req_dec_T a a); [reflexivity | contradiction]. Qed.

Lemma sameId_ne (a b : R) : a <> b -> sameId a b = false.
Proof. unfold sameId. destruct (Req_dec_T a b); [contradiction | reflexivity]. Qed.

(** [findIndex] gives the first entry that passes the test. *)
Lemma findIndex_first {A : Type} (f : A -> bool) (l1 l2 : list A) (x : A) :
  Forall (fun y => f y = false) l1 -> f x = true ->
  findIndex f (l1 ++ x :: l2) = Some (length l1).
Proof.
  intros Hl1 Hx. induction Hl1 as [|y l1 Hy _ IH]; cbn [app findIndex length].
  - rewrite Hx. reflexivity.
  - rewrite Hy, IH. reflexivity.
Qed.

Lemma findIndex_Some {A : Type} (f : A -> bool) (l : list A) (i : nat) :
  findIndex f l = Some i -> exists x, l !! i = Some x /\ f x = true.
Proof.
  revert i. induction l as [|y l IH]; intros i; cbn [findIndex]; [discriminate|].
  destruct (f y) eqn:Hy.
  - intros [= <-]. exists y. auto.
  - destruct (findIndex f l) as [k|]; [|discriminate]. intros [= <-].
    apply (IH k). reflexivity.
Qed.

(** Closing by id takes away the first window that has the id. *)
Lemma closePreviewWindow_first (pv : Previews) (l1 l2 : list PreviewWindow.t)
    (w : PreviewWindow.t) :
  previewWindows pv = l1 ++ w :: l2 ->
  Forall (fun v => PreviewWindow.id v <> PreviewWindow.id w) l1 ->
  closePreviewWindow (PreviewWindow.id w) pv
  = {| previewWindows := l1 ++ l2; previewZIndex := previewZIndex pv |}.
Proof.
  intros Hpv Hl1. unfold closePreviewWindow. rewrite Hpv.
  rewrite (findIndex_first _ l1 l2 w).
  - f_equal. clear Hpv Hl1. induction l1 as [|v l1 IH]; [reflexivity|].
    cbn. f_equal. exact IH.
  - eapply Forall_impl; [exact Hl1|]. intros v Hv. apply sameId_ne. exact Hv.
  - apply sameId_refl.
Qed.

(** The loop that makes room ends, within as many rounds as there are
    windows, with the newest four. *)
Lemma closeOldest_spec (fuel : nat) (pv : Previews) :
  (length (previewWindows pv) - 4 <= fuel)%nat ->
  closeOldest fuel pv
  = {| previewWindows :=
         drop (length (previewWindows pv) - 4) (previewWindows pv);
       previewZIndex := previewZIndex pv |}.
Proof.
  revert pv. induction fuel as [|fuel IH]; intros [ws z] Hfuel;
    cbn [closeOldest previewWindows previewZIndex] in *.
  - replace (length ws - 4)%nat with 0%nat by lia. reflexivity.
  - destruct (Nat.leb 5 (length ws)) eqn:Hfive.
    + apply Nat.leb_le in Hfive. destruct ws as [|first rest]; [cbn in Hfive; lia|].
      rewrite (closePreviewWindow_first _ [] rest first) by (constructor || reflexivity).
      cbn [app previewZIndex length] in *. rewrite IH by (cbn; lia).
      cbn [previewWindows previewZIndex].
      replace (S (length rest) - 4)%nat with (S (length rest - 4)) by lia.
      reflexivity.
    + apply Nat.leb_gt in Hfive.
      replace (length ws - 4)%nat with 0%nat by lia. reflexivity.
Qed.

(** [openPreview] on a named file that is no folder, with the container
    in the page. *)
Lemma openPreview_file (fileData : FileData.t) (now : R) (pv : Previews) :
  FileData.hasName fileData = true ->
  FileData.isFolder fileData = false ->
  let kept := drop (length (previewWindows pv) - 4) (previewWindows pv) in
  openPreview (Some fileData) now true pv
  = ({| previewWindows :=
          kept ++ [{| PreviewWindow.id := now;
                      PreviewWindow.left := 20 + INR (length kept) * 30;
                      PreviewWindow.top := 20 + INR (length kept) * 30;
                      PreviewWindow.zIndex := previewZIndex pv + 1;
                      PreviewWindow.focused := false |}];
        previewZIndex := previewZIndex pv + 1 |}, false).
Proof.
  intros Hname Hfolder kept. unfold openPreview.
  rewrite Hname, Hfolder. cbn [negb]. cbv zeta.
  rewrite closeOldest_spec by lia. reflexivity.
Qed.

(** X28.  There are never more than five preview windows.  Opening a
    preview of a named file that is no folder first closes the oldest
    windows until four are left, then adds the new window last, with the
    id of the time: the result has the newest four (or fewer) of the old
    windows, in their order, followed by the new one, so at most five
    windows; the new window is cascaded by 30 pixels for each window
    kept. *)
Theorem preview_windows_capped (fileData : FileData.t) (now : R)
    (pv : Previews) :
  FileData.hasName fileData = true ->
  FileData.isFolder fileData = false ->
  let pv' := fst (openPreview (Some fileData) now true pv) in
  let kept := drop (length (previewWindows pv) - 4) (previewWindows pv) in
  exists panel,
    previewWindows pv' = kept ++ [panel]
    /\ PreviewWindow.id panel = now
    /\ PreviewWindow.left panel = 20 + INR (length kept) * 30
    /\ PreviewWindow.top panel = 20 + INR (length kept) * 30
    /\ (length kept <= 4)%nat
    /\ (length (previewWindows pv') <= 5)%nat
    /\ length (previewWindows pv')
       = S (Nat.min 4 (length (previewWindows pv))).
Proof.
  intros Hname Hfolder pv' kept. subst pv'.
  rewrite (openPreview_file fileData now pv Hname Hfolder).
  cbn [fst previewWindows]. fold kept. eexists. split; [reflexivity|].
  cbn [PreviewWindow.id PreviewWindow.left PreviewWindow.top].
  assert (Hkept : length kept = Nat.min 4 (length (previewWindows pv))).
  { subst kept. rewrite length_drop. lia. }
  rewrite length_app. cbn [length].
  repeat split; try reflexivity; lia.
Qed.

Lemma preview_windows_capped_witness :
  let pv' := fst (openPreview (Some (FileData.mk true false)) 3 true twoPreviews) in
  let kept :=
    drop (length (previewWindows twoPreviews) - 4) (previewWindows twoPreviews) in
  exists panel,
    previewWindows pv' = kept ++ [panel]
    /\ PreviewWindow.id panel = 3
    /\ PreviewWindow.left panel = 20 + INR (length kept) * 30
    /\ PreviewWindow.top panel = 20 + INR (length kept) * 30
    /\ (length kept <= 4)%nat
    /\ (length (previewWindows pv') <= 5)%nat
    /\ length (previewWindows pv')
       = S (Nat.min 4 (length (previewWindows twoPreviews))).
Proof.
  apply (preview_windows_capped (FileData.mk true false) 3 twoPreviews).
  - reflexivity.
  - reflexivity.
Defined.

Lemma zOrdered_close (windowId : R) (pv : Previews) :
  zOrdered pv -> zOrdered (closePreviewWindow windowId pv).
Proof.
  intros Hz. unfold closePreviewWindow. destruct (findIndex _ _); [|assumption].
  unfold zOrdered in *. cbn [previewWindows previewZIndex].
  apply Forall_delete. assumption.
Qed.

Lemma zOrdered_closeOldest (fuel : nat) (pv : Previews) :
  zOrdered pv -> zOrdered (closeOldest fuel pv).
Proof.
  revert pv. induction fuel as [|fuel IH]; intros pv Hz; cbn [closeOldest];
    [assumption|].
  destruct (Nat.leb 5 _); [|assumption].
  destruct (previewWindows pv) eqn:Hws; [assumption|].
  apply IH. apply zOrdered_close. assumption.
Qed.

(** X29.  The window opened or focused last is on top.  Let no window be
    above the counter [previewZIndex], as it is when the tank is made.
    Then this is still so after any call of [openPreview],
    [closePreviewWindow], [closePreview] and [focusPreviewWindow]; a
    window that [openPreview] adds is strictly above every window that
    stays; and a window that [focusPreviewWindow] finds becomes the only
    focused one, strictly above every other window. *)
Theorem newest_preview_on_top (pv : Previews) :
  zOrdered pv ->
  (forall object now container,
     zOrdered (fst (openPreview object now container pv)))
  /\ (forall windowId, zOrdered (closePreviewWindow windowId pv))
  /\ zOrdered (closePreview pv)
  /\ (forall windowId, zOrdered (focusPreviewWindow windowId pv))
  /\ (forall fileData now,
        FileData.hasName fileData = true ->
        FileData.isFolder fileData = false ->
        exists kept panel,
          previewWindows (fst (openPreview (Some fileData) now true pv))
          = kept ++ [panel]
          /\ Forall (fun w => PreviewWindow.zIndex w < PreviewWindow.zIndex panel)
               kept)
  /\ (forall windowId index,
        findIndex (fun w => sameId (PreviewWindow.id w) windowId)
          (previewWindows pv) = Some index ->
        forall j w,
          previewWindows (focusPreviewWindow windowId pv) !! j = Some w ->
          if Nat.eqb j index
          then PreviewWindow.id w = windowId
               /\ PreviewWindow.focused w = true
               /\ PreviewWindow.zIndex w = previewZIndex pv + 1
          else PreviewWindow.focused w = false
               /\ PreviewWindow.zIndex w < previewZIndex pv + 1).
Proof.
  intros Hz.
  assert (Hclose : forall windowId, zOrdered (closePreviewWindow windowId pv))
    by (intros; apply zOrdered_close; assumption).
  split; [|split; [exact Hclose|split; [|split; [|split]]]].
  - intros object now container. unfold openPreview.
    destruct object as [fileData|]; [|assumption].
    destruct (negb (FileData.hasName fileData)); [assumption|].
    destruct (FileData.isFolder fileData); [assumption|]. cbv zeta.
    pose proof (zOrdered_closeOldest (length (previewWindows pv)) pv Hz) as Hz1.
    destruct (negb container); [assumption|].
    unfold zOrdered in *. cbn [fst previewWindows previewZIndex].
    apply Forall_app. split.
    + eapply Forall_impl; [exact Hz1|]. cbv beta. intros w Hw. lra.
    + constructor; [|constructor]. cbn. lra.
  - unfold closePreview. destruct (last _); [apply Hclose | assumption].
  - intros windowId. unfold focusPreviewWindow.
    destruct (findIndex _ _) as [index|]; [|assumption]. cbv zeta.
    unfold zOrdered in *. cbn [previewWindows previewZIndex].
    apply Forall_alter.
    + apply Forall_map. eapply Forall_impl; [exact Hz|].
      cbv beta. intros w Hw. cbn. lra.
    + intros w _ _. cbn. lra.
  - intros fileData now Hname Hfolder.
    rewrite (openPreview_file fileData now pv Hname Hfolder).
    cbn [fst previewWindows]. eexists _, _. split; [reflexivity|].
    cbn [PreviewWindow.zIndex]. apply Forall_drop.
    eapply Forall_impl; [exact Hz|]. cbv beta. intros w Hw. lra.
  - intros windowId index Hfind j w. unfold focusPreviewWindow.
    rewrite Hfind. cbv zeta. cbn [previewWindows].
    destruct (findIndex_Some _ _ _ Hfind) as (x & Hx & Hsame).
    unfold sameId in Hsame. destruct (Req_dec_T _ _) as [Hid|]; [|discriminate].
    rewrite list_lookup_alter.
    destruct (Nat.eqb_spec j index) as [-> | Hj];
      destruct (decide _) as [Heq | Hne]; try congruence; rewrite lookup_map.
    + rewrite Hx. cbn. intros [= <-]. cbn. auto.
    + destruct (previewWindows pv !! j) as [y|] eqn:Hy; cbn; [|discriminate].
      intros [= <-]. cbn. split; [reflexivity|].
      unfold zOrdered in Hz. rewrite Forall_lookup in Hz.
      pose proof (Hz j y Hy) as Hle. cbv beta in Hle. lra.
Qed.

Lemma newest_preview_on_top_witness :
  (forall object now container,
     zOrdered (fst (openPreview object now container twoPreviews)))
  /\ (forall windowId, zOrdered (closePreviewWindow windowId twoPreviews))
  /\ zOrdered (closePreview twoPreviews)
  /\ (forall windowId, zOrdered (focusPreviewWindow windowId twoPreviews))
  /\ (forall fileData now,
        FileData.hasName fileData = true ->
        FileData.isFolder fileData = false ->
        exists kept panel,
          previewWindows (fst (openPreview (Some fileData) now true twoPreviews))
          = kept ++ [panel]
          /\ Forall (fun w => PreviewWindow.zIndex w < PreviewWindow.zIndex panel)
               kept)
  /\ (forall windowId index,
        findIndex (fun w => sameId (PreviewWindow.id w) windowId)
          (previewWindows twoPreviews) = Some index ->
        forall j w,
          previewWindows (focusPreviewWindow windowId twoPreviews) !! j = Some w ->
          if Nat.eqb j index
          then PreviewWindow.id w = windowId
               /\ PreviewWindow.focused w = true
               /\ PreviewWindow.zIndex w = previewZIndex twoPreviews + 1
          else PreviewWindow.focused w = false
               /\ PreviewWindow.zIndex w < previewZIndex twoPreviews + 1).
Proof.
  apply (newest_preview_on_top twoPreviews).
  unfold zOrdered, twoPreviews. cbn [previewWindows previewZIndex].
  repeat constructor; cbn [PreviewWindow.zIndex]; lra.
Defined.

Lemma last_snoc_split {A : Type} (l : list A) (x : A) :
  last l = Some x -> exists l1, l = l1 ++ [x].
Proof.
  intros Hlast. destruct l as [|y l] using rev_ind; [discriminate|].
  rewrite last_snoc in Hlast. injection Hlast as ->. exists l. reflexivity.
Qed.

(** X30.  Escape closes the newest window when the ids differ.  If no two
    windows have the same id, [closePreview] removes the last window and
    keeps the others as they are; and closing right after [openPreview]
    has opened a window whose id no older window has gives back the
    windows [openPreview] had kept.  (The id is the time in milliseconds:
    without the condition [closePreview] takes away the first window
    that has the id of the last one.) *)
Theorem escape_closes_the_newest (pv : Previews) :
  NoDup (map PreviewWindow.id (previewWindows pv)) ->
  previewWindows (closePreview pv) = removelast (previewWindows pv)
  /\ previewZIndex (closePreview pv) = previewZIndex pv
  /\ forall fileData now,
       FileData.hasName fileData = true ->
       FileData.isFolder fileData = false ->
       ~ In now (map PreviewWindow.id (previewWindows pv)) ->
       closePreview (fst (openPreview (Some fileData) now true pv))
       = {| previewWindows :=
              drop (length (previewWindows pv) - 4) (previewWindows pv);
            previewZIndex := previewZIndex pv + 1 |}.
Proof.
  intros Hnd.
  assert (Hlast : closePreview pv
                  = {| previewWindows := removelast (previewWindows pv);
                       previewZIndex := previewZIndex pv |}).
  { unfold closePreview. destruct (last (previewWindows pv)) as [w|] eqn:Hw.
    - destruct (last_snoc_split _ _ Hw) as (l1 & Hl1).
      rewrite (closePreviewWindow_first pv l1 [] w Hl1).
      + rewrite Hl1, removelast_last, app_nil_r. reflexivity.
      + rewrite Hl1, map_app in Hnd. cbn [map] in Hnd.
        apply NoDup_ListNoDup in Hnd. apply List.NoDup_remove_2 in Hnd.
        rewrite app_nil_r in Hnd. apply Forall_forall. intros v Hv Heq.
        apply Hnd. rewrite <- Heq. apply in_map.
        apply list_elem_of_In. exact Hv.
    - destruct pv as [ws z]. cbn [previewWindows previewZIndex] in *.
      destruct ws as [|x ws] using rev_ind; [reflexivity|].
      rewrite last_snoc in Hw. discriminate. }
  rewrite Hlast. cbn [previewWindows previewZIndex].
  split; [reflexivity|]. split; [reflexivity|].
  intros fileData now Hname Hfolder Hfresh.
  rewrite (openPreview_file fileData now pv Hname Hfolder). cbn [fst].
  unfold closePreview. cbn [previewWindows]. rewrite last_snoc.
  cbn [PreviewWindow.id].
  match goal with
  | |- closePreviewWindow _
         {| previewWindows := ?k ++ [?p]; previewZIndex := ?z |} = _ =>
      pose proof (closePreviewWindow_first
                    {| previewWindows := k ++ [p]; previewZIndex := z |}
                    k [] p eq_refl) as Hc
  end.
  cbn [PreviewWindow.id previewZIndex] in Hc.
  rewrite Hc; [rewrite app_nil_r; reflexivity|].
  apply Forall_forall. intros v Hv Heq. apply Hfresh.
  rewrite <- Heq. apply in_map. apply list_elem_of_In.
  eapply subseteq_drop. exact Hv.
Qed.

Lemma escape_closes_the_newest_witness :
  previewWindows (closePreview twoPreviews)
  = removelast (previewWindows twoPreviews)
  /\ previewZIndex (closePreview twoPreviews) = previewZIndex twoPreviews
  /\ forall fileData now,
       FileData.hasName fileData = true ->
       FileData.isFolder fileData = false ->
       ~ In now (map PreviewWindow.id (previewWindows twoPreviews)) ->
       closePreview (fst (openPreview (Some fileData) now true twoPreviews))
       = {| previewWindows :=
              drop (length (previewWindows twoPreviews) - 4)
                (previewWindows twoPreviews);
            previewZIndex := previewZIndex twoPreviews + 1 |}.
Proof.
  apply (escape_closes_the_newest twoPreviews).
  cbn [twoPreviews previewWindows map PreviewWindow.id].
  apply NoDup_cons. split.
  - intros Hin. apply list_elem_of_In in Hin. destruct Hin as [Heq | []]. lra.
  - apply NoDup_cons. split; [|apply NoDup_nil; exact I].
    intros Hin. apply list_elem_of_In in Hin. destruct Hin.
Defined.

(** ** The bubbles *)

Lemma returnBubbleToPool_spec (s : Bubbles) (m : Mesh.t) :
  bubbles (returnBubbleToPool s m) = bubbles s
  /\ maxPoolSize (returnBubbleToPool s m) = maxPoolSize s
  /\ ((length (bubblePool s) <= maxPoolSize s)%nat ->
      (length (bubblePool (returnBubbleToPool s m)) <= maxPoolSize s)%nat).
Proof.
  unfold returnBubbleToPool. cbv zeta.
  destruct (Nat.ltb _ _) eqn:Hroom; cbn [bubbles bubblePool maxPoolSize];
    repeat split; intros Hle; try assumption.
  apply Nat.ltb_lt in Hroom. rewrite length_app. cbn [length]. lia.
Qed.

Lemma getBubbleFromPool_spec (s : Bubbles) :
  bubbles (snd (getBubbleFromPool s)) = bubbles s
  /\ maxPoolSize (snd (getBubbleFromPool s)) = maxPoolSize s
  /\ (length (bubblePool (snd (getBubbleFromPool s)))
      <= length (bubblePool s))%nat.
Proof.
  unfold getBubbleFromPool, pop.
  destruct (last (bubblePool s)) as [m|] eqn:Hlast;
    cbn [snd bubbles bubblePool maxPoolSize]; repeat split; try lia.
  destruct (last_snoc_split _ _ Hlast) as (l1 & ->).
  rewrite removelast_last, length_app. lia.
Qed.

(** What is left of the bubbles after the ageing loop. *)
Lemma ageBubbles_spec (delta : R) (s : Bubbles) :
  bubbles (ageBubbles delta s)
  = List.filter (fun b => negb (leb (BubbleData.life (Bubble.data b)) 0))
      (map (ageBubble delta) (bubbles s))
  /\ maxPoolSize (ageBubbles delta s) = maxPoolSize s
  /\ ((length (bubblePool s) <= maxPoolSize s)%nat ->
      (length (bubblePool (ageBubbles delta s)) <= maxPoolSize s)%nat).
Proof.
  unfold ageBubbles. induction (bubbles s) as [|b l IH]; cbn [fold_right map List.filter].
  - cbn. auto.
  - destruct IH as (IHb & IHm & IHp). cbv zeta.
    destruct (leb (BubbleData.life (Bubble.data (ageBubble delta b))) 0);
      cbn [negb].
    + destruct (returnBubbleToPool_spec
                  (fold_right
                     (fun (b : Bubble.t) (acc : Bubbles) =>
                        let aged := ageBubble delta b in
                        if leb (BubbleData.life (Bubble.data aged)) 0
                        then returnBubbleToPool acc (Bubble.mesh aged)
                        else {| bubbles := aged :: bubbles acc;
                                bubblePool := bubblePool acc;
                                maxPoolSize := maxPoolSize acc |})
                     {| bubbles := []; bubblePool := bubblePool s;
                        maxPoolSize := maxPoolSize s |} l)
                  (Bubble.mesh (ageBubble delta b))) as (Hb & Hm & Hp).
      cbv zeta in Hb, Hm, Hp. rewrite Hb, Hm, IHb, IHm.
      split; [reflexivity|]. split; [reflexivity|].
      intros Hle. rewrite IHm in Hp. apply Hp. apply IHp. exact Hle.
    + cbn [bubbles maxPoolSize bubblePool]. rewrite IHb.
      split; [reflexivity|]. split; assumption.
Qed.

Lemma trailBubble_spec (fr : Obj3D.t) (s : Bubbles) (d : BubbleDraws.t) :
  exists b,
    bubbles (trailBubble fr s d) = bubbles s ++ [b]
    /\ BubbleData.life (Bubble.data b) = 2.0 + BubbleDraws.life d * 1.0
    /\ BubbleData.maxLife (Bubble.data b) = 2.0 + BubbleDraws.life d * 1.0
    /\ maxPoolSize (trailBubble fr s d) = maxPoolSize s
    /\ (length (bubblePool (trailBubble fr s d)) <= length (bubblePool s))%nat.
Proof.
  unfold trailBubble. cbv zeta.
  destruct (getBubbleFromPool_spec s) as (Hb & Hm & Hp).
  destruct (getBubbleFromPool s) as [bubble s1]. cbn [snd] in Hb, Hm, Hp.
  eexists. cbn [bubbles bubblePool maxPoolSize Bubble.data BubbleData.life
                BubbleData.maxLife].
  rewrite Hb. repeat split; assumption.
Qed.

Lemma fold_trailBubble (fr : Obj3D.t) (draws : nat -> BubbleDraws.t)
    (order : list nat) (s : Bubbles) :
  (forall i, 0 <= BubbleDraws.life (draws i) < 1) ->
  let s' := fold_left (fun s i => trailBubble fr s (draws i)) order s in
  exists new,
    bubbles s' = bubbles s ++ new
    /\ length new = length order
    /\ Forall (fun b => 2 <= BubbleData.life (Bubble.data b) < 3
                        /\ BubbleData.maxLife (Bubble.data b)
                           = BubbleData.life (Bubble.data b)) new
    /\ maxPoolSize s' = maxPoolSize s
    /\ (length (bubblePool s') <= length (bubblePool s))%nat.
Proof.
  intros Hdraw. revert s. induction order as [|i order IH]; intros s; cbv zeta;
    cbn [fold_left].
  - exists []. rewrite app_nil_r. repeat split; auto.
  - destruct (trailBubble_spec fr s (draws i)) as (b & Hb & Hlife & Hmax & Hm & Hp).
    destruct (IH (trailBubble fr s (draws i))) as (new & Hn & Hlen & Hall & Hm' & Hp').
    cbv zeta in Hn, Hm', Hp'.
    exists (b :: new). rewrite Hn, Hb, <- app_assoc. cbn [app length].
    split; [reflexivity|]. split; [lia|]. split; [|split; [congruence | lia]].
    constructor; [|assumption]. pose proof (Hdraw i). rewrite Hlife, Hmax.
    split; [lra | reflexivity].
Qed.

(** X6.  Bubbles run out into a bounded pool.  Let the pool hold no more
    than [maxPoolSize] meshes and the draws be in [0, 1).  After
    [updateBubbleTrail] the bubbles are the old ones, each aged by the
    frame, that still have life left, in their order, followed by at most
    three new ones; new bubbles come (two or three, with a life between 2
    and 3 seconds) only while a horizontal key is held, the avatar is
    there and the draw is below 0.4; every bubble in the list has life
    left; and the pool still holds no more than [maxPoolSize] meshes. *)
Theorem bubbles_run_out_into_bounded_pool (t : Tank)
    (delta spawnDraw countDraw : R) (draws : nat -> BubbleDraws.t)
    (s : Bubbles) :
  0 <= countDraw < 1 ->
  (forall i, 0 <= BubbleDraws.life (draws i) < 1) ->
  (length (bubblePool s) <= maxPoolSize s)%nat ->
  let s' := updateBubbleTrail t delta spawnDraw countDraw draws s in
  let life (b : Bubble.t) := BubbleData.life (Bubble.data b) in
  exists new,
    bubbles s'
    = List.filter (fun b => negb (leb (life b) 0))
        (map (ageBubble delta) (bubbles s)) ++ new
    /\ (length new <= 3)%nat
    /\ (new <> [] ->
        (2 <= length new)%nat
        /\ Movement.hasHorizontalInput (movement t) = true
        /\ spawnDraw < 0.4
        /\ frog t <> None)
    /\ Forall (fun b => 2 <= life b < 3
                        /\ BubbleData.maxLife (Bubble.data b) = life b) new
    /\ Forall (fun b => 0 < life b) (bubbles s')
    /\ (length (bubblePool s') <= maxPoolSize s')%nat
    /\ maxPoolSize s' = maxPoolSize s.
Proof.
  intros Hcount Hdraw Hpool s' life. subst s'.
  destruct (ageBubbles_spec delta s) as (Hb & Hm & Hp). specialize (Hp Hpool).
  assert (Halive : Forall (fun b => 0 < life b) (bubbles (ageBubbles delta s))).
  { rewrite Hb. apply List.Forall_forall. intros b Hin.
    apply List.filter_In in Hin as (_ & Hleb).
    apply negb_true_iff in Hleb. subst life. cbv beta.
    destruct (Rle_dec (BubbleData.life (Bubble.data b)) 0) as [Hle|]; [|lra].
    apply leb_le in Hle. congruence. }
  assert (Hnone : exists new,
            bubbles (ageBubbles delta s)
            = List.filter (fun b => negb (leb (life b) 0))
                (map (ageBubble delta) (bubbles s)) ++ new
            /\ (length new <= 3)%nat
            /\ (new <> [] ->
                (2 <= length new)%nat
                /\ Movement.hasHorizontalInput (movement t) = true
                /\ spawnDraw < 0.4
                /\ frog t <> None)
            /\ Forall (fun b => 2 <= life b < 3
                                /\ BubbleData.maxLife (Bubble.data b) = life b) new
            /\ Forall (fun b => 0 < life b) (bubbles (ageBubbles delta s))
            /\ (length (bubblePool (ageBubbles delta s))
                <= maxPoolSize (ageBubbles delta s))%nat
            /\ maxPoolSize (ageBubbles delta s) = maxPoolSize s).
  { exists []. rewrite app_nil_r, Hm. repeat split; try assumption;
      try (cbn; lia); try (exfalso; congruence). constructor. }
  unfold updateBubbleTrail. cbv zeta.
  destruct (Movement.hasHorizontalInput (movement t)) eqn:Hkey;
    [|exact Hnone]. cbn [andb].
  destruct (ltb spawnDraw 0.4) eqn:Hspawn; [|exact Hnone].
  apply ltb_lt in Hspawn. unfold createBubbleTrail.
  destruct (frog t) as [fr|] eqn:Hfrog; [|exact Hnone]. cbv zeta.
  assert (Hk : (floorIndex (countDraw * 2) < 2)%nat).
  { apply (floorIndex_lt countDraw 2); [assumption | lia]. }
  destruct (fold_trailBubble fr draws
              (seq 0 (2 + floorIndex (countDraw * 2))) (ageBubbles delta s) Hdraw)
    as (new & Hn & Hlen & Hall & Hm' & Hp').
  cbv zeta in Hn, Hm', Hp'. rewrite length_seq in Hlen.
  exists new. rewrite Hn, Hm', Hm, Hb.
  split; [reflexivity|]. split; [lia|]. split.
  { intros _. split; [lia|]. split; [reflexivity|]. split; [assumption|].
    discriminate. }
  split; [assumption|]. split; [|split; [lia | reflexivity]].
  apply Forall_app. split.
  - rewrite <- Hb. exact Halive.
  - eapply Forall_impl; [exact Hall|]. cbv beta. intros b [Hb2 _].
    unfold life in *. lra.
Qed.

Lemma bubbles_run_out_into_bounded_pool_witness :
  let s' := updateBubbleTrail swimmingTank 1 0.2 0.7 (fun _ => evenDraws)
              twoBubbles in
  let life (b : Bubble.t) := BubbleData.life (Bubble.data b) in
  exists new,
    bubbles s'
    = List.filter (fun b => negb (leb (life b) 0))
        (map (ageBubble 1) (bubbles twoBubbles)) ++ new
    /\ (length new <= 3)%nat
    /\ (new <> [] ->
        (2 <= length new)%nat
        /\ Movement.hasHorizontalInput (movement swimmingTank) = true
        /\ 0.2 < 0.4
        /\ frog swimmingTank <> None)
    /\ Forall (fun b => 2 <= life b < 3
                        /\ BubbleData.maxLife (Bubble.data b) = life b) new
    /\ Forall (fun b => 0 < life b) (bubbles s')
    /\ (length (bubblePool s') <= maxPoolSize s')%nat
    /\ maxPoolSize s' = maxPoolSize twoBubbles.
Proof.
  apply (bubbles_run_out_into_bounded_pool swimmingTank 1 0.2 0.7
           (fun _ => evenDraws) twoBubbles).
  - lra.
  - intros _. cbn [evenDraws BubbleDraws.life]. lra.
  - cbn. lia.
Defined.

